(** * Danbooru gallery: post state and synchronisation engine

    A shallow embedding of [js/danbooru_gallery/danbooru_gallery.js].
    The closure variables of [onNodeCreated] ([posts], [currentPage],
    [isLoading], [filterState], [originalPostCache], [temporaryTagEdits],
    [currentTooltipId], ...) become fields of explicit state records, each
    event handler becomes a function on that state, and every [await]
    splits an [async] handler into the phases that run before and after
    it.

    Conventions of the embedding:
    - a JavaScript string is the list of its UTF-16 code units;
    - a property that holds a string, [null], or is missing is a [jsval];
    - JavaScript numbers that only ever hold counters, page numbers or
      post identifiers are unbounded integers (the 2^53 precision limit of
      doubles is not modelled);
    - [JSON.parse(JSON.stringify(x))] on such plain data is an explicit
      structural copy. *)

From Stdlib Require Import String Ascii.
From stdpp Require Import gmap list.

Local Open Scope N_scope.
Local Open Scope list_scope.

(** ** JavaScript strings *)

Module Js.

Abbreviation jsstring := (list N).

(** An ASCII literal as code units. *)
Definition lit (s : string) : jsstring :=
  map (fun a => N.of_nat (nat_of_ascii a)) (list_ascii_of_string s).

Definition str_eqb (a b : jsstring) : bool := bool_decide (a = b).

(** [WhiteSpace] and [LineTerminator] of ECMAScript: what
    [String.prototype.trim] strips and what [\s] matches. *)
Definition is_ws (c : N) : bool :=
  (9 <=? c) && (c <=? 13) || (c =? 32) || (c =? 160) || (c =? 5760)
  || (8192 <=? c) && (c <=? 8202) || (c =? 8232) || (c =? 8233)
  || (c =? 8239) || (c =? 8287) || (c =? 12288) || (c =? 65279).

Fixpoint drop_ws (s : jsstring) : jsstring :=
  match s with
  | c :: s' => if is_ws c then drop_ws s' else s
  | [] => []
  end.

(** [s.trim()] *)
Definition trim (s : jsstring) : jsstring :=
  rev (drop_ws (rev (drop_ws s))).

(** [s.split(sep)] for a one-character separator [sep]. *)
Fixpoint split_go (sep : N) (cur : jsstring) (s : jsstring) : list jsstring :=
  match s with
  | [] => [rev cur]
  | c :: s' =>
      if c =? sep then rev cur :: split_go sep [] s'
      else split_go sep (c :: cur) s'
  end.

Definition split (sep : N) (s : jsstring) : list jsstring := split_go sep [] s.

(** [s.split(/\s+/)]: [skipping] is set while inside a run of
    white space that has already closed a token. *)
Fixpoint split_ws_go (cur : jsstring) (skipping : bool) (s : jsstring)
  : list jsstring :=
  match s with
  | [] => [rev cur]
  | c :: s' =>
      if is_ws c then
        if skipping then split_ws_go cur true s'
        else rev cur :: split_ws_go [] true s'
      else split_ws_go (c :: cur) false s'
  end.

Definition split_ws (s : jsstring) : list jsstring := split_ws_go [] false s.

(** [arr.join(sep)] *)
Fixpoint join (sep : jsstring) (l : list jsstring) : jsstring :=
  match l with
  | [] => []
  | [x] => x
  | x :: l' => x ++ sep ++ join sep l'
  end.

(** A string is truthy when it is not empty. *)
Definition nonempty (s : jsstring) : bool :=
  match s with [] => false | _ => true end.

(** Order of the default [Array.prototype.sort] on strings: code unit
    by code unit, a proper prefix first. *)
Fixpoint str_leb (a b : jsstring) : bool :=
  match a, b with
  | [], _ => true
  | _ :: _, [] => false
  | x :: a', y :: b' =>
      if x <? y then true else if y <? x then false else str_leb a' b'
  end.

Fixpoint insert_sorted (x : jsstring) (l : list jsstring) : list jsstring :=
  match l with
  | [] => [x]
  | h :: t => if str_leb x h then x :: l else h :: insert_sorted x t
  end.

(** [arr.sort()]: the order above is total and only identical strings
    tie, so the sorted array does not depend on the algorithm the
    engine uses; insertion sort stands for it. *)
Fixpoint sort (l : list jsstring) : list jsstring :=
  match l with
  | [] => []
  | x :: l' => insert_sorted x (sort l')
  end.

(** [arr.every((x, index) => f x index)] *)
Fixpoint every_from {A} (f : A -> nat -> bool) (i : nat) (l : list A) : bool :=
  match l with
  | [] => true
  | x :: l' => f x i && every_from f (S i) l'
  end.

Definition every {A} (f : A -> nat -> bool) (l : list A) : bool :=
  every_from f 0 l.

(** [arr.includes(x)] on an array of strings. *)
Definition includes (x : jsstring) (l : list jsstring) : bool :=
  existsb (str_eqb x) l.

(** [s.includes(c)] for a one-character needle. *)
Definition has_char (c : N) (s : jsstring) : bool := existsb (N.eqb c) s.

(** A property value: missing (reads as [undefined]), [null], or a
    string. *)
Inductive jsval :=
| Absent
| Null
| Str (s : jsstring).

Definition truthy (v : jsval) : bool :=
  match v with
  | Str s => nonempty s
  | _ => false
  end.

(** The string inside a truthy value. *)
Definition str_of (v : jsval) : jsstring :=
  match v with
  | Str s => s
  | _ => []
  end.

(** [a || b] *)
Definition or_else (a b : jsval) : jsval := if truthy a then a else b.

(** [obj.hasOwnProperty(key)] for the value read at [key]. *)
Definition has_own (v : jsval) : bool :=
  match v with
  | Absent => false
  | _ => true
  end.

End Js.

Import Js.

(** A string of white space only (possibly empty). *)
Definition blank (s : jsstring) : Prop := Forall (fun c => is_ws c = true) s.

(** A token holds no white space (it may be empty). *)
Definition ws_free (x : jsstring) : Prop := Forall (fun c => is_ws c = false) x.

(** ** compareTagStrings (lines 40-54) *)

Definition tag_tokens (s : jsstring) : list jsstring :=
  List.filter nonempty (split_ws (trim s)).

Definition compareTagStrings (str1 str2 : jsval) : bool :=
  if negb (truthy str1) && negb (truthy str2) then true
  else if negb (truthy str1) || negb (truthy str2) then false
  else
    let tags1 := sort (tag_tokens (str_of str1)) in
    let tags2 := sort (tag_tokens (str_of str2)) in
    if negb (length tags1 =? length tags2)%nat then false
    else every (fun tag index =>
                  match tags2 !! index with
                  | Some t => str_eqb tag t
                  | None => false
                  end) tags1.

(** ** Built-ins of the host

    [String.prototype.toLowerCase] needs the Unicode case tables and
    [Date] the time zone of the browser; neither is code of this
    repository, so the handlers take them as an interface. *)

Class Builtins := {
  (** [s.toLowerCase()] *)
  toLowerCase : jsstring -> jsstring;
  (** [new Date(s).getTime()], [None] for [NaN] (an invalid date) *)
  date_value : jsstring -> option Z;
  (** [new Date(s).toISOString().split('T')[0]], [None] when
      [toISOString] throws a [RangeError] (an invalid date) *)
  iso_date : jsstring -> option jsstring
}.

(** ** Posts *)

Inductive category := artist | copyright | character | general | meta.

#[global] Instance category_eq_dec : EqDecision category.
Proof. solve_decision. Defined.

Definition categories : list category :=
  [artist; copyright; character; general; meta].

(** The fields of a post record that the engine reads. The server sends
    [id] as a number; [0] stands for a falsy id. On numbers [==] and [===]
    agree, and a number and the string of [dataset.postId] name the same
    property of [temporaryTagEdits] and [originalPostCache], so ids are
    compared as numbers throughout. *)
Record Post := {
  (** [post.id] *)
  p_id : N;
  preview_file_url : jsval;
  file_url : jsval;
  large_file_url : jsval;
  file_ext : jsval;
  tag_string : jsval;
  tag_string_artist : jsval;
  tag_string_copyright : jsval;
  tag_string_character : jsval;
  tag_string_general : jsval;
  tag_string_meta : jsval
}.

(** [post[`tag_string_${category}`]] *)
Definition tag_string_of (p : Post) (c : category) : jsval :=
  match c with
  | artist => tag_string_artist p
  | copyright => tag_string_copyright p
  | character => tag_string_character p
  | general => tag_string_general p
  | meta => tag_string_meta p
  end.

(** [post[`tag_string_${category}`] = v] *)
Definition set_tag_string_of (c : category) (v : jsval) (p : Post) : Post :=
  {| p_id := p_id p;
     preview_file_url := preview_file_url p;
     file_url := file_url p;
     large_file_url := large_file_url p;
     file_ext := file_ext p;
     tag_string := tag_string p;
     tag_string_artist := if c is artist then v else tag_string_artist p;
     tag_string_copyright := if c is copyright then v else tag_string_copyright p;
     tag_string_character := if c is character then v else tag_string_character p;
     tag_string_general := if c is general then v else tag_string_general p;
     tag_string_meta := if c is meta then v else tag_string_meta p |}.

Definition copy_val (v : jsval) : jsval :=
  match v with
  | Absent => Absent
  | Null => Null
  | Str s => Str s
  end.

(** [JSON.parse(JSON.stringify(post))] *)
Definition deep_copy (p : Post) : Post :=
  {| p_id := p_id p;
     preview_file_url := copy_val (preview_file_url p);
     file_url := copy_val (file_url p);
     large_file_url := copy_val (large_file_url p);
     file_ext := copy_val (file_ext p);
     tag_string := copy_val (tag_string p);
     tag_string_artist := copy_val (tag_string_artist p);
     tag_string_copyright := copy_val (tag_string_copyright p);
     tag_string_character := copy_val (tag_string_character p);
     tag_string_general := copy_val (tag_string_general p);
     tag_string_meta := copy_val (tag_string_meta p) |}.

(** The cache entry [post] is diff-equal to the snapshot [original]. *)
Definition diff_equal (original post : Post) : Prop :=
  (forall c, compareTagStrings (tag_string_of original c) (tag_string_of post c) = true)
  /\ compareTagStrings (tag_string original) (tag_string post) = true.

(** ** Client-side filters (lines 1933-1991) *)

Definition allowedImageExtensions : list jsstring :=
  map lit ["jpg"; "jpeg"; "png"; "webp"; "bmp"; "tiff"; "tif"]%string.

Definition ext_char (c : N) : bool :=
  negb ((c =? 46) || (c =? 63) || (c =? 35)).

Fixpoint span_ext (s : jsstring) : jsstring * jsstring :=
  match s with
  | c :: s' =>
      if ext_char c then let '(run, rest) := span_ext s' in (c :: run, rest)
      else ([], s)
  | [] => ([], [])
  end.

(** Group 1 of [url.match(/\.([^.?#]+)(?:\?|#|$)/)]. The class excludes
    all three of [.], [?] and [#], so at a given dot the match succeeds
    exactly when the longest run after it is not empty and is followed by
    [?], [#] or the end of the string; the leftmost such dot wins. *)
Fixpoint url_extension (url : jsstring) : option jsstring :=
  match url with
  | [] => None
  | c :: url' =>
      if c =? 46 then
        let '(run, rest) := span_ext url' in
        if nonempty run
           && match rest with
              | [] => true
              | d :: _ => (d =? 63) || (d =? 35)
              end
        then Some run
        else url_extension url'
      else url_extension url'
  end.

Section Filters.
Context `{Builtins}.

Definition isValidImageType (post : Post) : bool :=
  if truthy (file_ext post) then
    includes (toLowerCase (str_of (file_ext post))) allowedImageExtensions
  else
    match (if truthy (file_url post)
           then url_extension (toLowerCase (str_of (file_url post)))
           else None) with
    | Some fileExt => includes fileExt allowedImageExtensions
    | None => false
    end.

(** [if (v) allTags.push(...v.split(' '))] *)
Definition push_split (v : jsval) : list jsstring :=
  if truthy v then split 32 (str_of v) else [].

Definition allTags_of (post : Post) : list jsstring :=
  push_split (tag_string post) ++ push_split (tag_string_artist post)
  ++ push_split (tag_string_copyright post)
  ++ push_split (tag_string_character post)
  ++ push_split (tag_string_general post) ++ push_split (tag_string_meta post).

Definition isPostBlacklisted (currentBlacklist : list jsstring) (post : Post) : bool :=
  match currentBlacklist with
  | [] => false
  | _ =>
      existsb (fun blacklistTag =>
                 let normalizedBlacklistTag := toLowerCase (trim blacklistTag) in
                 nonempty normalizedBlacklistTag
                 && existsb (fun tag => str_eqb (toLowerCase tag) normalizedBlacklistTag)
                      (allTags_of post))
        currentBlacklist
  end.

Definition isPostFiltered (currentBlacklist : list jsstring) (post : Post) : bool :=
  if negb (isValidImageType post) then true
  else isPostBlacklisted currentBlacklist post.

End Filters.

(** ** convertTagsToApiFormat (lines 2009-2029) *)

Definition is_paren (c : N) : bool := (c =? 40) || (c =? 41).

(** [s.replace(/\\([()])/g, '$1')] *)
Fixpoint unescape_parens (s : jsstring) : jsstring :=
  match s with
  | [] => []
  | c :: s' =>
      match s' with
      | d :: s'' =>
          if (c =? 92) && is_paren d then d :: unescape_parens s''
          else c :: unescape_parens s'
      | [] => [c]
      end
  end.

(** [s.replace(/\s+/g, '_')] *)
Fixpoint ws_runs_to_underscore (in_run : bool) (s : jsstring) : jsstring :=
  match s with
  | [] => []
  | c :: s' =>
      if is_ws c then
        if in_run then ws_runs_to_underscore true s'
        else 95 :: ws_runs_to_underscore true s'
      else c :: ws_runs_to_underscore false s'
  end.

Definition convertTag (tag : jsstring) : jsstring :=
  let convertedTag := unescape_parens (trim tag) in
  if negb (has_char 58 convertedTag) then ws_runs_to_underscore false convertedTag
  else convertedTag.

Definition convertTagsToApiFormat (tagsString : jsstring) : jsstring :=
  if negb (nonempty tagsString) then []
  else
    let tags := List.filter (fun tag => nonempty (trim tag)) (split 44 tagsString) in
    join [32] (map convertTag tags).

(** ** State of one gallery node *)

Record FilterState := {
  startTime : jsval;
  endTime : jsval;
  startPage : option Z
}.

Record Settings := {
  multi_select_enabled : bool;
  currentBlacklist : list jsstring;
  currentFilterTags : list jsstring;
  filterEnabled : bool;
  (** names of the checked inputs of [categoryDropdown] *)
  selectedCategories : list category;
  escapeBrackets : bool;
  replaceUnderscores : bool;
  (** [searchInput.value] *)
  searchValue : jsstring;
  (** [dataset.value] of the rating button *)
  rating : jsstring
}.

(** A [div.danbooru-image-wrapper]: its [data-post-id], whether it has
    class [selected], and whether it holds the edited indicator. *)
Record Wrapper := {
  w_postId : N;
  w_selected : bool;
  w_edited : bool
}.

Inductive ErrorMsg :=
| ErrNetwork
| ErrNotList
| ErrInvalidDate
| ErrFetch.

Inductive GridItem :=
| Loading
| ErrorStatus (e : ErrorMsg)
| NoResults
| Item (w : Wrapper).

Record Selection := {
  sel_post_id : N;
  sel_prompt : jsstring;
  sel_image_url : jsval
}.

(** The three objects that are stringified into [selection_data]:
    [{}], [{prompt, image_url}] and [{selections: [...]}]. *)
Inductive WidgetValue :=
| WEmpty
| WSingle (prompt : jsstring) (image_url : jsval)
| WSelections (selections : list Selection).

Inductive Toast :=
| ToastEndBeforeStart
| ToastBadStartPage
| ToastResetDone
| ToastFetchedOriginal
| ToastNoOriginal.

Inductive Request :=
| ReqCheckNetwork
| ReqPosts (tags rating limit : jsstring) (page : Z)
| ReqOriginalPost (postId : N).

Record State := {
  (** [posts]: the loaded posts, in server order *)
  posts : list Post;
  (** [originalPostCache]: first-sight snapshot per post id *)
  originalPostCache : gmap N Post;
  (** [temporaryTagEdits]: working copy per post id; a key set to [undefined] reads as a missing key *)
  temporaryTagEdits : gmap N Post;
  (** [currentPage] *)
  currentPage : Z;
  (** [isLoading] *)
  isLoading : bool;
  (** [filterState] *)
  filterState : FilterState;
  (** check boxes, inputs and saved settings the handlers read *)
  settings : Settings;
  (** children of the [imageGrid] element *)
  imageGrid : list GridItem;
  (** whether [tagHintDisplay] is displayed (the timer that hides it
      again after three seconds is not modelled) *)
  tagHintShown : bool;
  (** [refreshButton] has class [loading] and is disabled *)
  refreshLoading : bool;
  (** value of the hidden [selection_data] widget *)
  selection_data : WidgetValue;
  (** the count badge: [Some n] when displayed with count [n] *)
  selectionCount : option nat;
  (** value of the hidden [filter_data] widget *)
  filter_data : FilterState;
  (** [localStorage] entry [danbooru_gallery_filterData] *)
  storedFilterData : option FilterState;
  (** [filterButton] has class [active] *)
  filterButtonActive : bool;
  (** toasts shown so far, oldest first *)
  toasts : list Toast;
  (** requests sent so far, oldest first *)
  requests : list Request
}.

Definition set_posts (v : list Post) (st : State) : State :=
  {| posts := v; originalPostCache := originalPostCache st;
     temporaryTagEdits := temporaryTagEdits st; currentPage := currentPage
     st; isLoading := isLoading st; filterState := filterState st; settings
     := settings st; imageGrid := imageGrid st; tagHintShown := tagHintShown
     st; refreshLoading := refreshLoading st; selection_data :=
     selection_data st; selectionCount := selectionCount st; filter_data :=
     filter_data st; storedFilterData := storedFilterData st;
     filterButtonActive := filterButtonActive st; toasts := toasts st;
     requests := requests st |}.

Definition set_originalPostCache (v : gmap N Post) (st : State) : State :=
  {| posts := posts st; originalPostCache := v; temporaryTagEdits :=
     temporaryTagEdits st; currentPage := currentPage st; isLoading :=
     isLoading st; filterState := filterState st; settings := settings st;
     imageGrid := imageGrid st; tagHintShown := tagHintShown st;
     refreshLoading := refreshLoading st; selection_data := selection_data
     st; selectionCount := selectionCount st; filter_data := filter_data st;
     storedFilterData := storedFilterData st; filterButtonActive :=
     filterButtonActive st; toasts := toasts st; requests := requests st |}.

Definition set_temporaryTagEdits (v : gmap N Post) (st : State) : State :=
  {| posts := posts st; originalPostCache := originalPostCache st;
     temporaryTagEdits := v; currentPage := currentPage st; isLoading :=
     isLoading st; filterState := filterState st; settings := settings st;
     imageGrid := imageGrid st; tagHintShown := tagHintShown st;
     refreshLoading := refreshLoading st; selection_data := selection_data
     st; selectionCount := selectionCount st; filter_data := filter_data st;
     storedFilterData := storedFilterData st; filterButtonActive :=
     filterButtonActive st; toasts := toasts st; requests := requests st |}.

Definition set_currentPage (v : Z) (st : State) : State :=
  {| posts := posts st; originalPostCache := originalPostCache st;
     temporaryTagEdits := temporaryTagEdits st; currentPage := v; isLoading
     := isLoading st; filterState := filterState st; settings := settings
     st; imageGrid := imageGrid st; tagHintShown := tagHintShown st;
     refreshLoading := refreshLoading st; selection_data := selection_data
     st; selectionCount := selectionCount st; filter_data := filter_data st;
     storedFilterData := storedFilterData st; filterButtonActive :=
     filterButtonActive st; toasts := toasts st; requests := requests st |}.

Definition set_isLoading (v : bool) (st : State) : State :=
  {| posts := posts st; originalPostCache := originalPostCache st;
     temporaryTagEdits := temporaryTagEdits st; currentPage := currentPage
     st; isLoading := v; filterState := filterState st; settings := settings
     st; imageGrid := imageGrid st; tagHintShown := tagHintShown st;
     refreshLoading := refreshLoading st; selection_data := selection_data
     st; selectionCount := selectionCount st; filter_data := filter_data st;
     storedFilterData := storedFilterData st; filterButtonActive :=
     filterButtonActive st; toasts := toasts st; requests := requests st |}.

Definition set_filterState (v : FilterState) (st : State) : State :=
  {| posts := posts st; originalPostCache := originalPostCache st;
     temporaryTagEdits := temporaryTagEdits st; currentPage := currentPage
     st; isLoading := isLoading st; filterState := v; settings := settings
     st; imageGrid := imageGrid st; tagHintShown := tagHintShown st;
     refreshLoading := refreshLoading st; selection_data := selection_data
     st; selectionCount := selectionCount st; filter_data := filter_data st;
     storedFilterData := storedFilterData st; filterButtonActive :=
     filterButtonActive st; toasts := toasts st; requests := requests st |}.

Definition set_settings (v : Settings) (st : State) : State :=
  {| posts := posts st; originalPostCache := originalPostCache st;
     temporaryTagEdits := temporaryTagEdits st; currentPage := currentPage
     st; isLoading := isLoading st; filterState := filterState st; settings
     := v; imageGrid := imageGrid st; tagHintShown := tagHintShown st;
     refreshLoading := refreshLoading st; selection_data := selection_data
     st; selectionCount := selectionCount st; filter_data := filter_data st;
     storedFilterData := storedFilterData st; filterButtonActive :=
     filterButtonActive st; toasts := toasts st; requests := requests st |}.

Definition set_imageGrid (v : list GridItem) (st : State) : State :=
  {| posts := posts st; originalPostCache := originalPostCache st;
     temporaryTagEdits := temporaryTagEdits st; currentPage := currentPage
     st; isLoading := isLoading st; filterState := filterState st; settings
     := settings st; imageGrid := v; tagHintShown := tagHintShown st;
     refreshLoading := refreshLoading st; selection_data := selection_data
     st; selectionCount := selectionCount st; filter_data := filter_data st;
     storedFilterData := storedFilterData st; filterButtonActive :=
     filterButtonActive st; toasts := toasts st; requests := requests st |}.

Definition set_tagHintShown (v : bool) (st : State) : State :=
  {| posts := posts st; originalPostCache := originalPostCache st;
     temporaryTagEdits := temporaryTagEdits st; currentPage := currentPage
     st; isLoading := isLoading st; filterState := filterState st; settings
     := settings st; imageGrid := imageGrid st; tagHintShown := v;
     refreshLoading := refreshLoading st; selection_data := selection_data
     st; selectionCount := selectionCount st; filter_data := filter_data st;
     storedFilterData := storedFilterData st; filterButtonActive :=
     filterButtonActive st; toasts := toasts st; requests := requests st |}.

Definition set_refreshLoading (v : bool) (st : State) : State :=
  {| posts := posts st; originalPostCache := originalPostCache st;
     temporaryTagEdits := temporaryTagEdits st; currentPage := currentPage
     st; isLoading := isLoading st; filterState := filterState st; settings
     := settings st; imageGrid := imageGrid st; tagHintShown := tagHintShown
     st; refreshLoading := v; selection_data := selection_data st;
     selectionCount := selectionCount st; filter_data := filter_data st;
     storedFilterData := storedFilterData st; filterButtonActive :=
     filterButtonActive st; toasts := toasts st; requests := requests st |}.

Definition set_selection_data (v : WidgetValue) (st : State) : State :=
  {| posts := posts st; originalPostCache := originalPostCache st;
     temporaryTagEdits := temporaryTagEdits st; currentPage := currentPage
     st; isLoading := isLoading st; filterState := filterState st; settings
     := settings st; imageGrid := imageGrid st; tagHintShown := tagHintShown
     st; refreshLoading := refreshLoading st; selection_data := v;
     selectionCount := selectionCount st; filter_data := filter_data st;
     storedFilterData := storedFilterData st; filterButtonActive :=
     filterButtonActive st; toasts := toasts st; requests := requests st |}.

Definition set_selectionCount (v : option nat) (st : State) : State :=
  {| posts := posts st; originalPostCache := originalPostCache st;
     temporaryTagEdits := temporaryTagEdits st; currentPage := currentPage
     st; isLoading := isLoading st; filterState := filterState st; settings
     := settings st; imageGrid := imageGrid st; tagHintShown := tagHintShown
     st; refreshLoading := refreshLoading st; selection_data :=
     selection_data st; selectionCount := v; filter_data := filter_data st;
     storedFilterData := storedFilterData st; filterButtonActive :=
     filterButtonActive st; toasts := toasts st; requests := requests st |}.

Definition set_filter_data (v : FilterState) (st : State) : State :=
  {| posts := posts st; originalPostCache := originalPostCache st;
     temporaryTagEdits := temporaryTagEdits st; currentPage := currentPage
     st; isLoading := isLoading st; filterState := filterState st; settings
     := settings st; imageGrid := imageGrid st; tagHintShown := tagHintShown
     st; refreshLoading := refreshLoading st; selection_data :=
     selection_data st; selectionCount := selectionCount st; filter_data :=
     v; storedFilterData := storedFilterData st; filterButtonActive :=
     filterButtonActive st; toasts := toasts st; requests := requests st |}.

Definition set_storedFilterData (v : option FilterState) (st : State) : State :=
  {| posts := posts st; originalPostCache := originalPostCache st;
     temporaryTagEdits := temporaryTagEdits st; currentPage := currentPage
     st; isLoading := isLoading st; filterState := filterState st; settings
     := settings st; imageGrid := imageGrid st; tagHintShown := tagHintShown
     st; refreshLoading := refreshLoading st; selection_data :=
     selection_data st; selectionCount := selectionCount st; filter_data :=
     filter_data st; storedFilterData := v; filterButtonActive :=
     filterButtonActive st; toasts := toasts st; requests := requests st |}.

Definition set_filterButtonActive (v : bool) (st : State) : State :=
  {| posts := posts st; originalPostCache := originalPostCache st;
     temporaryTagEdits := temporaryTagEdits st; currentPage := currentPage
     st; isLoading := isLoading st; filterState := filterState st; settings
     := settings st; imageGrid := imageGrid st; tagHintShown := tagHintShown
     st; refreshLoading := refreshLoading st; selection_data :=
     selection_data st; selectionCount := selectionCount st; filter_data :=
     filter_data st; storedFilterData := storedFilterData st;
     filterButtonActive := v; toasts := toasts st; requests := requests st
     |}.

Definition set_toasts (v : list Toast) (st : State) : State :=
  {| posts := posts st; originalPostCache := originalPostCache st;
     temporaryTagEdits := temporaryTagEdits st; currentPage := currentPage
     st; isLoading := isLoading st; filterState := filterState st; settings
     := settings st; imageGrid := imageGrid st; tagHintShown := tagHintShown
     st; refreshLoading := refreshLoading st; selection_data :=
     selection_data st; selectionCount := selectionCount st; filter_data :=
     filter_data st; storedFilterData := storedFilterData st;
     filterButtonActive := filterButtonActive st; toasts := v; requests :=
     requests st |}.

Definition set_requests (v : list Request) (st : State) : State :=
  {| posts := posts st; originalPostCache := originalPostCache st;
     temporaryTagEdits := temporaryTagEdits st; currentPage := currentPage
     st; isLoading := isLoading st; filterState := filterState st; settings
     := settings st; imageGrid := imageGrid st; tagHintShown := tagHintShown
     st; refreshLoading := refreshLoading st; selection_data :=
     selection_data st; selectionCount := selectionCount st; filter_data :=
     filter_data st; storedFilterData := storedFilterData st;
     filterButtonActive := filterButtonActive st; toasts := toasts st;
     requests := v |}.

(** ** Diff engine: updateEditedStatus (lines 3550-3587) *)

(** The value [updateEditedStatus(wrapperElement, postId)] returns. *)
Definition updateEditedStatus (st : State) (postId : N) : bool :=
  match temporaryTagEdits st !! postId, originalPostCache st !! postId with
  | Some editedPost, Some originalPost =>
      let hasCategoryTags :=
        existsb (fun cat => has_own (tag_string_of originalPost cat)
                            || has_own (tag_string_of editedPost cat)) categories in
      if hasCategoryTags then
        existsb (fun category =>
                   negb (compareTagStrings (tag_string_of originalPost category)
                           (tag_string_of editedPost category))) categories
      else negb (compareTagStrings (tag_string originalPost) (tag_string editedPost))
  | _, _ => false
  end.

(** Its effect on the wrapper: the indicator is added or removed. *)
Definition mark_edited (b : bool) (w : Wrapper) : Wrapper :=
  {| w_postId := w_postId w; w_selected := w_selected w; w_edited := b |}.

Definition mark_selected (b : bool) (w : Wrapper) : Wrapper :=
  {| w_postId := w_postId w; w_selected := b; w_edited := w_edited w |}.

(** ** Grid queries *)

Definition is_loading_item (it : GridItem) : bool :=
  match it with Loading => true | _ => false end.

(** [imageGrid.querySelector('.danbooru-loading')?.remove()] *)
Fixpoint remove_first_loading (g : list GridItem) : list GridItem :=
  match g with
  | [] => []
  | it :: g' => if is_loading_item it then g' else it :: remove_first_loading g'
  end.

(** Index of the first wrapper that satisfies [f]. *)
Fixpoint find_wrapper_from (f : Wrapper -> bool) (i : nat) (g : list GridItem)
  : option nat :=
  match g with
  | [] => None
  | Item w :: g' => if f w then Some i else find_wrapper_from f (S i) g'
  | _ :: g' => find_wrapper_from f (S i) g'
  end.

Definition find_wrapper (f : Wrapper -> bool) (g : list GridItem) : option nat :=
  find_wrapper_from f 0 g.

Definition map_wrapper (f : Wrapper -> Wrapper) (it : GridItem) : GridItem :=
  match it with
  | Item w => Item (f w)
  | _ => it
  end.

(** [arr.find(p => p.id == postId)] *)
Definition find_post (postId : N) (l : list Post) : option Post :=
  List.find (fun p => p_id p =? postId) l.

(** [arr.findIndex(p => p.id === postId)] *)
Fixpoint findIndex_from (postId : N) (i : nat) (l : list Post) : option nat :=
  match l with
  | [] => None
  | p :: l' => if p_id p =? postId then Some i else findIndex_from postId (S i) l'
  end.

Definition findIndex (postId : N) (l : list Post) : option nat :=
  findIndex_from postId 0 l.

(** ** createPostElement and renderPost (lines 2948-2960, 3276-3281) *)

Definition createPostElement (post : Post) (st : State) : State * option Wrapper :=
  if (p_id post =? 0) || negb (truthy (preview_file_url post)) then (st, None)
  else
    let st1 :=
      match originalPostCache st !! p_id post with
      | Some _ => st
      | None => set_originalPostCache
                  (<[p_id post := deep_copy post]> (originalPostCache st)) st
      end in
    (st1, Some {| w_postId := p_id post;
                  w_selected := false;
                  w_edited := updateEditedStatus st1 (p_id post) |}).

Definition renderPost (st : State) (post : Post) : State :=
  match createPostElement post st with
  | (st1, Some element) => set_imageGrid (imageGrid st1 ++ [Item element]) st1
  | (st1, None) => st1
  end.

(** ** Prompt building (lines 2848-2893) *)

Section Prompt.
Context `{Builtins}.

(** [s.replace(/_/g, ' ')] *)
Definition underscores_to_spaces (s : jsstring) : jsstring :=
  map (fun c => if c =? 95 then 32 else c) s.

(** [s.replaceAll('(', '\\(').replaceAll(')', '\\)')] *)
Definition escape_parens (s : jsstring) : jsstring :=
  flat_map (fun c => if is_paren c then [92; c] else [c]) s.

(** The body shared by [buildPromptForPost] and the handlers of the
    edit panel, for the post whose tags are exported. *)
Definition promptOf (cfg : Settings) (postToUse : Post) : jsstring :=
  let output_tags :=
    flat_map (fun category => push_split (tag_string_of postToUse category))
      (selectedCategories cfg) in
  let tagsToProcess :=
    match output_tags with
    | _ :: _ => output_tags
    | [] => split 32 (str_of (or_else (tag_string postToUse) (Str [])))
    end in
  let tagsToProcess :=
    if filterEnabled cfg && negb (length (currentFilterTags cfg) =? 0)%nat then
      let filterTagsLower := map (fun tag => trim (toLowerCase tag)) (currentFilterTags cfg) in
      List.filter (fun tag => negb (includes (trim (toLowerCase tag)) filterTagsLower))
        tagsToProcess
    else tagsToProcess in
  let processedTags :=
    map (fun tag =>
           let processedTag := if replaceUnderscores cfg then underscores_to_spaces tag else tag in
           if escapeBrackets cfg then escape_parens processedTag else processedTag)
      tagsToProcess in
  join (lit ", ") processedTags.

Definition buildPromptForPost (st : State) (postData : Post) : jsstring :=
  let postToUse :=
    match temporaryTagEdits st !! p_id postData with
    | Some edited => edited
    | None => postData
    end in
  promptOf (settings st) postToUse.

(** ** Selection (lines 2895-2991) *)

Definition selected_wrappers (g : list GridItem) : list Wrapper :=
  flat_map (fun it => match it with
                      | Item w => if w_selected w then [w] else []
                      | _ => []
                      end) g.

Definition selection_of (st : State) (wrapper : Wrapper) : list Selection :=
  let postId := w_postId wrapper in
  let postData :=
    match find_post postId (posts st) with
    | Some p => Some p
    | None => temporaryTagEdits st !! postId
    end in
  match postData with
  | Some postData =>
      [{| sel_post_id := postId;
          sel_prompt := buildPromptForPost st postData;
          sel_image_url := or_else (file_url postData) (large_file_url postData) |}]
  | None => []
  end.

Definition updateSelectionCount (count : nat) (st : State) : State :=
  if (0 <? count)%nat && multi_select_enabled (settings st)
  then set_selectionCount (Some count) st
  else set_selectionCount None st.

Definition updateSelectionData (st : State) : State :=
  let selections := flat_map (selection_of st) (selected_wrappers (imageGrid st)) in
  updateSelectionCount (length selections)
    (set_selection_data (WSelections selections) st).

Definition clearAllSelections (st : State) : State :=
  updateSelectionData
    (set_imageGrid (map (map_wrapper (mark_selected false)) (imageGrid st)) st).

(** [img.onclick] of the wrapper that is the [i]-th child of the grid. *)
Definition img_onclick (i : nat) (st : State) : State :=
  match imageGrid st !! i with
  | Some (Item wrapper) =>
      let isSelected := w_selected wrapper in
      let isMultiSelectMode := multi_select_enabled (settings st) in
      let grid1 :=
        if negb isMultiSelectMode then
          imap (fun j it => if bool_decide (j = i) then it
                            else map_wrapper (mark_selected false) it) (imageGrid st)
        else imageGrid st in
      let grid2 := <[i := Item (mark_selected (negb isSelected) wrapper)]> grid1 in
      updateSelectionData (set_imageGrid grid2 st)
  | _ => st
  end.

End Prompt.
(** ** Pagination: fetchAndRender (lines 2031-2133)

    The handler awaits twice: the network probe, then the posts request.
    Each phase below runs from one suspension point to the next; a phase
    either returns from the handler or suspends at the next [await]. *)

Inductive Outcome :=
| Returned (st : State)
| Awaiting (st : State).

Definition state_of (o : Outcome) : State :=
  match o with
  | Returned st => st
  | Awaiting st => st
  end.

(** What the posts request resolves to: a JSON array of posts, some
    other JSON value, or a rejection (network failure, a body that is
    not JSON). *)
Inductive PostsResponse :=
| RespList (newPosts : list Post)
| RespNotList
| RespFailure.

Definition send (r : Request) (st : State) : State :=
  set_requests (requests st ++ [r]) st.

(** The [finally] block. *)
Definition fetch_finally (st : State) : State :=
  set_imageGrid (remove_first_loading (imageGrid st))
    (set_refreshLoading false (set_isLoading false st)).

(** The [catch] block, then [finally]. *)
Definition fetch_catch (e : ErrorMsg) (st : State) : State :=
  fetch_finally (set_imageGrid [ErrorStatus e] st).

Section Pagination.
Context `{Builtins}.

(** Up to [await checkNetworkStatus()]; the probe request leaves
    before the handler suspends. *)
Definition fetchAndRender_begin (reset : bool) (st : State) : Outcome :=
  if isLoading st then Returned st
  else
    let st := set_refreshLoading true (set_isLoading true st) in
    let st :=
      if existsb is_loading_item (imageGrid st) then st
      else set_imageGrid (imageGrid st ++ [Loading]) st in
    let st :=
      if reset then
        let page := match startPage (filterState st) with
                    | Some n => if (n =? 0)%Z then 1%Z else n
                    | None => 1%Z
                    end in
        set_imageGrid [Loading] (set_posts [] (set_currentPage page st))
      else st in
    Awaiting (send ReqCheckNetwork st).

(** [filterState.x ? new Date(filterState.x).toISOString().split('T')[0] : ''] *)
Definition date_part (v : jsval) : option jsstring :=
  if truthy v then iso_date (str_of v) else Some [].

(** The value of [search[tags]], or [None] when formatting a date
    throws. *)
Definition search_tags (st : State) : option jsstring :=
  let searchValue := trim (searchValue (settings st)) in
  let apiFormattedTags := convertTagsToApiFormat searchValue in
  if truthy (startTime (filterState st)) || truthy (endTime (filterState st)) then
    match date_part (startTime (filterState st)) with
    | None => None
    | Some start =>
        match date_part (endTime (filterState st)) with
        | None => None
        | Some end_ =>
            Some (trim (apiFormattedTags ++ lit " date:" ++ start ++ lit ".." ++ end_))
        end
    end
  else Some (trim apiFormattedTags).

(** [tagCount] *)
Definition tagCount (st : State) : nat :=
  length (List.filter (fun tag => nonempty (trim tag))
            (split 44 (trim (searchValue (settings st))))).

(** From the result of the probe to [await fetch(...)] of the posts. *)
Definition fetchAndRender_checked (isNetworkConnected : bool) (st : State) : Outcome :=
  if negb isNetworkConnected then
    (* the same statements as [catch] followed by [finally] *)
    Returned (fetch_catch ErrNetwork st)
  else
    let st := set_tagHintShown (2 <? tagCount st)%nat st in
    match search_tags st with
    | None => Returned (fetch_catch ErrInvalidDate st)
    | Some tags =>
        Awaiting (send (ReqPosts tags (rating (settings st)) (lit "100") (currentPage st)) st)
    end.

(** From the response to the end of the handler. *)
Definition fetchAndRender_response (reset : bool) (resp : PostsResponse) (st : State)
  : State :=
  match resp with
  | RespFailure => fetch_catch ErrFetch st
  | RespNotList => fetch_catch ErrNotList st
  | RespList newPosts =>
      let filteredPosts :=
        List.filter (fun post => negb (isPostFiltered (currentBlacklist (settings st)) post))
          newPosts in
      if (length filteredPosts =? 0)%nat && reset then
        fetch_finally (set_imageGrid [NoResults] st)
      else
        let st := set_posts (posts st ++ filteredPosts)
                    (set_currentPage (currentPage st + 1)%Z st) in
        fetch_finally (foldl renderPost st filteredPosts)
  end.

(** A run of the handler that no other handler interleaves with. *)
Definition fetchAndRender (reset : bool) (isNetworkConnected : bool)
    (resp : PostsResponse) (st : State) : State :=
  match fetchAndRender_begin reset st with
  | Returned st => st
  | Awaiting st =>
      match fetchAndRender_checked isNetworkConnected st with
      | Returned st => st
      | Awaiting st => fetchAndRender_response reset resp st
      end
  end.

End Pagination.

(** ** Edit overlay (lines 2211-2215, 2503-2588) *)

(** [if (!temporaryTagEdits[post.id]) temporaryTagEdits[post.id] = copy] *)
Definition getOrCreateWorkingCopy (post : Post) (st : State) : State :=
  match temporaryTagEdits st !! p_id post with
  | Some _ => st
  | None => set_temporaryTagEdits
              (<[p_id post := deep_copy post]> (temporaryTagEdits st)) st
  end.

(** The working copy the panel then edits. *)
Definition editablePost (post : Post) (st : State) : option Post :=
  temporaryTagEdits (getOrCreateWorkingCopy post st) !! p_id post.

(** [updateEditedStatus(wrapper, postId)] for the first wrapper of the
    grid with [data-post-id] equal to [selector], if there is one. *)
Definition refresh_indicator (selector postId : N) (st : State) : State :=
  match find_wrapper (fun w => w_postId w =? selector) (imageGrid st) with
  | Some i =>
      set_imageGrid
        (alter (map_wrapper (mark_edited (updateEditedStatus st postId))) i (imageGrid st))
        st
  | None => st
  end.

Section EditPanel.
Context `{Builtins}.

(** [showEditPanel(post)] up to the creation of the panel: the edited
    post becomes the selected one, its projection is written to the
    widget, and the working copy is created. *)
Definition showEditPanel (post : Post) (st : State) : State :=
  let grid1 :=
    match find_wrapper w_selected (imageGrid st) with
    | Some i =>
        alter (map_wrapper (fun w => if w_postId w =? p_id post then w
                                     else mark_selected false w)) i (imageGrid st)
    | None => imageGrid st
    end in
  let st1 := set_imageGrid grid1 st in
  let st2 :=
    match find_wrapper (fun w => w_postId w =? p_id post) grid1 with
    | Some i =>
        let postToUse := match temporaryTagEdits st !! p_id post with
                         | Some edited => edited
                         | None => post
                         end in
        set_selection_data
          (WSingle (promptOf (settings st) postToUse)
             (or_else (file_url post) (large_file_url post)))
          (set_imageGrid (alter (map_wrapper (mark_selected true)) i grid1) st1)
    | None => st1
    end in
  getOrCreateWorkingCopy post st2.

(** [resetTagsButton.onclick] of the panel opened for [post], up to its
    only [await]. The tags drawn inside the panel ([renderTagsInPanel])
    are not part of the state. *)
Definition resetTags_begin (post : Post) (st : State) : Outcome :=
  match originalPostCache st !! p_id post with
  | Some originalPostData =>
      let posts1 :=
        match findIndex (p_id post) (posts st) with
        | Some postIndex => <[postIndex := deep_copy originalPostData]> (posts st)
        | None => posts st
        end in
      let st := set_posts posts1 st in
      let st := set_temporaryTagEdits (delete (p_id post) (temporaryTagEdits st)) st in
      let st := refresh_indicator (p_id post) (p_id originalPostData) st in
      let st :=
        set_selection_data
          (WSingle (promptOf (settings st) originalPostData)
             (or_else (file_url originalPostData) (large_file_url originalPostData)))
          st in
      Returned (set_toasts (toasts st ++ [ToastResetDone]) st)
  | None => Awaiting (send (ReqOriginalPost (p_id post)) st)
  end.

(** After [await fetchOriginalPost(post.id)]. *)
Definition resetTags_fetched (post : Post) (fetchedOriginalPost : option Post)
    (st : State) : State :=
  match fetchedOriginalPost with
  | Some fetched =>
      set_toasts (toasts st ++ [ToastFetchedOriginal])
        (set_originalPostCache
           (<[p_id post := deep_copy fetched]> (originalPostCache st)) st)
  | None => set_toasts (toasts st ++ [ToastNoOriginal]) st
  end.

End EditPanel.
(** ** Filter dialog: applyButton.onclick (lines 1769-1806) *)

Definition digit_of (c : N) : option Z :=
  if (48 <=? c) && (c <=? 57) then Some (Z.of_N (c - 48)) else None.

Fixpoint digits_value (acc : Z) (s : jsstring) : Z :=
  match s with
  | c :: s' =>
      match digit_of c with
      | Some d => digits_value (10 * acc + d)%Z s'
      | None => acc
      end
  | [] => acc
  end.

(** [parseInt(s, 10)]: leading white space, an optional sign, then the
    longest run of decimal digits; [None] is [NaN]. *)
Definition parseInt10 (s : jsstring) : option Z :=
  let s := drop_ws s in
  let '(negative, s) :=
    match s with
    | c :: s' => if c =? 45 then (true, s') else if c =? 43 then (false, s') else (false, s)
    | [] => (false, [])
    end in
  match s with
  | c :: _ =>
      match digit_of c with
      | Some _ => Some (if negative then - digits_value 0 s else digits_value 0 s)%Z
      | None => None
      end
  | [] => None
  end.

Inductive FilterType := ByTime | ByPage.

(** The controls of the dialog when the button is clicked. *)
Record FilterDialog := {
  selectedType : FilterType;
  startTimeInput : jsstring;
  endTimeInput : jsstring;
  startPageInput : jsstring
}.

Inductive ApplyResult :=
| Rejected (st : State)
| Applied (o : Outcome).

(** [value || null] *)
Definition or_null (value : jsstring) : jsval :=
  if nonempty value then Str value else Null.

Definition filter_active (fs : FilterState) : bool :=
  truthy (startTime fs) || truthy (endTime fs)
  || match startPage fs with
     | Some n => negb (n =? 0)%Z
     | None => false
     end.

Section FilterDialog.
Context `{Builtins}.

(** [new Date(a) > new Date(b)]; a comparison with [NaN] is false. *)
Definition date_gt (a b : jsstring) : bool :=
  match date_value a, date_value b with
  | Some x, Some y => (y <? x)%Z
  | _, _ => false
  end.

(** The tail of the handler, once the inputs passed validation. *)
Definition commit_filter (fs : FilterState) (st : State) : Outcome :=
  let st := set_filterState fs st in
  let st := set_storedFilterData (Some fs) st in
  let st := set_filter_data fs st in
  let st := set_filterButtonActive (filter_active fs) st in
  fetchAndRender_begin true st.

Definition applyButton_onclick (dlg : FilterDialog) (st : State) : ApplyResult :=
  match selectedType dlg with
  | ByTime =>
      let startTime_ := startTimeInput dlg in
      let endTime_ := endTimeInput dlg in
      if nonempty startTime_ && nonempty endTime_ && date_gt startTime_ endTime_ then
        Rejected (set_toasts (toasts st ++ [ToastEndBeforeStart]) st)
      else
        Applied (commit_filter {| startTime := or_null startTime_;
                                  endTime := or_null endTime_;
                                  startPage := None |} st)
  | ByPage =>
      let startPage_ := parseInt10 (startPageInput dlg) in
      if nonempty (startPageInput dlg)
         && match startPage_ with
            | None => true
            | Some n => (n <? 1)%Z
            end
      then Rejected (set_toasts (toasts st ++ [ToastBadStartPage]) st)
      else
        Applied (commit_filter {| startTime := Null;
                                  endTime := Null;
                                  startPage := startPage_ |} st)
  end.

End FilterDialog.

(** ** Tooltip enrichment (lines 3051-3176) *)

Module Tip.

(** What [translations[tag]] reads from the plain object of the
    response when it is truthy: a string the response holds itself, or,
    for a key the response does not hold, the member of
    [Object.prototype] of that name (a function, or the prototype itself
    for [__proto__]), which the span shows as the host prints it. *)
Inductive Translation :=
| Own (value : jsstring)
| Inherited (member : jsstring).

(** One section of the tooltip: the details of the post, or the tags of
    a category, each with its translation if there is one. *)
Inductive TipSection :=
| Details (post : Post)
| Tags (categoryName : category) (tags : list (jsstring * option Translation)).

Record Tooltip := {
  (** [currentTooltipId] *)
  currentTooltipId : N;
  (** [uiSettings.tooltip_enabled] *)
  tooltip_enabled : bool;
  (** [globalMultiLanguageManager.getLanguage() === 'zh'] *)
  language_zh : bool;
  (** children of [.danbooru-tooltip-tags] *)
  tagsContainer : list TipSection;
  (** [globalTooltip.style.display] is ["block"] *)
  displayed : bool;
  (** ids of the wrappers whose [currentClickHandler] is set *)
  clickHandlers : list N
}.

(** What the user sees and can trigger. *)
Definition ui (t : Tooltip) : list TipSection * bool * list N :=
  (tagsContainer t, displayed t, clickHandlers t).

(** [new Set()] filled by [add] in order: first occurrences only. *)
Fixpoint set_of (l : list jsstring) : list jsstring :=
  match l with
  | [] => []
  | x :: l' => x :: List.filter (fun y => negb (str_eqb x y)) (set_of l')
  end.

Definition category_set (post : Post) (c : category) : list jsstring :=
  set_of (push_split (tag_string_of post c)).

Definition categorizedTags (post : Post) : category -> list jsstring :=
  if forallb (fun c => (length (category_set post c) =? 0)%nat) categories
     && truthy (tag_string post)
  then fun c => if c is general then set_of (split 32 (str_of (tag_string post))) else []
  else category_set post.

Definition allTags (post : Post) : list jsstring :=
  flat_map (categorizedTags post) categories.

(** The own entries of the response object [translations] are given as
    a list of keys and string values, looked up from the front. *)
Fixpoint own_property (translations : list (jsstring * jsstring)) (tag : jsstring)
  : option jsstring :=
  match translations with
  | [] => None
  | (k, v) :: rest => if str_eqb k tag then Some v else own_property rest tag
  end.

(** The names every plain object inherits from [Object.prototype]. *)
Definition object_prototype_members : list jsstring :=
  map lit ["constructor"; "__defineGetter__"; "__defineSetter__"; "hasOwnProperty";
           "__lookupGetter__"; "__lookupSetter__"; "isPrototypeOf";
           "propertyIsEnumerable"; "toString"; "valueOf"; "__proto__";
           "toLocaleString"]%string.

(** [translations[tag]] as [createTagSpan] uses it
    ([translation ? ... : tag]): an own entry hides the inherited member
    of the same name and counts only when it is not the empty string;
    every inherited member is truthy. *)
Definition translation_of (translations : list (jsstring * jsstring)) (tag : jsstring)
  : option Translation :=
  match own_property translations tag with
  | Some v => if nonempty v then Some (Own v) else None
  | None =>
      if existsb (str_eqb tag) object_prototype_members then Some (Inherited tag)
      else None
  end.

Definition tag_sections (post : Post) (translations : list (jsstring * jsstring))
  : list TipSection :=
  flat_map (fun categoryName =>
              match categorizedTags post categoryName with
              | [] => []
              | tags => [Tags categoryName
                           (map (fun tag => (tag, translation_of translations tag)) tags)]
              end) categories.

(** The handler after its [await]: the captured [thisTooltipId] is
    compared with the counter, and only the latest request renders. *)
Definition mouseenter_resume (thisTooltipId : N) (post : Post)
    (translations : list (jsstring * jsstring)) (t : Tooltip) : Tooltip :=
  if negb (thisTooltipId =? currentTooltipId t) then t
  else
    {| currentTooltipId := currentTooltipId t;
       tooltip_enabled := tooltip_enabled t;
       language_zh := language_zh t;
       tagsContainer := tagsContainer t ++ tag_sections post translations;
       displayed := true;
       clickHandlers := p_id post :: List.filter (fun i => negb (i =? p_id post)) (clickHandlers t) |}.

(** The handler up to its [await]. The result carries the token of the
    request that is now in flight, if the handler suspended. Without a
    translation request the handler never suspends and renders at
    once. *)
Definition mouseenter (post : Post) (t : Tooltip) : Tooltip * option N :=
  if negb (tooltip_enabled t) then (t, None)
  else
    let thisTooltipId := currentTooltipId t + 1 in
    let t1 :=
      {| currentTooltipId := thisTooltipId;
         tooltip_enabled := tooltip_enabled t;
         language_zh := language_zh t;
         tagsContainer := [Details post];
         displayed := displayed t;
         clickHandlers := clickHandlers t |} in
    if language_zh t && negb (length (allTags post) =? 0)%nat
    then (t1, Some thisTooltipId)
    else (mouseenter_resume thisTooltipId post [] t1, None).

Definition mouseleave (post : Post) (t : Tooltip) : Tooltip :=
  {| currentTooltipId := currentTooltipId t + 1;
     tooltip_enabled := tooltip_enabled t;
     language_zh := language_zh t;
     tagsContainer := tagsContainer t;
     displayed := false;
     clickHandlers := List.filter (fun i => negb (i =? p_id post)) (clickHandlers t) |}.

(** What can happen to the tooltip: the pointer enters or leaves a
    wrapper, a translation request completes (with the translations it
    brought, none on failure) for the handler that captured
    [thisTooltipId], or the settings dialog saves new settings. *)
Inductive Event :=
| MouseEnter (post : Post)
| MouseLeave (post : Post)
| FetchDone (thisTooltipId : N) (post : Post) (translations : list (jsstring * jsstring))
| SaveSettings (enabled zh : bool).

Definition step (t : Tooltip) (e : Event) : Tooltip :=
  match e with
  | MouseEnter post => fst (mouseenter post t)
  | MouseLeave post => mouseleave post t
  | FetchDone thisTooltipId post translations =>
      mouseenter_resume thisTooltipId post translations t
  | SaveSettings enabled zh =>
      {| currentTooltipId := currentTooltipId t;
         tooltip_enabled := enabled;
         language_zh := zh;
         tagsContainer := tagsContainer t;
         displayed := displayed t;
         clickHandlers := clickHandlers t |}
  end.

Definition run (t : Tooltip) (es : list Event) : Tooltip := foldl step t es.

(** An event that makes a hover active or ends one: a [mouseleave], or
    a [mouseenter] that passes the [tooltip_enabled] guard. *)
Definition advances (t : Tooltip) (e : Event) : bool :=
  match e with
  | MouseEnter _ => tooltip_enabled t
  | MouseLeave _ => true
  | _ => false
  end.

End Tip.
(** ** A concrete host, for running the handlers on examples

    A browser in the UTC time zone, on ASCII text, that reads the
    [YYYY-MM-DDTHH:MM] values of [datetime-local] inputs. *)

Definition ascii_lower (s : jsstring) : jsstring :=
  map (fun c => if (65 <=? c) && (c <=? 90) then c + 32 else c) s.

(** The decimal number written by the [n] code units from position [i]. *)
Definition field (s : jsstring) (i n : nat) : option Z :=
  let digits := take n (drop i s) in
  if (length digits =? n)%nat && forallb (fun c => bool_decide (is_Some (digit_of c))) digits
  then Some (digits_value 0 digits)
  else None.

Definition days_in_month (y m : Z) : Z :=
  if (m =? 2)%Z then
    if ((y mod 4 =? 0) && negb (y mod 100 =? 0) || (y mod 400 =? 0))%Z then 29 else 28
  else if ((m =? 4) || (m =? 6) || (m =? 9) || (m =? 11))%Z then 30
  else 31.

(** Days from 1970-01-01 to the civil date [y]-[m]-[d]. *)
Definition days_from_civil (y m d : Z) : Z :=
  let y' := (if m <=? 2 then y - 1 else y)%Z in
  let era := (y' / 400)%Z in
  let yoe := (y' - era * 400)%Z in
  let mp := ((m + 9) mod 12)%Z in
  let doy := ((153 * mp + 2) / 5 + d - 1)%Z in
  let doe := (yoe * 365 + yoe / 4 - yoe / 100 + doy)%Z in
  (era * 146097 + doe - 719468)%Z.

Definition utc_millis (s : jsstring) : option Z :=
  match field s 0 4, field s 5 2, field s 8 2, field s 11 2, field s 14 2 with
  | Some y, Some m, Some d, Some hh, Some mm =>
      if (length s =? 16)%nat
         && bool_decide (s !! 4%nat = Some 45) && bool_decide (s !! 7%nat = Some 45)
         && bool_decide (s !! 10%nat = Some 84) && bool_decide (s !! 13%nat = Some 58)
         && (1 <=? m)%Z && (m <=? 12)%Z && (1 <=? d)%Z && (d <=? days_in_month y m)%Z
         && (hh <? 24)%Z && (mm <? 60)%Z
      then Some (((days_from_civil y m d * 24 + hh) * 60 + mm) * 60000)%Z
      else None
  | _, _, _, _, _ => None
  end.

Definition utc_builtins : Builtins :=
  {| toLowerCase := ascii_lower;
     date_value := utc_millis;
     iso_date := fun s => if utc_millis s is Some _ then Some (take 10 s) else None |}.

(** A post with the given id, image URL and general tags. *)
Definition sample_post (i : N) (url tags : string) : Post :=
  {| p_id := i;
     preview_file_url := Str (lit "https://cdn.example/preview.jpg");
     file_url := Str (lit url);
     large_file_url := Absent;
     file_ext := Absent;
     tag_string := Str (lit tags);
     tag_string_artist := Str [];
     tag_string_copyright := Str [];
     tag_string_character := Str [];
     tag_string_general := Str (lit tags);
     tag_string_meta := Str [] |}.

Definition default_settings : Settings :=
  {| multi_select_enabled := false;
     currentBlacklist := [];
     currentFilterTags := [];
     filterEnabled := true;
     selectedCategories := [copyright; character; general];
     escapeBrackets := true;
     replaceUnderscores := true;
     searchValue := [];
     rating := [] |}.

Definition no_filter : FilterState :=
  {| startTime := Null; endTime := Null; startPage := None |}.

(** The state of a node right after [onNodeCreated]. *)
Definition initial_state : State :=
  {| posts := [];
     originalPostCache := ∅;
     temporaryTagEdits := ∅;
     currentPage := 1;
     isLoading := false;
     filterState := no_filter;
     settings := default_settings;
     imageGrid := [];
     tagHintShown := false;
     refreshLoading := false;
     selection_data := WEmpty;
     selectionCount := None;
     filter_data := no_filter;
     storedFilterData := None;
     filterButtonActive := false;
     toasts := [];
     requests := [] |}.

Definition with_search (q : string) (st : State) : State :=
  set_settings
    {| multi_select_enabled := multi_select_enabled (settings st);
       currentBlacklist := currentBlacklist (settings st);
       currentFilterTags := currentFilterTags (settings st);
       filterEnabled := filterEnabled (settings st);
       selectedCategories := selectedCategories (settings st);
       escapeBrackets := escapeBrackets (settings st);
       replaceUnderscores := replaceUnderscores (settings st);
       searchValue := lit q;
       rating := rating (settings st) |} st.

(** * The rest of the engine *)

(** ** Closing the edit panel: closePanel (lines 2248-2388) *)

(** The commit-or-discard test of [closePanel]: unlike
    [updateEditedStatus] it compares every category and then the flat
    [tag_string]. *)
Definition hasActualEdits (st : State) (postId : N) : bool :=
  match temporaryTagEdits st !! postId, originalPostCache st !! postId with
  | Some postDataToRender, Some originalPost =>
      existsb (fun category =>
                 negb (compareTagStrings (tag_string_of originalPost category)
                         (tag_string_of postDataToRender category))) categories
      || negb (compareTagStrings (tag_string originalPost) (tag_string postDataToRender))
  | _, _ => false
  end.

(** The new wrapper takes the place of the old one, or goes first; with
    no new wrapper the old one is removed. The result carries the
    position of the new wrapper. *)
Definition place_element (newPostElement : option Wrapper) (oldPostElement : option nat)
    (g : list GridItem) : list GridItem * option nat :=
  match newPostElement, oldPostElement with
  | Some w, Some i => (<[i := Item w]> g, Some i)
  | Some w, None => (Item w :: g, Some 0%nat)
  | None, Some i => (delete i g, None)
  | None, None => (g, None)
  end.

Section ClosePanel.
Context `{Builtins}.

(** The second half of [closePanel], from [createPostElement] on: the
    entry [postToUpdate] of [posts] is drawn again in place of the old
    wrapper, the selection is written or cleared, and the indicator of
    the new wrapper is refreshed. *)
Definition closePanel_redraw (post : Post) (wasSelectedOnOpen : bool)
    (postToUpdate : Post) (oldPostElement : option nat) (st : State) : State :=
  let '(st, newPostElement) := createPostElement postToUpdate st in
  let '(grid, newIndex) := place_element newPostElement oldPostElement (imageGrid st) in
  let st := set_imageGrid grid st in
  let st :=
    if wasSelectedOnOpen then
      let st :=
        set_selection_data
          (WSingle (promptOf (settings st) postToUpdate)
             (or_else (file_url postToUpdate) (large_file_url postToUpdate))) st in
      match newIndex with
      | Some i => set_imageGrid
                    (alter (map_wrapper (mark_selected true)) i (imageGrid st)) st
      | None => st
      end
    else
      set_selection_data WEmpty
        (set_imageGrid (map (map_wrapper (mark_selected false)) (imageGrid st)) st) in
  match newIndex with
  | Some i =>
      set_imageGrid
        (alter (map_wrapper (mark_edited (updateEditedStatus st (p_id post))))
           i (imageGrid st)) st
  | None => st
  end.

(** [closePanel(wasSelectedOnOpen)] of the panel opened for [post].
    [None] stands for the [TypeError] of [createPostElement(undefined)],
    thrown when the entry just written to [posts] no longer has the id of
    [post]. *)
Definition closePanel (post : Post) (wasSelectedOnOpen : bool) (st : State)
  : option State :=
  match find_post (p_id post) (posts st) with
  | None => Some st
  | Some currentPostInArray =>
      let st :=
        if hasActualEdits st (p_id post) then
          match temporaryTagEdits st !! p_id post, findIndex (p_id post) (posts st) with
          | Some postDataToRender, Some postIndex =>
              set_posts (<[postIndex := deep_copy postDataToRender]> (posts st)) st
          | _, _ => st
          end
        else set_temporaryTagEdits (delete (p_id post) (temporaryTagEdits st)) st in
      let oldPostElement :=
        find_wrapper (fun w => w_postId w =? p_id post) (imageGrid st) in
      match findIndex (p_id post) (posts st) ≫= (fun postIndex => posts st !! postIndex) with
      | None => None
      | Some postToUpdate =>
          Some (closePanel_redraw post wasSelectedOnOpen postToUpdate oldPostElement st)
      end
  end.

End ClosePanel.

(** ** Editing tags in the panel (lines 2657-2671, 2785-2818) *)

(** [tags.indexOf(tag)] followed by [tags.splice(index, 1)]; [None]
    when the tag is not in the array. *)
Fixpoint remove_first (tag : jsstring) (tags : list jsstring) : option (list jsstring) :=
  match tags with
  | [] => None
  | x :: tags' =>
      if str_eqb x tag then Some tags'
      else match remove_first tag tags' with
           | Some r => Some (x :: r)
           | None => None
           end
  end.

(** The delete entry of the context menu of a tag. *)
Definition deleteTag (category : category) (tag : jsstring) (postData : Post) : Post :=
  if truthy (tag_string_of postData category) then
    let tags := split 32 (str_of (tag_string_of postData category)) in
    match remove_first tag tags with
    | Some tags' => set_tag_string_of category (Str (join [32] tags')) postData
    | None => postData
    end
  else postData.

(** [s.replace(/\s/g, '_')] *)
Definition ws_each_to_underscore (s : jsstring) : jsstring :=
  map (fun c => if is_ws c then 95 else c) s.

(** Enter in the add-tag input, or a pick from its suggestions. *)
Definition addTag (category : category) (input : jsstring) (postData : Post) : Post :=
  let newTag := ws_each_to_underscore (trim input) in
  if nonempty newTag then
    let currentTags :=
      if truthy (tag_string_of postData category)
      then split 32 (str_of (tag_string_of postData category))
      else [] in
    if negb (includes newTag currentTags) then
      set_tag_string_of category (Str (join [32] (currentTags ++ [newTag]))) postData
    else postData
  else postData.

(** An edit [f] made in the panel of post [postId] while its tag spans
    are those of the working copy, as [showEditPanel] draws them: the
    working copy is changed in place and the panel is drawn again, which
    ends by refreshing the indicator of the wrapper. *)
Definition panel_edit (postId : N) (f : Post -> Post) (st : State) : State :=
  refresh_indicator postId postId
    (set_temporaryTagEdits (alter f postId (temporaryTagEdits st)) st).

(** The grid as post ids, status lines left out. *)
Definition grid_post_ids (g : list GridItem) : list N :=
  flat_map (fun it => match it with
                      | Item w => [w_postId w]
                      | _ => []
                      end) g.

(** A token of a tag string: not empty and without white space. *)
Definition is_token (x : jsstring) : Prop := x <> [] /\ ws_free x.

(** ** Filter dialog: resetButton.onclick (lines 1758-1768) *)

Section FilterReset.
Context `{Builtins}.

Definition resetButton_onclick (st : State) : Outcome :=
  let st := set_filterState no_filter st in
  let st := set_storedFilterData (Some no_filter) st in
  let st := set_filter_data no_filter st in
  let st := set_filterButtonActive false st in
  fetchAndRender_begin true st.

End FilterReset.

(** ** Settings dialog: the save handler (lines 1403-1471) *)

(** [text ? text.split('\n').map(tag => tag.trim()).filter(tag => tag) : []]
    for the trimmed value [text] of a textarea. *)
Definition parse_lines (value : jsstring) : list jsstring :=
  let text := trim value in
  if nonempty text then List.filter nonempty (map trim (split 10 text)) else [].

Inductive SaveToast :=
| ToastSaveSuccess
| ToastSaveFailed.

Section SettingsSave.
Context `{Builtins}.

(** The handler from line 1445 on, once the three save requests have
    answered. When all of them succeeded the local settings are
    replaced, the loaded posts are filtered again and redrawn, and a page
    load starts when fewer than twenty remain; otherwise only the failure
    toast is shown. The toast of the dialog is returned beside the
    outcome; the settings the gallery state does not hold (autocomplete,
    tooltip, [uiSettings.selected_categories]) are left out. *)
Definition saveButton_resume (newBlacklist newFilterTags : list jsstring)
    (newFilterEnabled newMultiSelectEnabled : bool)
    (blacklistSuccess filterSuccess authSuccess uiSettingsSuccess : bool)
    (st : State) : SaveToast * Outcome :=
  if blacklistSuccess && filterSuccess && authSuccess && uiSettingsSuccess then
    let st :=
      set_settings
        {| multi_select_enabled := newMultiSelectEnabled;
           currentBlacklist := newBlacklist;
           currentFilterTags := newFilterTags;
           filterEnabled := newFilterEnabled;
           selectedCategories := selectedCategories (settings st);
           escapeBrackets := escapeBrackets (settings st);
           replaceUnderscores := replaceUnderscores (settings st);
           searchValue := searchValue (settings st);
           rating := rating (settings st) |} st in
    let filteredPosts :=
      List.filter (fun post => negb (isPostFiltered (currentBlacklist (settings st)) post))
        (posts st) in
    let st := foldl renderPost (set_imageGrid [] st) filteredPosts in
    (ToastSaveSuccess,
     if (length filteredPosts <? 20)%nat then fetchAndRender_begin false st
     else Returned st)
  else (ToastSaveFailed, Returned st).

End SettingsSave.

(** ** Page loads: where they start *)

(** The page the cursor is set to when a load starts. *)
Definition base_page (reset : bool) (st : State) : Z :=
  if reset then
    match startPage (filterState st) with
    | Some n => if (n =? 0)%Z then 1%Z else n
    | None => 1%Z
    end
  else currentPage st.

Definition base_posts (reset : bool) (st : State) : list Post :=
  if reset then [] else posts st.

(** A post for which [createPostElement] builds a wrapper. *)
Definition renderable (post : Post) : bool :=
  negb (p_id post =? 0) && truthy (preview_file_url post).

Section Loaded.
Context `{Builtins}.

(** The posts a page load pushes to [posts] at lines 2118-2120, [None]
    when the load ends before that step: the probe fails, a filter date
    cannot be formatted, the request fails, the response is not a list,
    or a first page comes back with nothing left after filtering. A
    later page with nothing left gives [Some []]: the step runs, the
    cursor advances and no post is added. *)
Definition loaded_posts (reset isNetworkConnected : bool) (resp : PostsResponse)
    (st : State) : option (list Post) :=
  if isNetworkConnected then
    match search_tags st, resp with
    | Some _, RespList newPosts =>
        let filteredPosts :=
          List.filter (fun post => negb (isPostFiltered (currentBlacklist (settings st)) post))
            newPosts in
        if (length filteredPosts =? 0)%nat && reset then None else Some filteredPosts
    | _, _ => None
    end
  else None.

(** The status line left in the grid by a load that appends nothing. *)
Definition failure_status (isNetworkConnected : bool) (resp : PostsResponse)
    (st : State) : GridItem :=
  if negb isNetworkConnected then ErrorStatus ErrNetwork
  else match search_tags st, resp with
       | None, _ => ErrorStatus ErrInvalidDate
       | Some _, RespNotList => ErrorStatus ErrNotList
       | Some _, RespFailure => ErrorStatus ErrFetch
       | Some _, RespList _ => NoResults
       end.

(** The requests a load sends after the probe. *)
Definition posts_requests (reset isNetworkConnected : bool) (st : State) : list Request :=
  if isNetworkConnected then
    match search_tags st with
    | Some tags => [ReqPosts tags (rating (settings st)) (lit "100") (base_page reset st)]
    | None => []
    end
  else [].

End Loaded.

(** ** Well-formed tags and traces *)

(** A tag as the server names it: not empty, without white space,
    comma, backslash or colon, not starting or ending with an
    underscore and without two underscores in a row. *)
Fixpoint no_double_underscore (s : jsstring) : bool :=
  match s with
  | c :: s' =>
      match s' with
      | d :: _ => negb ((c =? 95) && (d =? 95)) && no_double_underscore s'
      | [] => true
      end
  | [] => true
  end.

Definition plain_char (c : N) : bool :=
  negb (is_ws c) && negb (c =? 44) && negb (c =? 92) && negb (c =? 58).

Definition api_tag (t : jsstring) : bool :=
  nonempty t && forallb plain_char t
  && negb (bool_decide (head t = Some 95)) && negb (bool_decide (last t = Some 95))
  && no_double_underscore t.

(** The two optional formatting steps of the prompt, in their order. *)
Definition format_tag (cfg : Settings) (tag : jsstring) : jsstring :=
  let processedTag := if replaceUnderscores cfg then underscores_to_spaces tag else tag in
  if escapeBrackets cfg then escape_parens processedTag else processedTag.

(** The tokens a post contributes to its prompt before filtering. *)
Definition output_tags (cfg : Settings) (postToUse : Post) : list jsstring :=
  flat_map (fun category => push_split (tag_string_of postToUse category))
    (selectedCategories cfg).

(** A completion is delivered only to a handler that suspended:
    [pending] holds the tokens of the requests in flight. *)
Fixpoint deliverable (pending : list N) (t : Tip.Tooltip) (es : list Tip.Event) : Prop :=
  match es with
  | [] => True
  | e :: es' =>
      match e with
      | Tip.FetchDone thisTooltipId _ _ => thisTooltipId ∈ pending
      | _ => True
      end
      /\ deliverable
           (match e with
            | Tip.MouseEnter post =>
                match snd (Tip.mouseenter post t) with
                | Some thisTooltipId => thisTooltipId :: pending
                | None => pending
                end
            | _ => pending
            end) (Tip.step t e) es'
  end.

(** Nothing in [es] makes another hover active, ends one, or completes
    the request that captured [token]. *)
Fixpoint quiet (token : N) (t : Tip.Tooltip) (es : list Tip.Event) : Prop :=
  match es with
  | [] => True
  | e :: es' =>
      Tip.advances t e = false
      /\ match e with
         | Tip.FetchDone thisTooltipId _ _ => thisTooltipId <> token
         | _ => True
         end
      /\ quiet token (Tip.step t e) es'
  end.

Definition is_mouseenter (e : Tip.Event) : bool :=
  match e with
  | Tip.MouseEnter _ => true
  | _ => false
  end.

(** ** More sample data *)

Definition with_blacklist (blacklist : list string) (st : State) : State :=
  set_settings
    {| multi_select_enabled := multi_select_enabled (settings st);
       currentBlacklist := map lit blacklist;
       currentFilterTags := currentFilterTags (settings st);
       filterEnabled := filterEnabled (settings st);
       selectedCategories := selectedCategories (settings st);
       escapeBrackets := escapeBrackets (settings st);
       replaceUnderscores := replaceUnderscores (settings st);
       searchValue := searchValue (settings st);
       rating := rating (settings st) |} st.

Definition with_multi_select (enabled : bool) (st : State) : State :=
  set_settings
    {| multi_select_enabled := enabled;
       currentBlacklist := currentBlacklist (settings st);
       currentFilterTags := currentFilterTags (settings st);
       filterEnabled := filterEnabled (settings st);
       selectedCategories := selectedCategories (settings st);
       escapeBrackets := escapeBrackets (settings st);
       replaceUnderscores := replaceUnderscores (settings st);
       searchValue := searchValue (settings st);
       rating := rating (settings st) |} st.

(** Three posts, the second tagged [gore]. *)
Definition three_posts : list Post :=
  [sample_post 1 "https://cdn.example/1.png" "1girl smile";
   sample_post 2 "https://cdn.example/2.jpg" "1boy Gore";
   sample_post 3 "https://cdn.example/3.webp" "landscape"].

(** * Properties *)

(** ** The embedding on concrete inputs *)

Example trim_example : trim (lit "  a b  ") = lit "a b".
Proof. reflexivity. Qed.

Example split_example : split 44 (lit "a,,b") = [lit "a"; []; lit "b"].
Proof. reflexivity. Qed.

Example split_empty_example : split 32 [] = [[]].
Proof. reflexivity. Qed.

Example split_ws_example : split_ws (lit "a  b c") = [lit "a"; lit "b"; lit "c"].
Proof. reflexivity. Qed.

Example tag_tokens_example : tag_tokens (lit "  b   a ") = [lit "b"; lit "a"].
Proof. reflexivity. Qed.

Example sort_example : sort [lit "b"; lit "ab"; lit "a"; lit "B"] = [lit "B"; lit "a"; lit "ab"; lit "b"].
Proof. reflexivity. Qed.

Example compareTagStrings_example :
  compareTagStrings (Str (lit "b  a c")) (Str (lit " c b a")) = true
  /\ compareTagStrings (Str (lit "a b")) (Str (lit "a b b")) = false.
Proof. by vm_compute. Qed.

Example url_extension_example :
  url_extension (lit "https://cdn.example/a.b/x.jpg?download=1") = Some (lit "jpg")
  /\ url_extension (lit "https://localhost/x.") = None
  /\ url_extension (lit "https://localhost/x") = None.
Proof. by vm_compute. Qed.

Example convertTagsToApiFormat_example :
  convertTagsToApiFormat (lit "long hair, smile \(happy\) , order:rank,") = lit "long_hair smile_(happy) order:rank".
Proof. by vm_compute. Qed.

Example parseInt10_example :
  parseInt10 (lit " 12px") = Some 12%Z
  /\ parseInt10 (lit "-0.5") = Some 0%Z
  /\ parseInt10 (lit "-.5") = None
  /\ parseInt10 [] = None.
Proof. by vm_compute. Qed.

Example utc_millis_example : utc_millis (lit "1970-01-02T00:01") = Some 86460000%Z.
Proof. by vm_compute. Qed.

(** ** The sort order and the sort *)

Lemma str_leb_refl a : str_leb a a = true.
Proof.
  induction a as [|x a IH]; simpl; [done|].
  by rewrite N.ltb_irrefl.
Qed.

Lemma str_leb_total a b : str_leb a b = false -> str_leb b a = true.
Proof.
  revert b. induction a as [|x a IH]; intros [|y b]; simpl; try done.
  destruct (x <? y) eqn:Hxy; [done|].
  destruct (y <? x) eqn:Hyx; [done|]. apply IH.
Qed.

Lemma str_leb_antisym a b : str_leb a b = true -> str_leb b a = true -> a = b.
Proof.
  revert b. induction a as [|x a IH]; intros [|y b]; simpl; try done.
  destruct (x <? y) eqn:Hxy, (y <? x) eqn:Hyx; try done.
  - apply N.ltb_lt in Hxy, Hyx. lia.
  - intros Hab Hba. apply N.ltb_ge in Hxy, Hyx.
    f_equal; [lia | by apply IH].
Qed.

Lemma str_leb_trans a b c :
  str_leb a b = true -> str_leb b c = true -> str_leb a c = true.
Proof.
  revert b c. induction a as [|x a IH]; intros [|y b] [|z c]; simpl; try done.
  intros Hab Hbc.
  repeat case_match; try done;
    repeat match goal with
           | H : (_ <? _) = true |- _ => apply N.ltb_lt in H
           | H : (_ <? _) = false |- _ => apply N.ltb_ge in H
           end; try lia.
  by eapply IH.
Qed.

Lemma insert_sorted_comm x y l :
  insert_sorted x (insert_sorted y l) = insert_sorted y (insert_sorted x l).
Proof.
  induction l as [|h t IH]; simpl.
  - destruct (str_leb x y) eqn:Hxy, (str_leb y x) eqn:Hyx; try done.
    + by rewrite (str_leb_antisym _ _ Hxy Hyx).
    + apply str_leb_total in Hxy. congruence.
  - destruct (str_leb y h) eqn:Hyh, (str_leb x h) eqn:Hxh; simpl;
      rewrite ?Hyh, ?Hxh.
    + destruct (str_leb x y) eqn:Hxy, (str_leb y x) eqn:Hyx; try done.
      * by rewrite (str_leb_antisym _ _ Hxy Hyx).
      * apply str_leb_total in Hxy. congruence.
    + destruct (str_leb x y) eqn:Hxy; [|done].
      rewrite (str_leb_trans _ _ _ Hxy Hyh) in Hxh. done.
    + destruct (str_leb y x) eqn:Hyx; [|done].
      rewrite (str_leb_trans _ _ _ Hyx Hxh) in Hyh. done.
    + by rewrite IH.
Qed.

Lemma sort_perm l l' : l ≡ₚ l' -> sort l = sort l'.
Proof.
  induction 1 as [|x l l' _ IH|x y l|l l' l'' _ IH1 _ IH2]; simpl.
  - done.
  - by rewrite IH.
  - apply insert_sorted_comm.
  - congruence.
Qed.

Lemma insert_sorted_length x l : length (insert_sorted x l) = S (length l).
Proof.
  induction l as [|h t IH]; simpl; [done|].
  destruct (str_leb x h); simpl; [done | by rewrite IH].
Qed.

Lemma sort_length l : length (sort l) = length l.
Proof.
  induction l as [|x l IH]; simpl; [done|].
  by rewrite insert_sorted_length, IH.
Qed.

Lemma every_self_from (pre l : list jsstring) :
  every_from (fun tag index =>
                match (pre ++ l) !! index with
                | Some t => str_eqb tag t
                | None => false
                end) (length pre) l = true.
Proof.
  revert pre. induction l as [|x l IH]; intros pre; simpl; [done|].
  rewrite list_lookup_middle by done.
  unfold str_eqb at 1. rewrite bool_decide_eq_true_2 by done. simpl.
  specialize (IH (pre ++ [x])).
  replace ((pre ++ [x]) ++ l) with (pre ++ x :: l) in IH
    by (by rewrite <- app_assoc).
  replace (length (pre ++ [x])) with (S (length pre)) in IH
    by (rewrite length_app; simpl; lia).
  done.
Qed.

Lemma compareTagStrings_refl v : compareTagStrings v v = true.
Proof.
  unfold compareTagStrings.
  destruct (truthy v); simpl; [|done].
  rewrite Nat.eqb_refl. simpl.
  apply (every_self_from []).
Qed.

(** ** White space and tokens *)

Lemma drop_ws_blank s : blank s -> drop_ws s = [].
Proof. induction 1 as [|c s Hc _ IH]; simpl; [done | by rewrite Hc]. Qed.

Lemma trim_blank s : blank s -> trim s = [].
Proof. intros Hs. unfold trim. by rewrite (drop_ws_blank s Hs). Qed.

Lemma tag_tokens_blank s : blank s -> tag_tokens s = [].
Proof. intros Hs. unfold tag_tokens. by rewrite (trim_blank s Hs). Qed.

(** null, undefined and the empty string compare equal to each other. *)
Lemma compareTagStrings_falsy a b :
  truthy a = false -> truthy b = false -> compareTagStrings a b = true.
Proof. intros Ha Hb. unfold compareTagStrings. by rewrite Ha, Hb. Qed.

(** White-space-only strings compare equal to each other. *)
Lemma compareTagStrings_blank s s' :
  blank s -> blank s' -> s <> [] -> s' <> [] ->
  compareTagStrings (Str s) (Str s') = true.
Proof.
  intros Hs Hs' Hn Hn'. unfold compareTagStrings. simpl.
  destruct s; [done|]. destruct s'; [done|]. simpl.
  rewrite (tag_tokens_blank _ Hs), (tag_tokens_blank _ Hs'). done.
Qed.

(** Neither compares equal to a string that holds a token. *)
Lemma compareTagStrings_no_token_vs_token v t :
  (truthy v = false \/ blank (str_of v)) -> tag_tokens t <> [] ->
  compareTagStrings v (Str t) = false.
Proof.
  intros Hv Ht. unfold compareTagStrings.
  destruct (truthy v) eqn:Hv'; simpl.
  - destruct Hv as [|Hv]; [done|].
    destruct (nonempty t); simpl; [|done].
    rewrite (tag_tokens_blank _ Hv). simpl.
    rewrite sort_length. destruct (tag_tokens t); done.
  - destruct (nonempty t) eqn:Hne; simpl; [done|].
    destruct t; [|done]. by vm_compute in Ht.
Qed.

(** C5 (as the code has it): the empty string, and null, do not
    compare equal to a white-space-only string, although none of them
    holds a token; the early return on a falsy argument is taken before
    the strings are trimmed and split. *)
Theorem compareTagStrings_empty_vs_blank :
  compareTagStrings (Str []) (Str (lit " ")) = false
  /\ compareTagStrings Null (Str (lit " ")) = false
  /\ compareTagStrings (Str (lit " ")) (Str (lit "  ")) = true
  /\ compareTagStrings Null (Str []) = true
  /\ tag_tokens [] = tag_tokens (lit " ").
Proof. by vm_compute. Qed.

(** ** Tokens of a joined list *)

Lemma drop_ws_split s : exists w, blank w /\ s = w ++ drop_ws s.
Proof.
  induction s as [|c s (w & Hw & IH)]; simpl.
  - exists []. split; [constructor | done].
  - destruct (is_ws c) eqn:Hc.
    + exists (c :: w). split; [by constructor | simpl; by f_equal].
    + exists []. split; [constructor | done].
Qed.

Lemma trim_end_split s : exists w, blank w /\ s = rev (drop_ws (rev s)) ++ w.
Proof.
  destruct (drop_ws_split (rev s)) as (w & Hw & Hs).
  exists (rev w). split.
  - unfold blank in *. by apply Forall_rev.
  - rewrite <- rev_app_distr, <- Hs. by rewrite rev_involutive.
Qed.

Lemma tokens_drop_ws s b b' :
  List.filter nonempty (split_ws_go [] b (drop_ws s))
  = List.filter nonempty (split_ws_go [] b' s).
Proof.
  revert b b'. induction s as [|c s IH]; intros b b'; simpl.
  - done.
  - destruct (is_ws c) eqn:Hc; simpl.
    + destruct b'; simpl; apply IH.
    + by rewrite Hc.
Qed.

Lemma tokens_blank_suffix s w cur b :
  blank w ->
  List.filter nonempty (split_ws_go cur b (s ++ w))
  = List.filter nonempty (split_ws_go cur b s).
Proof.
  intros Hw. revert cur b. induction s as [|c s IH]; intros cur b; simpl.
  - revert cur b. induction Hw as [|c w Hc _ IHw]; intros cur b; simpl; [done|].
    rewrite Hc. destruct b.
    + apply IHw.
    + simpl. destruct (nonempty (rev cur)); simpl; by rewrite (IHw [] true).
  - destruct (is_ws c); [destruct b|]; simpl; by rewrite ?IH.
Qed.

(** Trimming first does not change the tokens. *)
Lemma tag_tokens_untrimmed s : tag_tokens s = List.filter nonempty (split_ws s).
Proof.
  unfold tag_tokens, trim, split_ws.
  destruct (trim_end_split (drop_ws s)) as (w & Hw & Hs).
  rewrite <- (tokens_blank_suffix _ w [] false Hw), <- Hs.
  apply tokens_drop_ws.
Qed.

Lemma split_ws_go_token x rest cur b :
  ws_free x ->
  split_ws_go cur b (x ++ rest)
  = split_ws_go (rev x ++ cur) (if x is [] then b else false) rest.
Proof.
  intros Hx. revert cur b. induction Hx as [|c x Hc _ IH]; intros cur b; simpl.
  - done.
  - rewrite Hc, IH, <- app_assoc. simpl. by destruct x.
Qed.

Lemma tokens_join l b :
  Forall ws_free l ->
  List.filter nonempty (split_ws_go [] b (join [32] l)) = List.filter nonempty l.
Proof.
  intros Hl. revert b. induction Hl as [|x l Hx Hl IH]; intros b; [done|].
  destruct l as [|y l].
  - simpl. rewrite <- (app_nil_r x) at 1.
    rewrite (split_ws_go_token x [] [] b Hx). simpl.
    by rewrite app_nil_r, rev_involutive.
  - change (join [32] (x :: y :: l)) with (x ++ 32 :: join [32] (y :: l)).
    rewrite (split_ws_go_token x _ [] b Hx), app_nil_r.
    destruct x as [|c x].
    + change (List.filter nonempty ([] :: y :: l)) with (List.filter nonempty (y :: l)).
      rewrite <- (IH true). by destruct b.
    + change (List.filter nonempty ((c :: x) :: y :: l))
        with ((c :: x) :: List.filter nonempty (y :: l)).
      rewrite <- (IH true).
      cbn [split_ws_go]. change (is_ws 32) with true. cbv iota.
      rewrite rev_involutive. done.
Qed.

Lemma tag_tokens_join l : Forall ws_free l -> tag_tokens (join [32] l) = List.filter nonempty l.
Proof. intros Hl. rewrite tag_tokens_untrimmed. by apply tokens_join. Qed.

Lemma join_nonempty_perm l l' :
  l ≡ₚ l' -> nonempty (join [32] l) = nonempty (join [32] l').
Proof.
  intros Hp. pose proof (Permutation_length Hp) as Hlen.
  destruct l as [|x [|y l]].
  - apply Permutation_nil_l in Hp. by subst.
  - apply Permutation_singleton_l in Hp. by subst.
  - destruct l' as [|x' [|y' l']]; simpl in Hlen; try lia.
    change (join [32] (x :: y :: l)) with (x ++ 32 :: join [32] (y :: l)).
    change (join [32] (x' :: y' :: l')) with (x' ++ 32 :: join [32] (y' :: l')).
    by destruct x, x'.
Qed.

(** Re-joining the tokens of a tag string in another order gives a
    string with the same tokens, up to order, that is empty exactly when
    the first is. *)
Lemma join_reorder l l' :
  Forall ws_free l -> l ≡ₚ l' ->
  nonempty (join [32] l) = nonempty (join [32] l')
  /\ tag_tokens (join [32] l) ≡ₚ tag_tokens (join [32] l').
Proof.
  intros Hl Hp. split; [by apply join_nonempty_perm|].
  assert (Forall ws_free l') as Hl' by (by rewrite <- Hp).
  rewrite !tag_tokens_join by done.
  clear Hl Hl'. induction Hp as [|x l l' _ IH|x y l|l l' l'' _ IH1 _ IH2]; simpl.
  - done.
  - destruct (nonempty x); [by constructor | done].
  - destruct (nonempty x), (nonempty y); try done. apply perm_swap.
  - by etrans.
Qed.

(** ** Order independence of the diff *)

Lemma compareTagStrings_perm o s s' :
  nonempty s = nonempty s' -> tag_tokens s ≡ₚ tag_tokens s' ->
  compareTagStrings o (Str s) = compareTagStrings o (Str s').
Proof.
  intros Hne Hp. unfold compareTagStrings. simpl.
  by rewrite Hne, (sort_perm _ _ Hp).
Qed.

Lemma tag_string_of_set c v e cat :
  tag_string_of (set_tag_string_of c v e) cat
  = if bool_decide (cat = c) then v else tag_string_of e cat.
Proof. by destruct c, cat. Qed.

(** C7: reordering the tokens of one category string of the working
    copy does not change the edited status. [s'] is any string whose
    tokens are those of [s] in another order; like [s], it is empty or
    not (see [join_reorder] for strings joined from a token list). *)
Theorem updateEditedStatus_order_independent
    (st : State) (postId : N) (e : Post) (c : category) (s s' : jsstring) :
  temporaryTagEdits st !! postId = Some e ->
  tag_string_of e c = Str s ->
  tag_tokens s ≡ₚ tag_tokens s' ->
  nonempty s = nonempty s' ->
  updateEditedStatus
    (set_temporaryTagEdits
       (<[postId := set_tag_string_of c (Str s') e]> (temporaryTagEdits st)) st)
    postId
  = updateEditedStatus st postId.
Proof.
  intros He Hs Hp Hne. unfold updateEditedStatus.
  cbn [set_temporaryTagEdits temporaryTagEdits originalPostCache].
  rewrite lookup_insert_eq, He.
  destruct (originalPostCache st !! postId) as [o|]; [|done].
  assert (forall cat, has_own (tag_string_of (set_tag_string_of c (Str s') e) cat)
                      = has_own (tag_string_of e cat)) as Hown.
  { intros cat. rewrite tag_string_of_set. case_bool_decide; [subst|done].
    by rewrite Hs. }
  assert (forall cat,
             compareTagStrings (tag_string_of o cat)
               (tag_string_of (set_tag_string_of c (Str s') e) cat)
             = compareTagStrings (tag_string_of o cat) (tag_string_of e cat)) as Hcmp.
  { intros cat. rewrite tag_string_of_set. case_bool_decide; [subst|done].
    rewrite Hs. symmetry. by apply compareTagStrings_perm. }
  unfold categories. cbn [existsb]. rewrite !Hown, !Hcmp.
  replace (tag_string (set_tag_string_of c (Str s') e)) with (tag_string e)
    by (by destruct c).
  done.
Qed.

Lemma updateEditedStatus_order_independent_witness :
  let e := sample_post 7 "https://cdn.example/7.png" "b a" in
  let st := set_temporaryTagEdits {[7 := e]}
              (set_originalPostCache {[7 := sample_post 7 "https://cdn.example/7.png" "a b"]}
                 initial_state) in
  updateEditedStatus
    (set_temporaryTagEdits
       (<[7 := set_tag_string_of general (Str (lit "a b")) e]> (temporaryTagEdits st)) st)
    7
  = updateEditedStatus st 7.
Proof.
  intros e st.
  apply (updateEditedStatus_order_independent st 7 e general (lit "b a") (lit "a b")).
  - apply lookup_singleton_eq.
  - reflexivity.
  - vm_compute. apply perm_swap.
  - reflexivity.
Defined.

(** ** Reset to the original snapshot *)

Lemma copy_val_id v : copy_val v = v.
Proof. by destruct v. Qed.

Lemma deep_copy_id p : deep_copy p = p.
Proof. destruct p. unfold deep_copy. simpl. by rewrite !copy_val_id. Qed.

Lemma updateEditedStatus_no_copy st postId :
  temporaryTagEdits st !! postId = None -> updateEditedStatus st postId = false.
Proof. intros Hn. unfold updateEditedStatus. by rewrite Hn. Qed.

Lemma updateEditedStatus_grid st g postId :
  updateEditedStatus (set_imageGrid g st) postId = updateEditedStatus st postId.
Proof. done. Qed.

Lemma refresh_indicator_frame selector postId st :
  posts (refresh_indicator selector postId st) = posts st
  /\ temporaryTagEdits (refresh_indicator selector postId st) = temporaryTagEdits st
  /\ originalPostCache (refresh_indicator selector postId st) = originalPostCache st.
Proof. unfold refresh_indicator. by case_match. Qed.

Lemma findIndex_from_first postId k before cur after :
  Forall (fun p => p_id p <> postId) before -> p_id cur = postId ->
  findIndex_from postId k (before ++ cur :: after) = Some (k + length before)%nat.
Proof.
  intros Hb Hc. revert k. induction Hb as [|p before Hp Hb IH]; intros k; simpl.
  - rewrite (proj2 (N.eqb_eq _ _) Hc). f_equal. lia.
  - rewrite (proj2 (N.eqb_neq _ _) Hp), IH. f_equal. lia.
Qed.

Lemma findIndex_from_absent postId k l :
  Forall (fun p => p_id p <> postId) l -> findIndex_from postId k l = None.
Proof.
  intros Hl. revert k. induction Hl as [|p l Hp Hl IH]; intros k; simpl; [done|].
  by rewrite (proj2 (N.eqb_neq _ _) Hp).
Qed.

Section ResetProperties.
Context `{Builtins}.

(** C6: when the original snapshot of the post is cached, the reset
    handler returns without suspending, and in the state it leaves the
    edited status of the post is false and the working copy is gone;
    the first entry of [posts] with the id of the post is replaced by a
    deep copy of the snapshot and every other entry is kept ([posts] is
    unchanged when no entry has that id); the snapshot cache is
    untouched. *)
Theorem resetTags_clears_edited_status (post originalPostData : Post) (st : State) :
  originalPostCache st !! p_id post = Some originalPostData ->
  exists st',
    resetTags_begin post st = Returned st'
    /\ updateEditedStatus st' (p_id post) = false
    /\ temporaryTagEdits st' !! p_id post = None
    /\ (forall before cur after,
          posts st = before ++ cur :: after ->
          Forall (fun p => p_id p <> p_id post) before -> p_id cur = p_id post ->
          posts st' = before ++ deep_copy originalPostData :: after)
    /\ (Forall (fun p => p_id p <> p_id post) (posts st) -> posts st' = posts st)
    /\ originalPostCache st' = originalPostCache st.
Proof.
  intros Ho. unfold resetTags_begin. rewrite Ho.
  eexists. split; [reflexivity|].
  set (st1 := set_temporaryTagEdits _ _).
  destruct (refresh_indicator_frame (p_id post) (p_id originalPostData) st1)
    as (Hp & Ht & Hc).
  assert (temporaryTagEdits (refresh_indicator (p_id post) (p_id originalPostData) st1)
          !! p_id post = None) as Hnone.
  { rewrite Ht. subst st1. cbn [set_temporaryTagEdits temporaryTagEdits].
    apply lookup_delete_eq. }
  split; [|split; [|split; [|split]]].
  - apply updateEditedStatus_no_copy. exact Hnone.
  - exact Hnone.
  - intros before cur after Hposts Hbefore Hcur.
    cbn [set_toasts set_selection_data posts]. rewrite Hp. subst st1.
    cbn [set_temporaryTagEdits set_posts posts]. unfold findIndex.
    rewrite Hposts, (findIndex_from_first _ 0 before cur after Hbefore Hcur).
    cbn [Nat.add]. rewrite insert_app_r_alt by lia.
    by rewrite Nat.sub_diag.
  - intros Habsent.
    cbn [set_toasts set_selection_data posts]. rewrite Hp. subst st1.
    cbn [set_temporaryTagEdits set_posts posts]. unfold findIndex.
    by rewrite (findIndex_from_absent _ 0 _ Habsent).
  - cbn [set_toasts set_selection_data originalPostCache]. rewrite Hc. done.
Qed.

End ResetProperties.

Lemma resetTags_clears_edited_status_witness :
  let other := sample_post 5 "https://cdn.example/5.png" "x" in
  let post := sample_post 7 "https://cdn.example/7.png" "b c" in
  let original := sample_post 7 "https://cdn.example/7.png" "a b" in
  let st := set_posts [other; post; other]
              (set_temporaryTagEdits {[7 := post]}
                 (set_originalPostCache {[7 := original]} initial_state)) in
  updateEditedStatus st 7 = true
  /\ exists st',
      @resetTags_begin utc_builtins post st = Returned st'
      /\ updateEditedStatus st' (p_id post) = false
      /\ temporaryTagEdits st' !! p_id post = None
      /\ posts st' = [other; original; other]
      /\ originalPostCache st' = originalPostCache st.
Proof.
  intros other post original st. split; [by vm_compute|].
  destruct (@resetTags_clears_edited_status utc_builtins post original st)
    as (st' & Hr & He & Ht & Hp & _ & Hc); [apply lookup_singleton_eq|].
  exists st'. split; [exact Hr|]. split; [exact He|]. split; [exact Ht|].
  split; [|exact Hc].
  apply (Hp [other] post [other]); [reflexivity| |reflexivity].
  repeat constructor. by vm_compute.
Defined.

(** ** Creating the working copy *)

Lemma diff_equal_refl p : diff_equal p p.
Proof. split; intros; apply compareTagStrings_refl. Qed.

Lemma diff_equal_status st postId original edited :
  originalPostCache st !! postId = Some original ->
  temporaryTagEdits st !! postId = Some edited ->
  diff_equal original edited ->
  updateEditedStatus st postId = false.
Proof.
  intros Ho He [Hc Hf]. unfold updateEditedStatus. rewrite Ho, He.
  unfold categories. cbn [existsb]. rewrite !Hc, Hf. simpl.
  by case_match.
Qed.

(** C8: a second call of get-or-create for the same post changes
    nothing, so the working copy and the edited status are those left
    by the first call; and when the first call had to create the copy
    from a cache entry that is diff-equal to the snapshot, that status is
    false. *)
Theorem getOrCreateWorkingCopy_idempotent (post : Post) (st : State) :
  let st1 := getOrCreateWorkingCopy post st in
  let st2 := getOrCreateWorkingCopy post st1 in
  st2 = st1
  /\ temporaryTagEdits st2 !! p_id post = temporaryTagEdits st1 !! p_id post
  /\ updateEditedStatus st2 (p_id post) = updateEditedStatus st1 (p_id post)
  /\ (temporaryTagEdits st !! p_id post = None ->
      (forall original, originalPostCache st !! p_id post = Some original ->
                        diff_equal original post) ->
      updateEditedStatus st2 (p_id post) = false).
Proof.
  intros st1 st2.
  assert (st2 = st1) as Heq.
  { subst st1 st2. unfold getOrCreateWorkingCopy at 1.
    destruct (temporaryTagEdits (getOrCreateWorkingCopy post st) !! p_id post) eqn:Hl;
      [done|].
    unfold getOrCreateWorkingCopy in Hl.
    destruct (temporaryTagEdits st !! p_id post) eqn:Hl0; [congruence|].
    cbn [set_temporaryTagEdits temporaryTagEdits] in Hl.
    by rewrite lookup_insert_eq in Hl. }
  rewrite Heq. split; [done|]. split; [done|]. split; [done|].
  intros Hnone Hdiff. subst st1. unfold getOrCreateWorkingCopy. rewrite Hnone.
  destruct (originalPostCache st !! p_id post) as [original|] eqn:Ho.
  - eapply diff_equal_status.
    + exact Ho.
    + cbn [set_temporaryTagEdits temporaryTagEdits]. apply lookup_insert_eq.
    + rewrite deep_copy_id. by apply Hdiff.
  - unfold updateEditedStatus.
    cbn [set_temporaryTagEdits temporaryTagEdits originalPostCache].
    by rewrite lookup_insert_eq, Ho.
Qed.

Lemma getOrCreateWorkingCopy_idempotent_witness :
  let post := sample_post 7 "https://cdn.example/7.png" "a b" in
  let st := fst (createPostElement post initial_state) in
  let st2 := getOrCreateWorkingCopy post (getOrCreateWorkingCopy post st) in
  temporaryTagEdits st !! p_id post = None
  /\ originalPostCache st !! p_id post = Some post
  /\ temporaryTagEdits st2 !! p_id post = Some post
  /\ updateEditedStatus st2 (p_id post) = false.
Proof.
  intros post st st2.
  destruct (getOrCreateWorkingCopy_idempotent post st) as (Heq & _ & _ & Hfalse).
  split; [done|]. split; [by vm_compute|]. split; [by vm_compute|].
  apply Hfalse; [done|].
  intros original Ho. vm_compute in Ho. injection Ho as <-.
  apply diff_equal_refl.
Defined.

(** ** Pagination *)

Lemma renderPost_posts st post : posts (renderPost st post) = posts st.
Proof.
  unfold renderPost, createPostElement.
  repeat case_match; simplify_eq; done.
Qed.

Lemma foldl_renderPost_posts l st : posts (foldl renderPost st l) = posts st.
Proof.
  revert st. induction l as [|p l IH]; intros st; simpl; [done|].
  by rewrite IH, renderPost_posts.
Qed.


Section PaginationProperties.
Context `{Builtins}.

(** C3: while [isLoading] is set, a call of the page-load handler
    returns at its first statement: the whole state, and with it the
    list of requests sent, the posts, the page cursor and the filter
    state, is what it was. *)
Theorem fetchAndRender_while_loading (reset : bool) (st : State) :
  isLoading st = true ->
  fetchAndRender_begin reset st = Returned st
  /\ forall isNetworkConnected resp,
      let st' := fetchAndRender reset isNetworkConnected resp st in
      st' = st
      /\ requests st' = requests st
      /\ posts st' = posts st
      /\ currentPage st' = currentPage st
      /\ filterState st' = filterState st.
Proof.
  intros Hl.
  assert (fetchAndRender_begin reset st = Returned st) as Hb.
  { unfold fetchAndRender_begin. by rewrite Hl. }
  split; [done|]. intros c resp. unfold fetchAndRender. by rewrite Hb.
Qed.



(** C10: a post with no usable [file_ext] whose [file_url] is missing or
    yields no extension is not a valid image type, is filtered whatever
    the blacklist, and is never appended to [posts] by a page load. *)
Theorem isValidImageType_default_deny (post : Post) :
  truthy (file_ext post) = false ->
  (truthy (file_url post) = false
   \/ url_extension (toLowerCase (str_of (file_url post))) = None) ->
  isValidImageType post = false
  /\ (forall currentBlacklist, isPostFiltered currentBlacklist post = true)
  /\ (forall reset resp st,
        post ∈ posts (fetchAndRender_response reset resp st) -> post ∈ posts st)
  /\ (forall reset isNetworkConnected resp st,
        post ∈ posts (fetchAndRender reset isNetworkConnected resp st) -> post ∈ posts st).
Proof.
  intros Hext Hurl.
  assert (isValidImageType post = false) as Hv.
  { unfold isValidImageType. rewrite Hext.
    destruct Hurl as [Hu|Hu]; [by rewrite Hu|].
    rewrite Hu. by destruct (truthy (file_url post)). }
  assert (forall bl, isPostFiltered bl post = true) as Hf.
  { intros bl. unfold isPostFiltered. by rewrite Hv. }
  assert (forall reset resp st,
             post ∈ posts (fetchAndRender_response reset resp st) -> post ∈ posts st)
    as Hresp.
  { intros reset resp st. unfold fetchAndRender_response.
    destruct resp as [newPosts| |]; [|done|done].
    case_match; [done|].
    cbn [fetch_finally set_imageGrid set_refreshLoading set_isLoading posts].
    rewrite foldl_renderPost_posts. cbn [set_posts posts].
    rewrite elem_of_app. intros [Hin|Hin]; [done|].
    apply list_elem_of_In, filter_In in Hin as [_ Hin].
    by rewrite Hf in Hin. }
  split; [done|]. split; [done|]. split; [done|].
  intros reset c resp st. unfold fetchAndRender.
  destruct (fetchAndRender_begin reset st) as [st1|st1] eqn:Hb.
  - unfold fetchAndRender_begin in Hb. destruct (isLoading st); by simplify_eq.
  - assert (forall p, p ∈ posts st1 -> p ∈ posts st) as Hsub.
    { unfold fetchAndRender_begin in Hb. destruct (isLoading st); [done|].
      simplify_eq. intros p. repeat case_match; simpl; try done; set_solver. }
    destruct (fetchAndRender_checked c st1) as [st2|st2] eqn:Hc.
    + unfold fetchAndRender_checked in Hc.
      repeat case_match; simplify_eq; intros Hin; by apply Hsub.
    + unfold fetchAndRender_checked in Hc.
      repeat case_match; simplify_eq. intros Hin. apply Hresp in Hin.
      by apply Hsub.
Qed.

End PaginationProperties.

Lemma fetchAndRender_while_loading_witness :
  let st := set_isLoading true (with_search "1girl, solo" initial_state) in
  fetchAndRender_begin true st = Returned st
  /\ forall isNetworkConnected resp,
      let st' := @fetchAndRender utc_builtins true isNetworkConnected resp st in
      st' = st
      /\ requests st' = requests st
      /\ posts st' = posts st
      /\ currentPage st' = currentPage st
      /\ filterState st' = filterState st.
Proof.
  intros st. apply (@fetchAndRender_while_loading utc_builtins true st). reflexivity.
Defined.



Lemma isValidImageType_default_deny_witness :
  let post := {| p_id := 9;
                 preview_file_url := Str (lit "https://localhost/preview");
                 file_url := Str (lit "https://localhost/image");
                 large_file_url := Absent;
                 file_ext := Absent;
                 tag_string := Str (lit "1girl");
                 tag_string_artist := Absent;
                 tag_string_copyright := Absent;
                 tag_string_character := Absent;
                 tag_string_general := Absent;
                 tag_string_meta := Absent |} in
  @isValidImageType utc_builtins post = false
  /\ @isPostFiltered utc_builtins [] post = true
  /\ posts (@fetchAndRender utc_builtins true true (RespList [post]) initial_state) = [].
Proof.
  intros post.
  destruct (@isValidImageType_default_deny utc_builtins post) as (Hv & Hf & _ & _).
  - reflexivity.
  - right. reflexivity.
  - split; [exact Hv|]. split; [apply Hf|]. by vm_compute.
Defined.

(** ** Filter dialog *)

Lemma parseInt10_some_nonempty s n : parseInt10 s = Some n -> nonempty s = true.
Proof. by destruct s. Qed.

Section FilterProperties.
Context `{Builtins}.

(** C9: when the time range has both ends and the end is before the
    start, or when the start page reads as an integer that is not
    positive, [applyButton.onclick] shows the validation message and
    returns: apart from the message, the state is unchanged, in
    particular the filter state, its stored copies and the requests
    sent. *)
Theorem applyButton_rejects_invalid (dlg : FilterDialog) (st : State) :
  (selectedType dlg = ByTime
   /\ nonempty (startTimeInput dlg) = true /\ nonempty (endTimeInput dlg) = true
   /\ exists a b, date_value (startTimeInput dlg) = Some a
                  /\ date_value (endTimeInput dlg) = Some b /\ (b < a)%Z)
  \/ (selectedType dlg = ByPage
      /\ exists n, parseInt10 (startPageInput dlg) = Some n /\ (n <= 0)%Z) ->
  exists message st',
    applyButton_onclick dlg st = Rejected st'
    /\ st' = set_toasts (toasts st ++ [message]) st
    /\ filterState st' = filterState st
    /\ filter_data st' = filter_data st
    /\ storedFilterData st' = storedFilterData st
    /\ requests st' = requests st.
Proof.
  intros [(Ht & Hs & He & a & b & Ha & Hb & Hlt) | (Ht & n & Hn & Hle)];
    unfold applyButton_onclick; rewrite Ht.
  - exists ToastEndBeforeStart. eexists. split; [|done].
    unfold date_gt. rewrite Hs, He, Ha, Hb. simpl.
    by rewrite (proj2 (Z.ltb_lt b a) Hlt).
  - exists ToastBadStartPage. eexists. split; [|done].
    rewrite (parseInt10_some_nonempty _ _ Hn), Hn. simpl.
    by rewrite (proj2 (Z.ltb_lt n 1)) by lia.
Qed.

End FilterProperties.

Lemma applyButton_rejects_invalid_witness :
  let by_time := {| selectedType := ByTime;
                    startTimeInput := lit "2024-03-01T10:00";
                    endTimeInput := lit "2024-02-29T23:59";
                    startPageInput := [] |} in
  let by_page := {| selectedType := ByPage;
                    startTimeInput := [];
                    endTimeInput := [];
                    startPageInput := lit "-3" |} in
  @applyButton_onclick utc_builtins by_time initial_state
  = Rejected (set_toasts [ToastEndBeforeStart] initial_state)
  /\ @applyButton_onclick utc_builtins by_page initial_state
     = Rejected (set_toasts [ToastBadStartPage] initial_state).
Proof.
  intros by_time by_page. split.
  - destruct (@applyButton_rejects_invalid utc_builtins by_time initial_state)
      as (message & st' & Hr & _).
    + left. split; [reflexivity|]. split; [reflexivity|]. split; [reflexivity|].
      eexists. eexists. split; [by vm_compute|]. split; [by vm_compute|]. lia.
    + rewrite Hr. vm_compute in Hr. injection Hr as <-. reflexivity.
  - destruct (@applyButton_rejects_invalid utc_builtins by_page initial_state)
      as (message & st' & Hr & _).
    + right. split; [reflexivity|]. exists (-3)%Z. split; [by vm_compute | lia].
    + rewrite Hr. vm_compute in Hr. injection Hr as <-. reflexivity.
Defined.

(** ** Selection *)

Lemma selected_wrappers_cons it g :
  selected_wrappers (it :: g)
  = match it with
    | Item w => if w_selected w then [w] else []
    | _ => []
    end ++ selected_wrappers g.
Proof. done. Qed.

Lemma selected_wrappers_deselected (f : nat -> GridItem -> GridItem) g :
  (forall j it, f j it = map_wrapper (mark_selected false) it) ->
  selected_wrappers (imap f g) = [].
Proof.
  revert f. induction g as [|it g IH]; intros f Hf; [done|].
  cbn [imap]. rewrite selected_wrappers_cons, IH, Hf.
  - by destruct it.
  - intros j x. apply Hf.
Qed.

Lemma selected_wrappers_click g i wrapper b :
  g !! i = Some (Item wrapper) ->
  selected_wrappers
    (<[i := Item (mark_selected b wrapper)]>
       (imap (fun j it => if bool_decide (j = i) then it
                          else map_wrapper (mark_selected false) it) g))
  = if b then [mark_selected true wrapper] else [].
Proof.
  revert i. induction g as [|it g IH]; intros i Hi; [done|].
  destruct i as [|i]; simpl in Hi.
  - injection Hi as ->. cbn [imap insert list_insert].
    rewrite selected_wrappers_cons, selected_wrappers_deselected by done.
    rewrite app_nil_r. by destruct b.
  - cbn [imap].
    change (<[S i := ?x]> (?a :: ?l)) with (a :: <[i := x]> l).
    rewrite bool_decide_eq_false_2 by done.
    rewrite (imap_ext _ (fun j it => if bool_decide (j = i) then it
                                     else map_wrapper (mark_selected false) it) g).
    + rewrite selected_wrappers_cons, (IH i Hi). by destruct it.
    + intros j x _. simpl. by repeat case_bool_decide; simplify_eq.
Qed.

Section SelectionProperties.
Context `{Builtins}.

Lemma updateSelectionData_spec st :
  selection_data (updateSelectionData st)
  = WSelections (flat_map (selection_of st) (selected_wrappers (imageGrid st)))
  /\ imageGrid (updateSelectionData st) = imageGrid st.
Proof. unfold updateSelectionData, updateSelectionCount. by case_match. Qed.

(** C1 (amended): in single-select mode a click on an image leaves at
    most that image selected and writes [{selections: [...]}] to the
    widget: the list holds the one entry [{post_id, prompt, image_url}]
    of the clicked post when the click selected it, and is empty when
    the click deselected it; the widget never receives
    [{prompt, image_url}] or [{}] on this path. *)
Theorem img_onclick_single_select (i : nat) (wrapper : Wrapper) (st : State) :
  multi_select_enabled (settings st) = false ->
  imageGrid st !! i = Some (Item wrapper) ->
  let st' := img_onclick i st in
  selected_wrappers (imageGrid st')
  = (if w_selected wrapper then [] else [mark_selected true wrapper])
  /\ selection_data st'
     = WSelections (if w_selected wrapper then []
                    else selection_of st (mark_selected true wrapper))
  /\ (forall postData,
        w_selected wrapper = false ->
        find_post (w_postId wrapper) (posts st) = Some postData ->
        selection_data st'
        = WSelections [{| sel_post_id := w_postId wrapper;
                          sel_prompt := buildPromptForPost st postData;
                          sel_image_url := or_else (file_url postData)
                                             (large_file_url postData) |}])
  /\ (forall prompt image_url, selection_data st' <> WSingle prompt image_url)
  /\ selection_data st' <> WEmpty.
Proof.
  intros Hm Hi st'.
  assert (exists grid2,
             st' = updateSelectionData (set_imageGrid grid2 st)
             /\ selected_wrappers grid2
                = if w_selected wrapper then [] else [mark_selected true wrapper])
    as (grid2 & -> & Hsel).
  { subst st'. unfold img_onclick. rewrite Hi, Hm. cbn [negb].
    eexists. split; [reflexivity|].
    rewrite (selected_wrappers_click _ i wrapper _ Hi).
    by destruct (w_selected wrapper). }
  destruct (updateSelectionData_spec (set_imageGrid grid2 st)) as [Hdata Hgrid].
  cbn [set_imageGrid imageGrid] in Hdata, Hgrid. rewrite Hsel in Hdata.
  assert (selection_data (updateSelectionData (set_imageGrid grid2 st))
          = WSelections (if w_selected wrapper then []
                         else selection_of st (mark_selected true wrapper))) as Hdata'.
  { rewrite Hdata. destruct (w_selected wrapper); [done|].
    cbn [flat_map]. by rewrite app_nil_r. }
  split; [by rewrite Hgrid|]. split; [done|]. split; [|by rewrite Hdata'].
  intros postData Hw Hf. rewrite Hdata', Hw.
  unfold selection_of. cbn [w_postId mark_selected]. by rewrite Hf.
Qed.

End SelectionProperties.

Lemma img_onclick_single_select_witness :
  let post := sample_post 7 "https://cdn.example/7.png" "long_hair smile_(happy)" in
  let st := renderPost (set_posts [post] initial_state) post in
  let st' := @img_onclick utc_builtins 0 st in
  multi_select_enabled (settings st) = false
  /\ selected_wrappers (imageGrid st')
     = [{| w_postId := 7; w_selected := true; w_edited := false |}]
  /\ selection_data st'
     = WSelections [{| sel_post_id := 7;
                       sel_prompt := lit "long hair, smile \(happy\)";
                       sel_image_url := Str (lit "https://cdn.example/7.png") |}].
Proof.
  intros post st st'.
  destruct (@img_onclick_single_select utc_builtins 0
              {| w_postId := 7; w_selected := false; w_edited := false |} st)
    as (Hsel & Hdata & _).
  - reflexivity.
  - reflexivity.
  - split; [reflexivity|]. split; [exact Hsel|].
    fold st' in Hdata. rewrite Hdata. by vm_compute.
Defined.

(** C1 (as stated) fails: in single-select mode, with one post selected
    by a click the widget holds [{selections: [entry]}], not the
    [{prompt, image_url}] of that post, and after a second click, with
    nothing selected, it holds [{selections: []}], not [{}]. *)
Lemma img_onclick_payload_counterexample :
  let post := sample_post 7 "https://cdn.example/7.png" "long_hair smile_(happy)" in
  let st := renderPost (set_posts [post] initial_state) post in
  let st1 := @img_onclick utc_builtins 0 st in
  let st2 := @img_onclick utc_builtins 0 st1 in
  multi_select_enabled (settings st) = false
  /\ length (selected_wrappers (imageGrid st1)) = 1%nat
  /\ selection_data st1
     = WSelections [{| sel_post_id := 7;
                       sel_prompt := @buildPromptForPost utc_builtins st post;
                       sel_image_url := file_url post |}]
  /\ selection_data st1
     <> WSingle (@buildPromptForPost utc_builtins st post) (file_url post)
  /\ selected_wrappers (imageGrid st2) = []
  /\ selection_data st2 = WSelections []
  /\ selection_data st2 <> WEmpty.
Proof. by vm_compute. Defined.

(** ** Tooltip enrichment *)

Lemma tip_step_mono t e : Tip.currentTooltipId t <= Tip.currentTooltipId (Tip.step t e).
Proof.
  destruct e; simpl; try lia.
  - unfold Tip.mouseenter. repeat case_match; simpl; try lia.
    unfold Tip.mouseenter_resume. case_match; simpl; lia.
  - unfold Tip.mouseenter_resume. case_match; simpl; lia.
Qed.

Lemma tip_step_advances t e :
  Tip.advances t e = true -> Tip.currentTooltipId t < Tip.currentTooltipId (Tip.step t e).
Proof.
  destruct e; simpl; try done; [|lia].
  intros He. unfold Tip.mouseenter. rewrite He. simpl.
  case_match; simpl; [lia|].
  unfold Tip.mouseenter_resume. case_match; simpl; lia.
Qed.

Lemma tip_run_mono es t : Tip.currentTooltipId t <= Tip.currentTooltipId (Tip.run t es).
Proof.
  revert t. induction es as [|e es IH]; intros t; simpl; [lia|].
  etrans; [apply (tip_step_mono t e) | apply IH].
Qed.

Lemma tip_resume_stale thisTooltipId post translations t :
  thisTooltipId <> Tip.currentTooltipId t ->
  Tip.mouseenter_resume thisTooltipId post translations t = t.
Proof.
  intros Hne. unfold Tip.mouseenter_resume.
  by rewrite (proj2 (N.eqb_neq _ _) Hne).
Qed.

Lemma tip_mouseenter_token post t t1 thisTooltipId :
  Tip.mouseenter post t = (t1, Some thisTooltipId) ->
  thisTooltipId = Tip.currentTooltipId t1.
Proof.
  unfold Tip.mouseenter. repeat case_match; intros; by simplify_eq.
Qed.

(** C2: let the hover of [A] suspend on its translation request with
    token [thisTooltipId]. Whatever happens next, once some later event
    is a [mouseleave] or a [mouseenter] that passes the settings guard
    (the hover of [B] becoming active), the counter is past the token,
    and the completion of the request of [A], whenever it comes and
    whatever it brings, leaves the tooltip as it is. In general a
    completion whose token is not the counter changes nothing, and
    [mouseleave] always increments the counter. *)
Theorem stale_tooltip_fetch_discarded
    (A : Post) (t t1 : Tip.Tooltip) (thisTooltipId : N)
    (es1 es2 : list Tip.Event) (e : Tip.Event)
    (translations : list (jsstring * jsstring)) :
  Tip.mouseenter A t = (t1, Some thisTooltipId) ->
  Tip.advances (Tip.run t1 es1) e = true ->
  let t2 := Tip.run t1 (es1 ++ e :: es2) in
  thisTooltipId < Tip.currentTooltipId t2
  /\ Tip.mouseenter_resume thisTooltipId A translations t2 = t2
  /\ Tip.ui (Tip.mouseenter_resume thisTooltipId A translations t2) = Tip.ui t2
  /\ (forall token post translations' t',
        token <> Tip.currentTooltipId t' ->
        Tip.mouseenter_resume token post translations' t' = t')
  /\ (forall post t',
        Tip.currentTooltipId (Tip.mouseleave post t') = Tip.currentTooltipId t' + 1).
Proof.
  intros Henter Hadv t2.
  assert (thisTooltipId < Tip.currentTooltipId t2) as Hlt.
  { subst t2. unfold Tip.run. rewrite foldl_app. cbn [foldl].
    rewrite (tip_mouseenter_token _ _ _ _ Henter).
    eapply N.le_lt_trans; [apply (tip_run_mono es1)|].
    eapply N.lt_le_trans; [apply (tip_step_advances _ e Hadv)|].
    apply (tip_run_mono es2). }
  assert (Tip.mouseenter_resume thisTooltipId A translations t2 = t2) as Hsame
    by (apply tip_resume_stale; lia).
  split; [done|]. split; [done|]. split; [by rewrite Hsame|].
  split; [intros; by apply tip_resume_stale | done].
Qed.

Lemma stale_tooltip_fetch_discarded_witness :
  let A := sample_post 1 "https://cdn.example/1.png" "long_hair" in
  let B := sample_post 2 "https://cdn.example/2.png" "short_hair" in
  let t := {| Tip.currentTooltipId := 0;
              Tip.tooltip_enabled := true;
              Tip.language_zh := true;
              Tip.tagsContainer := [];
              Tip.displayed := false;
              Tip.clickHandlers := [] |} in
  let t1 := fst (Tip.mouseenter A t) in
  let t2 := Tip.run t1 [Tip.MouseLeave A; Tip.MouseEnter B] in
  snd (Tip.mouseenter A t) = Some 1
  /\ Tip.currentTooltipId t2 = 3
  /\ Tip.tagsContainer t2 = [Tip.Details B]
  /\ Tip.mouseenter_resume 1 A [(lit "long_hair", lit "x")] t2 = t2.
Proof.
  intros A B t t1 t2.
  destruct (stale_tooltip_fetch_discarded A t t1 1 [Tip.MouseLeave A] []
              (Tip.MouseEnter B) [(lit "long_hair", lit "x")])
    as (_ & Hsame & _).
  - reflexivity.
  - reflexivity.
  - split; [reflexivity|]. split; [reflexivity|]. split; [reflexivity|]. exact Hsame.
Defined.

(** * Further properties of the engine *)

(** ** The diff engine as a comparison of token multisets *)

Lemma insert_sorted_perm x l : insert_sorted x l ≡ₚ x :: l.
Proof.
  induction l as [|h t IH]; simpl; [done|].
  destruct (str_leb x h); [done|].
  rewrite IH. apply perm_swap.
Qed.

Lemma sort_permutation l : sort l ≡ₚ l.
Proof.
  induction l as [|x l IH]; simpl; [done|].
  by rewrite insert_sorted_perm, IH.
Qed.

Lemma every_eq_from (pre l1 l2 : list jsstring) :
  length l1 = length l2 ->
  every_from (fun tag index =>
                match (pre ++ l2) !! index with
                | Some t => str_eqb tag t
                | None => false
                end) (length pre) l1 = true ->
  l1 = l2.
Proof.
  revert pre l2. induction l1 as [|x l1 IH]; intros pre [|y l2] Hlen; simpl in *;
    try done.
  rewrite list_lookup_middle by done.
  intros [Hxy Hrest]%andb_prop.
  apply bool_decide_eq_true in Hxy as ->. f_equal.
  apply (IH (pre ++ [y]) l2); [lia|].
  replace ((pre ++ [y]) ++ l2) with (pre ++ y :: l2) by (by rewrite <- app_assoc).
  replace (length (pre ++ [y])) with (S (length pre))
    by (rewrite length_app; simpl; lia).
  done.
Qed.

Lemma compareTagStrings_truthy a b :
  truthy a = true -> truthy b = true ->
  compareTagStrings a b = true <-> tag_tokens (str_of a) ≡ₚ tag_tokens (str_of b).
Proof.
  intros Ha Hb. unfold compareTagStrings. rewrite Ha, Hb. simpl. split.
  - destruct (length (sort (tag_tokens (str_of a)))
              =? length (sort (tag_tokens (str_of b))))%nat eqn:Hlen; simpl; [|done].
    intros Hev. apply Nat.eqb_eq in Hlen.
    apply (every_eq_from [] _ _ Hlen) in Hev.
    by rewrite <- (sort_permutation (tag_tokens (str_of a))), Hev, sort_permutation.
  - intros Hp. rewrite (sort_perm _ _ Hp), Nat.eqb_refl. simpl.
    apply (every_self_from []).
Qed.

(** X1: on two non-empty tag strings the comparison succeeds exactly
    when they hold the same tokens with the same multiplicities, in any
    order and with any white space between them. *)
Theorem compareTagStrings_multiset (s s' : jsstring) :
  s <> [] -> s' <> [] ->
  compareTagStrings (Str s) (Str s') = true <-> tag_tokens s ≡ₚ tag_tokens s'.
Proof.
  intros Hs Hs'. apply (compareTagStrings_truthy (Str s) (Str s')).
  - by destruct s.
  - by destruct s'.
Qed.

Lemma compareTagStrings_multiset_witness :
  (compareTagStrings (Str (lit "b a  b")) (Str (lit "b b a")) = true
   <-> tag_tokens (lit "b a  b") ≡ₚ tag_tokens (lit "b b a"))
  /\ compareTagStrings (Str (lit "b a  b")) (Str (lit "b b a")) = true
  /\ compareTagStrings (Str (lit "a b")) (Str (lit "a b b")) = false.
Proof.
  split; [|by vm_compute].
  apply (compareTagStrings_multiset (lit "b a  b") (lit "b b a")); by vm_compute.
Defined.

Lemma compareTagStrings_sym a b : compareTagStrings a b = compareTagStrings b a.
Proof.
  destruct (truthy a) eqn:Ha, (truthy b) eqn:Hb.
  - apply eq_true_iff_eq.
    rewrite !compareTagStrings_truthy by done. split; intros Hp; by symmetry.
  - unfold compareTagStrings. by rewrite Ha, Hb.
  - unfold compareTagStrings. by rewrite Ha, Hb.
  - unfold compareTagStrings. by rewrite Ha, Hb.
Qed.

(** X2: the comparison is an equivalence: it is symmetric and
    transitive (and reflexive, [compareTagStrings_refl]). *)
Theorem compareTagStrings_equivalence :
  (forall a b, compareTagStrings a b = compareTagStrings b a)
  /\ (forall a b c,
        compareTagStrings a b = true -> compareTagStrings b c = true ->
        compareTagStrings a c = true).
Proof.
  split; [apply compareTagStrings_sym|].
  intros a b c Hab Hbc.
  destruct (truthy a) eqn:Ha, (truthy b) eqn:Hb, (truthy c) eqn:Hc;
    try (unfold compareTagStrings in *; rewrite ?Ha, ?Hb, ?Hc in *; done).
  apply compareTagStrings_truthy in Hab, Hbc; try done.
  apply compareTagStrings_truthy; [done..|]. by etrans.
Qed.

Lemma compareTagStrings_equivalence_witness :
  compareTagStrings (Str (lit "a b")) (Str (lit "b a"))
  = compareTagStrings (Str (lit "b a")) (Str (lit "a b"))
  /\ compareTagStrings (Str (lit "a b")) (Str (lit " b  a ")) = true.
Proof.
  destruct compareTagStrings_equivalence as [Hsym Htrans]. split; [apply Hsym|].
  apply (Htrans _ (Str (lit "b a"))); by vm_compute.
Defined.

(** ** Converting the search box to the query *)

Lemma drop_ws_Forall (P : N -> Prop) s : Forall P s -> Forall P (drop_ws s).
Proof.
  induction 1 as [|c s Hc Hs IH]; simpl; [constructor|].
  destruct (is_ws c); [done | by constructor].
Qed.

Lemma trim_Forall (P : N -> Prop) s : Forall P s -> Forall P (trim s).
Proof.
  intros Hs. unfold trim.
  by apply Forall_rev, drop_ws_Forall, Forall_rev, drop_ws_Forall.
Qed.

Lemma unescape_parens_cons c s :
  unescape_parens (c :: s)
  = match s with
    | d :: s' => if (c =? 92) && is_paren d then d :: unescape_parens s'
                 else c :: unescape_parens s
    | [] => [c]
    end.
Proof. by destruct s. Qed.

Lemma unescape_parens_Forall (P : N -> Prop) s :
  Forall P s -> Forall P (unescape_parens s).
Proof.
  remember (length s) as n eqn:Hn. revert s Hn.
  induction n as [n IH] using lt_wf_ind. intros s -> Hs.
  destruct s as [|c s]; [constructor|].
  rewrite unescape_parens_cons.
  destruct s as [|d s]; [done|].
  inversion Hs as [|? ? Hc Hs']; subst. inversion Hs' as [|? ? Hd Hs'']; subst.
  destruct ((c =? 92) && is_paren d).
  - constructor; [done|]. eapply IH; [|reflexivity|done]. simpl. lia.
  - constructor; [done|]. eapply IH; [|reflexivity|done]. simpl. lia.
Qed.

Lemma ws_runs_to_underscore_Forall (P : N -> Prop) b s :
  P 95 -> Forall P s -> Forall P (ws_runs_to_underscore b s).
Proof.
  intros H95 Hs. revert b. induction Hs as [|c s Hc Hs IH]; intros b; simpl;
    [constructor|].
  destruct (is_ws c); [destruct b|]; try constructor; auto.
Qed.

Lemma join_Forall (P : N -> Prop) sep l :
  Forall P sep -> Forall (Forall P) l -> Forall P (join sep l).
Proof.
  intros Hsep Hl. induction Hl as [|x l Hx Hl IH]; [constructor|].
  destruct l as [|y l]; [done|].
  change (join sep (x :: y :: l)) with (x ++ sep ++ join sep (y :: l)).
  rewrite !Forall_app. auto.
Qed.

Lemma split_go_no_sep sep cur s :
  Forall (fun c => c <> sep) cur ->
  Forall (Forall (fun c => c <> sep)) (split_go sep cur s).
Proof.
  revert cur. induction s as [|c s IH]; intros cur Hcur; simpl.
  - constructor; [by apply Forall_rev | constructor].
  - destruct (c =? sep) eqn:Hc.
    + constructor; [by apply Forall_rev | by apply IH].
    + apply IH. constructor; [by apply N.eqb_neq | done].
Qed.

Lemma convertTag_no_comma tag :
  Forall (fun c => c <> 44) tag -> Forall (fun c => c <> 44) (convertTag tag).
Proof.
  intros Ht. unfold convertTag.
  assert (Forall (fun c => c <> 44) (unescape_parens (trim tag))) as Hu
      by (by apply unescape_parens_Forall, trim_Forall).
  destruct (negb _); [|done].
  by apply ws_runs_to_underscore_Forall.
Qed.

(** X3: whatever is typed in the search box, the converted query holds
    no comma; commas only ever separate tags. *)
Theorem convertTagsToApiFormat_no_comma (tagsString : jsstring) :
  has_char 44 (convertTagsToApiFormat tagsString) = false.
Proof.
  assert (Forall (fun c => c <> 44) (convertTagsToApiFormat tagsString)) as Hall.
  { unfold convertTagsToApiFormat. destruct (negb _); [constructor|].
    apply join_Forall; [by repeat constructor|].
    apply Forall_map, Forall_forall. intros tag Htag.
    apply list_elem_of_In, filter_In in Htag as [Htag _].
    apply convertTag_no_comma.
    pose proof (split_go_no_sep 44 [] tagsString ltac:(constructor)) as Hsplit.
    rewrite Forall_forall in Hsplit. by apply Hsplit, list_elem_of_In. }
  unfold has_char. apply not_true_is_false. intros Hex.
  apply existsb_exists in Hex as (c & Hin & Hc).
  apply N.eqb_eq in Hc as <-.
  rewrite Forall_forall in Hall. apply list_elem_of_In in Hin. by apply (Hall 44).
Qed.

(** ** From the prompt back to the query *)

Lemma drop_ws_head c s : is_ws c = false -> drop_ws (c :: s) = c :: s.
Proof. intros Hc. simpl. by rewrite Hc. Qed.

(** A string that starts and ends with a character that is not white
    space is its own trim. *)
Lemma trim_tight a m z :
  is_ws a = false -> is_ws z = false ->
  (rev (a :: m) = z :: rev (removelast (a :: m))) ->
  trim (a :: m) = a :: m.
Proof.
  intros Ha Hz Hrev. unfold trim.
  rewrite (drop_ws_head a m Ha), Hrev, (drop_ws_head z _ Hz), <- Hrev.
  apply rev_involutive.
Qed.

Lemma rev_last_cons (s : jsstring) z :
  last s = Some z -> rev s = z :: rev (removelast s).
Proof.
  intros Hl. apply last_Some in Hl as [s' ->].
  by rewrite removelast_last, rev_app_distr.
Qed.

Lemma trim_id s a z :
  head s = Some a -> last s = Some z -> is_ws a = false -> is_ws z = false ->
  trim s = s.
Proof.
  intros Hh Hl Ha Hz. destruct s as [|a' m]; [done|]. injection Hh as ->.
  apply (trim_tight a m z Ha Hz). by apply rev_last_cons.
Qed.

Lemma trim_ws_cons c s : is_ws c = true -> trim (c :: s) = trim s.
Proof. intros Hc. unfold trim. simpl. by rewrite Hc. Qed.

Lemma api_tag_inv t :
  api_tag t = true ->
  t <> [] /\ Forall (fun c => plain_char c = true) t
  /\ (exists a, head t = Some a /\ a <> 95)
  /\ (exists z, last t = Some z /\ z <> 95)
  /\ no_double_underscore t = true.
Proof.
  unfold api_tag. rewrite !andb_true_iff, !negb_true_iff, !bool_decide_eq_false.
  intros ((((Hne & Hpl) & Hh) & Hl) & Hd).
  split; [by destruct t|]. split.
  { apply Forall_forall. intros c Hc.
    apply (proj1 (forallb_forall _ _) Hpl). by apply list_elem_of_In. }
  split; [|split; [|done]].
  - destruct t as [|a t]; [done|]. exists a. split; [done|].
    intros ->. by apply Hh.
  - destruct (last t) as [z|] eqn:Hz.
    + exists z. split; [done|]. intros ->. by apply Hl.
    + apply last_None in Hz. by subst.
Qed.

Lemma plain_char_inv c :
  plain_char c = true -> is_ws c = false /\ c <> 44 /\ c <> 92 /\ c <> 58.
Proof.
  unfold plain_char. rewrite !andb_true_iff, !negb_true_iff, !N.eqb_neq. tauto.
Qed.

Lemma head_map' {A B} (f : A -> B) (l : list A) : head (map f l) = f <$> head l.
Proof. by destruct l. Qed.

Lemma last_map' {A B} (f : A -> B) (l : list A) : last (map f l) = f <$> last l.
Proof.
  induction l as [|x l IH] using rev_ind; [done|].
  rewrite map_app. simpl. by rewrite !last_snoc.
Qed.

Lemma escape_parens_app s s' :
  escape_parens (s ++ s') = escape_parens s ++ escape_parens s'.
Proof. unfold escape_parens. apply flat_map_app. Qed.

Lemma escape_parens_head s a :
  head s = Some a -> is_ws a = false ->
  exists b, head (escape_parens s) = Some b /\ is_ws b = false.
Proof.
  destruct s as [|a' s]; [done|]. intros [= ->] Ha. simpl.
  destruct (is_paren a); simpl; eauto.
Qed.

Lemma escape_parens_last s z : last s = Some z -> last (escape_parens s) = Some z.
Proof.
  intros Hl. apply last_Some in Hl as [s' ->].
  rewrite escape_parens_app. simpl.
  destruct (is_paren z); simpl.
  - change [92; z] with ([92] ++ [z]). by rewrite !app_assoc, last_snoc.
  - by rewrite last_snoc.
Qed.

Lemma underscores_to_spaces_keep a : a <> 95 -> (if a =? 95 then 32 else a) = a.
Proof. intros Ha. by rewrite (proj2 (N.eqb_neq a 95) Ha). Qed.

(** A formatted tag starts and ends with a character that is not white
    space, so trimming leaves it alone. *)
Lemma format_tag_tight cfg t :
  api_tag t = true ->
  exists a z, head (format_tag cfg t) = Some a /\ last (format_tag cfg t) = Some z
              /\ is_ws a = false /\ is_ws z = false.
Proof.
  intros (Hne & Hpl & (a & Ha & Ha95) & (z & Hz & Hz95) & _)%api_tag_inv.
  assert (is_ws a = false) as Hwa.
  { rewrite Forall_forall in Hpl. apply plain_char_inv, Hpl.
    destruct t; simplify_eq/=. by left. }
  assert (is_ws z = false) as Hwz.
  { rewrite Forall_forall in Hpl. apply plain_char_inv, Hpl.
    apply last_Some in Hz as [t' ->]. apply elem_of_app. right. by left. }
  assert (exists a' z', head (if replaceUnderscores cfg then underscores_to_spaces t else t)
                        = Some a'
                        /\ last (if replaceUnderscores cfg then underscores_to_spaces t else t)
                           = Some z'
                        /\ is_ws a' = false /\ is_ws z' = false) as (a' & z' & Ha' & Hz' & Hwa' & Hwz').
  { destruct (replaceUnderscores cfg); [|by eauto 10].
    exists a, z. unfold underscores_to_spaces.
    rewrite head_map', last_map', Ha, Hz. simpl.
    by rewrite !underscores_to_spaces_keep. }
  unfold format_tag. destruct (escapeBrackets cfg); [|by eauto 10].
  destruct (escape_parens_head _ _ Ha' Hwa') as (b & Hb & Hwb).
  exists b, z'. by rewrite Hb, (escape_parens_last _ _ Hz').
Qed.

Lemma format_tag_trim cfg t : api_tag t = true -> trim (format_tag cfg t) = format_tag cfg t.
Proof.
  intros (a & z & Ha & Hz & Hwa & Hwz)%(format_tag_tight cfg).
  by eapply trim_id.
Qed.

Lemma format_tag_nonempty cfg t : api_tag t = true -> nonempty (format_tag cfg t) = true.
Proof.
  intros (a & z & Ha & _)%(format_tag_tight cfg).
  by destruct (format_tag cfg t).
Qed.

Lemma format_tag_no_comma cfg t :
  api_tag t = true -> Forall (fun c => c <> 44) (format_tag cfg t).
Proof.
  intros (_ & Hpl & _)%api_tag_inv.
  assert (Forall (fun c => c <> 44) t) as Ht.
  { eapply Forall_impl; [exact Hpl|]. intros c Hc. apply plain_char_inv in Hc; tauto. }
  assert (Forall (fun c => c <> 44)
            (if replaceUnderscores cfg then underscores_to_spaces t else t)) as Hu.
  { destruct (replaceUnderscores cfg); [|done].
    unfold underscores_to_spaces. apply Forall_map.
    eapply Forall_impl; [exact Ht|]. intros c Hc. simpl. by destruct (c =? 95). }
  unfold format_tag. destruct (escapeBrackets cfg); [|done].
  unfold escape_parens. induction Hu as [|c s Hc Hs IH]; [constructor|].
  simpl. destruct (is_paren c); simpl; repeat constructor; done.
Qed.

Lemma unescape_escape s :
  Forall (fun c => c <> 92) s -> unescape_parens (escape_parens s) = s.
Proof.
  induction 1 as [|c s Hc Hs IH]; [done|].
  change (escape_parens (c :: s))
    with ((if is_paren c then [92; c] else [c]) ++ escape_parens s).
  destruct (is_paren c) eqn:Hp.
  - simpl. rewrite Hp. simpl. by rewrite IH.
  - change ([c] ++ escape_parens s) with (c :: escape_parens s).
    rewrite unescape_parens_cons.
    rewrite (proj2 (N.eqb_neq c 92) Hc). cbn [andb].
    destruct (escape_parens s) eqn:He; [|by rewrite IH].
    by rewrite <- IH.
Qed.

Lemma unescape_plain s :
  Forall (fun c => c <> 92) s -> unescape_parens s = s.
Proof.
  induction 1 as [|c s Hc Hs IH]; [done|].
  rewrite unescape_parens_cons, (proj2 (N.eqb_neq c 92) Hc). simpl. rewrite IH.
  by destruct s.
Qed.

Lemma ws_runs_underscores b t :
  Forall (fun c => is_ws c = false) t ->
  no_double_underscore t = true ->
  (b = true -> head t <> Some 95) ->
  ws_runs_to_underscore b (underscores_to_spaces t) = t.
Proof.
  intros Ht. revert b. induction Ht as [|c t Hc Ht IH]; intros b Hd Hb; [done|].
  simpl. destruct (c =? 95) eqn:Hc95.
  - apply N.eqb_eq in Hc95 as ->. change (is_ws 32) with true. cbv iota.
    destruct b; [by destruct Hb|]. f_equal. apply IH.
    + simpl in Hd. destruct t; [done|]. by apply andb_prop in Hd as [_ ?].
    + intros _ Hh. simpl in Hd. destruct t as [|d t]; [done|].
      injection Hh as ->. done.
  - rewrite Hc. f_equal. apply IH; [|done].
    simpl in Hd. destruct t; [done|]. by apply andb_prop in Hd as [_ ?].
Qed.

Lemma ws_runs_plain b t :
  Forall (fun c => is_ws c = false) t -> ws_runs_to_underscore b t = t.
Proof.
  intros Ht. revert b. induction Ht as [|c t Hc Ht IH]; intros b; [done|].
  simpl. by rewrite Hc, IH.
Qed.

Lemma has_char_false c s : Forall (fun d => d <> c) s -> has_char c s = false.
Proof.
  induction 1 as [|d s Hd Hs IH]; [done|].
  unfold has_char in *. simpl. rewrite IH.
  by rewrite (proj2 (N.eqb_neq c d)) by done.
Qed.

(** One formatted tag converts back to the tag. *)
Lemma convertTag_format_tag cfg t :
  api_tag t = true -> convertTag (format_tag cfg t) = t.
Proof.
  intros Ht. unfold convertTag. rewrite (format_tag_trim cfg t Ht).
  destruct (api_tag_inv t Ht) as (_ & Hpl & _ & _ & Hd).
  assert (Forall (fun c => is_ws c = false) t) as Hws
      by (eapply Forall_impl; [exact Hpl|]; intros c Hc; apply plain_char_inv in Hc; tauto).
  assert (Forall (fun c => c <> 92) t) as H92
      by (eapply Forall_impl; [exact Hpl|]; intros c Hc; apply plain_char_inv in Hc; tauto).
  assert (Forall (fun c => c <> 58) t) as H58
      by (eapply Forall_impl; [exact Hpl|]; intros c Hc; apply plain_char_inv in Hc; tauto).
  set (u := if replaceUnderscores cfg then underscores_to_spaces t else t).
  assert (Forall (fun c => c <> 92) u) as Hu92.
  { subst u. destruct (replaceUnderscores cfg); [|done].
    apply Forall_map. eapply Forall_impl; [exact H92|]. intros c Hc. simpl.
    by destruct (c =? 95). }
  assert (Forall (fun c => c <> 58) u) as Hu58.
  { subst u. destruct (replaceUnderscores cfg); [|done].
    apply Forall_map. eapply Forall_impl; [exact H58|]. intros c Hc. simpl.
    by destruct (c =? 95). }
  assert (unescape_parens (format_tag cfg t) = u) as ->.
  { unfold format_tag. fold u.
    destruct (escapeBrackets cfg); [by apply unescape_escape | by apply unescape_plain]. }
  rewrite (has_char_false 58 u) by (eapply Forall_impl; [exact Hu58|]; naive_solver).
  simpl. subst u. destruct (replaceUnderscores cfg).
  - by apply ws_runs_underscores.
  - by apply ws_runs_plain.
Qed.

Lemma split_go_piece sep cur x rest :
  Forall (fun c => c <> sep) x ->
  split_go sep cur (x ++ rest) = split_go sep (rev x ++ cur) rest.
Proof.
  intros Hx. revert cur. induction Hx as [|c x Hc Hx IH]; intros cur; [done|].
  simpl. rewrite (proj2 (N.eqb_neq c sep) Hc), IH, <- app_assoc. done.
Qed.

Lemma split_join_comma_space cur x rest :
  Forall (Forall (fun c => c <> 44)) (x :: rest) ->
  split_go 44 cur (join [44; 32] (x :: rest))
  = (rev cur ++ x) :: map (fun u => 32 :: u) rest.
Proof.
  revert cur x. induction rest as [|y rest IH]; intros cur x Hall.
  - simpl. rewrite <- (app_nil_r x) at 1.
    rewrite split_go_piece by (by inversion Hall). simpl.
    by rewrite rev_app_distr, rev_involutive.
  - change (join [44; 32] (x :: y :: rest))
      with (x ++ 44 :: 32 :: join [44; 32] (y :: rest)).
    inversion Hall as [|? ? Hx Hrest]; subst.
    rewrite split_go_piece by done.
    change (split_go 44 ?c (44 :: 32 :: ?r)) with (rev c :: split_go 44 [32] r).
    rewrite rev_app_distr, rev_involutive, (IH [32] y Hrest). done.
Qed.

Lemma convert_formatted cfg l :
  l <> [] -> Forall (fun t => api_tag t = true) l ->
  convertTagsToApiFormat (join (lit ", ") (map (format_tag cfg) l)) = join [32] l.
Proof.
  intros Hne Hl. change (lit ", ") with [44; 32].
  destruct l as [|x l]; [done|]. clear Hne.
  assert (Forall (Forall (fun c => c <> 44)) (map (format_tag cfg) (x :: l))) as H44.
  { apply Forall_map. eapply Forall_impl; [exact Hl|]. apply format_tag_no_comma. }
  unfold convertTagsToApiFormat.
  assert (nonempty (join [44; 32] (map (format_tag cfg) (x :: l))) = true) as ->.
  { inversion Hl as [|? ? Hx _]; subst.
    pose proof (format_tag_nonempty cfg x Hx) as Hfx.
    simpl. destruct (map (format_tag cfg) l); [done|].
    by destruct (format_tag cfg x). }
  cbn [negb]. unfold split. cbn [map] in *.
  rewrite (split_join_comma_space [] _ _ H44). cbn [rev app].
  assert (forall t, api_tag t = true ->
                    nonempty (trim (32 :: format_tag cfg t)) = true
                    /\ convertTag (32 :: format_tag cfg t) = t) as Hpad.
  { intros t Ht. unfold convertTag. rewrite trim_ws_cons by done.
    split; [by rewrite format_tag_trim, format_tag_nonempty|].
    apply (convertTag_format_tag cfg t Ht). }
  inversion Hl as [|? ? Hx Hl']; subst. cbn [List.filter].
  rewrite (format_tag_trim cfg x Hx), (format_tag_nonempty cfg x Hx).
  cbn [map]. rewrite (convertTag_format_tag cfg x Hx).
  assert (map convertTag
            (List.filter (fun tag => nonempty (trim tag))
               (map (fun u => 32 :: u) (map (format_tag cfg) l))) = l) as ->; [|done].
  clear Hl H44 Hx. induction Hl' as [|y l Hy Hl' IH]; [done|].
  destruct (Hpad y Hy) as [Hn Hc].
  cbn [map List.filter]. rewrite Hn. cbn [map]. by rewrite Hc, IH.
Qed.

Section PromptRoundTrip.
Context `{Builtins}.

Lemma promptOf_unfiltered cfg post :
  filterEnabled cfg && negb (length (currentFilterTags cfg) =? 0)%nat = false ->
  output_tags cfg post <> [] ->
  promptOf cfg post = join (lit ", ") (map (format_tag cfg) (output_tags cfg post)).
Proof.
  intros Hf Hne. unfold promptOf. fold (output_tags cfg post). rewrite Hf.
  by destruct (output_tags cfg post).
Qed.

(** X4: with the prompt filter off, the prompt exported for a post,
    typed back into the search box, converts to the tags of the post's
    selected categories joined by spaces, whatever the two formatting
    options are. There must be at least one such tag and each must
    satisfy [api_tag]: it is not empty, holds no white space, comma,
    backslash or colon, neither starts nor ends with an underscore and
    has no two underscores in a row. A tag with a colon is left out on
    purpose: the conversion keeps its spaces (line 2023). *)
Theorem convertTagsToApiFormat_promptOf (cfg : Settings) (post : Post) :
  filterEnabled cfg && negb (length (currentFilterTags cfg) =? 0)%nat = false ->
  output_tags cfg post <> [] ->
  Forall (fun t => api_tag t = true) (output_tags cfg post) ->
  convertTagsToApiFormat (promptOf cfg post) = join [32] (output_tags cfg post).
Proof.
  intros Hf Hne Hall. rewrite promptOf_unfiltered by done.
  by apply convert_formatted.
Qed.

End PromptRoundTrip.

Lemma convertTagsToApiFormat_promptOf_witness :
  let post := sample_post 7 "https://cdn.example/7.png" "long_hair smile_(happy) 1girl" in
  @promptOf utc_builtins default_settings post = lit "long hair, smile \(happy\), 1girl"
  /\ convertTagsToApiFormat (@promptOf utc_builtins default_settings post)
     = lit "long_hair smile_(happy) 1girl".
Proof.
  intros post. split; [by vm_compute|].
  rewrite (@convertTagsToApiFormat_promptOf utc_builtins default_settings post).
  - by vm_compute.
  - reflexivity.
  - by vm_compute.
  - vm_compute. repeat constructor.
Defined.

(** Why [api_tag] excludes the colon: the underscore of such a tag
    becomes a space in the prompt and the conversion does not turn it
    back. *)
Example convertTagsToApiFormat_colon_example :
  let post := sample_post 7 "https://cdn.example/7.png" "re:zero_kara" in
  @promptOf utc_builtins default_settings post = lit "re:zero kara"
  /\ convertTagsToApiFormat (@promptOf utc_builtins default_settings post)
     = lit "re:zero kara".
Proof. by vm_compute. Qed.

(** ** Page loads from start to end *)

Lemma renderPost_frame st post :
  let st' := renderPost st post in
  posts st' = posts st /\ temporaryTagEdits st' = temporaryTagEdits st
  /\ currentPage st' = currentPage st /\ isLoading st' = isLoading st
  /\ refreshLoading st' = refreshLoading st /\ filterState st' = filterState st
  /\ settings st' = settings st /\ requests st' = requests st
  /\ selection_data st' = selection_data st /\ toasts st' = toasts st
  /\ tagHintShown st' = tagHintShown st.
Proof.
  unfold renderPost, createPostElement. repeat case_match; simplify_eq; done.
Qed.

Lemma foldl_renderPost_frame l st :
  let st' := foldl renderPost st l in
  posts st' = posts st /\ temporaryTagEdits st' = temporaryTagEdits st
  /\ currentPage st' = currentPage st /\ isLoading st' = isLoading st
  /\ refreshLoading st' = refreshLoading st /\ filterState st' = filterState st
  /\ settings st' = settings st /\ requests st' = requests st
  /\ selection_data st' = selection_data st /\ toasts st' = toasts st
  /\ tagHintShown st' = tagHintShown st.
Proof.
  revert st. induction l as [|p l IH]; intros st; [done|].
  cbn [foldl]. specialize (IH (renderPost st p)).
  pose proof (renderPost_frame st p) as Hp. cbv zeta in *.
  destruct IH as (-> & -> & -> & -> & -> & -> & -> & -> & -> & -> & ->).
  done.
Qed.

Lemma renderPost_snapshot st post :
  let st' := renderPost st post in
  (forall postId o, originalPostCache st !! postId = Some o ->
                    originalPostCache st' !! postId = Some o)
  /\ (renderable post = true -> is_Some (originalPostCache st' !! p_id post))
  /\ (renderable post = true -> originalPostCache st !! p_id post = None ->
      originalPostCache st' !! p_id post = Some post).
Proof.
  unfold renderPost, createPostElement, renderable.
  destruct (p_id post =? 0); [by simpl|].
  destruct (truthy (preview_file_url post)); [|by simpl]. simpl.
  destruct (originalPostCache st !! p_id post) as [o|] eqn:Ho; simpl.
  - split; [done|]. split; [by rewrite Ho | done].
  - split; [|split].
    + intros postId o Hl. rewrite lookup_insert_ne; [done|]. congruence.
    + intros _. rewrite lookup_insert_eq. eauto.
    + intros _ _. by rewrite lookup_insert_eq, deep_copy_id.
Qed.

Lemma foldl_renderPost_snapshot l st :
  let st' := foldl renderPost st l in
  (forall postId o, originalPostCache st !! postId = Some o ->
                    originalPostCache st' !! postId = Some o)
  /\ (forall post, post ∈ l -> renderable post = true ->
                   is_Some (originalPostCache st' !! p_id post)).
Proof.
  revert st. induction l as [|p l IH]; intros st; cbn [foldl].
  - split; [done|]. intros post Hin. by apply elem_of_nil in Hin.
  - destruct (IH (renderPost st p)) as [Hkeep Hnew].
    destruct (renderPost_snapshot st p) as (Hkeep1 & Hnew1 & _).
    split.
    + intros postId o Ho. by apply Hkeep, Hkeep1.
    + intros post [->|Hin]%elem_of_cons Hr.
      * destruct (Hnew1 Hr) as [o Ho]. exists o. by apply Hkeep.
      * by apply Hnew.
Qed.

Section LoadProperties.
Context `{Builtins}.

Lemma search_tags_frame st st' :
  settings st' = settings st -> filterState st' = filterState st ->
  search_tags st' = search_tags st.
Proof. intros Hs Hf. unfold search_tags. by rewrite Hs, Hf. Qed.

(** The state a load suspends in at the probe. *)
Lemma fetchAndRender_begin_spec reset st :
  isLoading st = false ->
  exists st1,
    fetchAndRender_begin reset st = Awaiting st1
    /\ posts st1 = base_posts reset st
    /\ currentPage st1 = base_page reset st
    /\ requests st1 = requests st ++ [ReqCheckNetwork]
    /\ settings st1 = settings st /\ filterState st1 = filterState st
    /\ originalPostCache st1 = originalPostCache st
    /\ temporaryTagEdits st1 = temporaryTagEdits st
    /\ selection_data st1 = selection_data st
    /\ (reset = true -> imageGrid st1 = [Loading]).
Proof.
  intros Hl. unfold fetchAndRender_begin, base_posts, base_page. rewrite Hl.
  eexists. split; [reflexivity|].
  change (filterState (set_refreshLoading true (set_isLoading true st)))
    with (filterState st).
  change (imageGrid (set_refreshLoading true (set_isLoading true st)))
    with (imageGrid st).
  destruct (existsb is_loading_item (imageGrid st)), reset; simpl;
    [destruct (startPage (filterState st)) as [n|]; [destruct (n =? 0)%Z|]
    | | destruct (startPage (filterState st)) as [n|]; [destruct (n =? 0)%Z|] | ];
    repeat split; intros; done.
Qed.

(** X5: a page load that passed the guard always releases it: however
    the probe and the request end, when the handler returns [isLoading]
    is false and the refresh button is enabled again. *)
Theorem fetchAndRender_releases_lock
    (reset isNetworkConnected : bool) (resp : PostsResponse) (st : State) :
  isLoading st = false ->
  let st' := fetchAndRender reset isNetworkConnected resp st in
  isLoading st' = false /\ refreshLoading st' = false.
Proof.
  intros Hl. unfold fetchAndRender.
  destruct (fetchAndRender_begin_spec reset st Hl) as (st1 & -> & _).
  unfold fetchAndRender_checked.
  destruct isNetworkConnected; cbn [negb]; [|done].
  destruct (search_tags _); [|done].
  unfold fetchAndRender_response.
  destruct resp as [newPosts| |]; [|done|done].
  case_match; [done|].
  cbn [fetch_finally set_imageGrid set_refreshLoading set_isLoading isLoading
         refreshLoading]. done.
Qed.

End LoadProperties.

Lemma fetchAndRender_releases_lock_witness :
  let st := with_search "1girl" initial_state in
  isLoading (@fetchAndRender utc_builtins true true RespFailure st) = false
  /\ refreshLoading (@fetchAndRender utc_builtins true true RespFailure st) = false.
Proof.
  intros st. apply (@fetchAndRender_releases_lock utc_builtins true true RespFailure st).
  reflexivity.
Defined.

Section LoadOutcomes.
Context `{Builtins}.

Lemma fetchAndRender_outcome reset isNetworkConnected resp st :
  isLoading st = false ->
  let st' := fetchAndRender reset isNetworkConnected resp st in
  match loaded_posts reset isNetworkConnected resp st with
  | Some filteredPosts =>
      posts st' = base_posts reset st ++ filteredPosts
      /\ currentPage st' = (base_page reset st + 1)%Z
  | None =>
      posts st' = base_posts reset st /\ currentPage st' = base_page reset st
  end.
Proof.
  intros Hl. unfold fetchAndRender, loaded_posts.
  destruct (fetchAndRender_begin_spec reset st Hl)
    as (st1 & -> & Hp & Hc & _ & Hs & Hf & _).
  unfold fetchAndRender_checked.
  destruct isNetworkConnected; cbn [negb]; [|done].
  rewrite (search_tags_frame st (set_tagHintShown _ st1)) by done.
  destruct (search_tags st) as [q|]; [|done].
  unfold fetchAndRender_response.
  destruct resp as [newPosts| |]; [|done|done].
  cbn [send set_requests set_tagHintShown settings]. rewrite Hs.
  destruct ((length _ =? 0)%nat && reset); [done|].
  cbn [fetch_finally set_imageGrid set_refreshLoading set_isLoading posts currentPage].
  match goal with
  | |- context [foldl renderPost ?s ?l] =>
      destruct (foldl_renderPost_frame l s) as (Hfp & _ & Hfc & _)
  end.
  cbv zeta in Hfp, Hfc. rewrite Hfp, Hfc.
  unfold send. simpl. by rewrite Hp, Hc.
Qed.

End LoadOutcomes.

Lemma filter_none_length {A} (f : A -> bool) (l : list A) :
  (length (List.filter (fun x => negb (f x)) l) =? 0)%nat = forallb f l.
Proof.
  induction l as [|x l IH]; [done|]. simpl. by destruct (f x).
Qed.

Section LoadTheorems.
Context `{Builtins}.

(** X6: the page cursor advances by one whenever the posts request
    answers with a list, except on a reset whose page has no post left
    after filtering; so it also advances for a later page that is empty
    or wholly filtered, where nothing is appended. When the probe
    fails, a filter date is invalid, the request fails or the response
    is not a list, it stays at the page the load started from. *)
Theorem fetchAndRender_cursor
    (reset isNetworkConnected : bool) (resp : PostsResponse) (st : State) :
  isLoading st = false ->
  currentPage (fetchAndRender reset isNetworkConnected resp st)
  = match isNetworkConnected, search_tags st, resp with
    | true, Some _, RespList newPosts =>
        if reset && forallb (isPostFiltered (currentBlacklist (settings st))) newPosts
        then base_page reset st
        else (base_page reset st + 1)%Z
    | _, _, _ => base_page reset st
    end.
Proof.
  intros Hl. pose proof (fetchAndRender_outcome reset isNetworkConnected resp st Hl) as Ho.
  cbv zeta in Ho.
  assert (currentPage (fetchAndRender reset isNetworkConnected resp st)
          = match loaded_posts reset isNetworkConnected resp st with
            | Some _ => (base_page reset st + 1)%Z
            | None => base_page reset st
            end) as ->
      by (by destruct (loaded_posts _ _ _ _); destruct Ho).
  unfold loaded_posts. destruct isNetworkConnected; [|done].
  destruct (search_tags st); [|done]. destruct resp as [newPosts| |]; [|done..].
  rewrite (filter_none_length (isPostFiltered (currentBlacklist (settings st))) newPosts).
  rewrite (andb_comm reset). by destruct (forallb _ newPosts), reset.
Qed.

(** X7: a load that succeeds appends to [posts], in the order of the
    response, exactly the posts that pass the file-type filter and the
    blacklist; after a reset they are all the posts there are. *)
Theorem fetchAndRender_appends_filtered
    (reset : bool) (newPosts filteredPosts : list Post) (st : State) :
  isLoading st = false ->
  loaded_posts reset true (RespList newPosts) st = Some filteredPosts ->
  posts (fetchAndRender reset true (RespList newPosts) st)
  = base_posts reset st ++ filteredPosts
  /\ filteredPosts
     = List.filter (fun post => isValidImageType post
                                && negb (isPostBlacklisted (currentBlacklist (settings st)) post))
         newPosts.
Proof.
  intros Hl Hlo.
  pose proof (fetchAndRender_outcome reset true (RespList newPosts) st Hl) as Ho.
  cbv zeta in Ho. rewrite Hlo in Ho. destruct Ho as [Hp _]. split; [done|].
  unfold loaded_posts in Hlo. destruct (search_tags st); [|done].
  destruct (_ && reset); [done|]. injection Hlo as <-.
  apply filter_ext. intros post. unfold isPostFiltered.
  by destruct (isValidImageType post), (isPostBlacklisted _ post).
Qed.

Lemma fetchAndRender_failure reset isNetworkConnected resp st :
  isLoading st = false ->
  loaded_posts reset isNetworkConnected resp st = None ->
  imageGrid (fetchAndRender reset isNetworkConnected resp st)
  = [failure_status isNetworkConnected resp st].
Proof.
  intros Hl Hlo. unfold fetchAndRender, loaded_posts, failure_status in *.
  destruct (fetchAndRender_begin_spec reset st Hl)
    as (st1 & -> & Hp & Hc & _ & Hs & Hf & _).
  unfold fetchAndRender_checked.
  destruct isNetworkConnected; cbn [negb]; [|done].
  rewrite (search_tags_frame st (set_tagHintShown _ st1)) by done.
  destruct (search_tags st) as [q|]; [|done].
  unfold fetchAndRender_response.
  destruct resp as [newPosts| |]; [|done|done].
  cbn [send set_requests set_tagHintShown settings]. rewrite Hs.
  by destruct ((length _ =? 0)%nat && reset).
Qed.

(** X8: a load that ends before the append step replaces the whole
    grid by one status line that tells why (network, invalid filter
    date, bad response, failed request, no results on a first page),
    and [posts] holds what the load started from. *)
Theorem fetchAndRender_failure_state
    (reset isNetworkConnected : bool) (resp : PostsResponse) (st : State) :
  isLoading st = false ->
  loaded_posts reset isNetworkConnected resp st = None ->
  let st' := fetchAndRender reset isNetworkConnected resp st in
  imageGrid st' = [failure_status isNetworkConnected resp st]
  /\ posts st' = base_posts reset st
  /\ selected_wrappers (imageGrid st') = []
  /\ selection_data st' = selection_data st.
Proof.
  intros Hl Hlo st'.
  pose proof (fetchAndRender_outcome reset isNetworkConnected resp st Hl) as Ho.
  cbv zeta in Ho. rewrite Hlo in Ho. destruct Ho as [Hp _].
  pose proof (fetchAndRender_failure reset isNetworkConnected resp st Hl Hlo) as Hg.
  split; [done|]. split; [done|]. split.
  - subst st'. rewrite Hg. unfold failure_status. by repeat case_match.
  - subst st'. clear Hg Hp. unfold fetchAndRender, loaded_posts in *.
    destruct (fetchAndRender_begin_spec reset st Hl)
      as (st1 & -> & _ & _ & _ & Hs & Hf & _ & _ & Hsel & _).
    unfold fetchAndRender_checked.
    destruct isNetworkConnected; cbn [negb]; [|done].
    rewrite (search_tags_frame st (set_tagHintShown _ st1)) in * by done.
    destruct (search_tags st) as [q|]; [|done].
    unfold fetchAndRender_response.
    destruct resp as [newPosts| |]; [|done|done].
    cbn [send set_requests set_tagHintShown settings] in *. rewrite Hs.
    by destruct ((length _ =? 0)%nat && reset).
Qed.

(** X9: a load sends the probe and then at most one posts request: none
    when the probe fails or a filter date cannot be formatted, else one
    for the page the load started from, with limit 100. *)
Theorem fetchAndRender_requests
    (reset isNetworkConnected : bool) (resp : PostsResponse) (st : State) :
  isLoading st = false ->
  requests (fetchAndRender reset isNetworkConnected resp st)
  = requests st ++ ReqCheckNetwork :: posts_requests reset isNetworkConnected st.
Proof.
  intros Hl. unfold fetchAndRender, posts_requests.
  destruct (fetchAndRender_begin_spec reset st Hl)
    as (st1 & -> & _ & Hc & Hr & Hs & Hf & _).
  unfold fetchAndRender_checked.
  destruct isNetworkConnected; cbn [negb]; [|done].
  rewrite (search_tags_frame st (set_tagHintShown _ st1)) by done.
  destruct (search_tags st) as [q|]; [|done].
  assert (forall st2 : State,
             requests st2 = requests st ++ [ReqCheckNetwork;
                                            ReqPosts q (rating (settings st)) (lit "100")
                                              (base_page reset st)] ->
             requests (fetchAndRender_response reset resp st2)
             = requests st ++ [ReqCheckNetwork;
                               ReqPosts q (rating (settings st)) (lit "100")
                                 (base_page reset st)]) as Hresp.
  { intros st2 H2. unfold fetchAndRender_response.
    destruct resp as [newPosts| |]; [|done|done].
    case_match; [done|].
    cbn [fetch_finally set_imageGrid set_refreshLoading set_isLoading requests].
    match goal with
    | |- context [foldl renderPost ?s ?l] =>
        destruct (foldl_renderPost_frame l s) as (_ & _ & _ & _ & _ & _ & _ & Hfr & _)
    end.
    cbv zeta in Hfr. by rewrite Hfr. }
  apply Hresp. cbn [send set_requests set_tagHintShown requests settings currentPage].
  by rewrite Hr, Hs, Hc, <- app_assoc.
Qed.

(** X10: a snapshot is taken at first sight and kept: a page load never
    changes a snapshot that exists, and every appended post that gets a
    wrapper has one afterwards. *)
Theorem fetchAndRender_snapshots
    (reset isNetworkConnected : bool) (resp : PostsResponse) (st : State) :
  let st' := fetchAndRender reset isNetworkConnected resp st in
  (forall postId original,
     originalPostCache st !! postId = Some original ->
     originalPostCache st' !! postId = Some original)
  /\ (forall filteredPosts post,
        isLoading st = false ->
        loaded_posts reset isNetworkConnected resp st = Some filteredPosts ->
        post ∈ filteredPosts -> renderable post = true ->
        is_Some (originalPostCache st' !! p_id post)).
Proof.
  intros st'. subst st'. unfold fetchAndRender.
  destruct (isLoading st) eqn:Hl.
  { unfold fetchAndRender_begin. rewrite Hl. split; [done|]. intros; done. }
  destruct (fetchAndRender_begin_spec reset st Hl)
    as (st1 & -> & _ & _ & _ & Hs & Hf & Ho & _).
  unfold fetchAndRender_checked, loaded_posts.
  destruct isNetworkConnected; cbn [negb]; [|by rewrite <- Ho].
  rewrite (search_tags_frame st (set_tagHintShown _ st1)) by done.
  destruct (search_tags st) as [q|]; [|by rewrite <- Ho].
  unfold fetchAndRender_response.
  destruct resp as [newPosts| |]; [|by rewrite <- Ho|by rewrite <- Ho].
  cbn [send set_requests set_tagHintShown settings]. rewrite Hs.
  destruct ((length _ =? 0)%nat && reset); [by rewrite <- Ho|].
  cbn [fetch_finally set_imageGrid set_refreshLoading set_isLoading originalPostCache].
  match goal with
  | |- context [foldl renderPost ?s ?l] =>
      destruct (foldl_renderPost_snapshot l s) as [Hkeep Hnew]
  end.
  cbv zeta in Hkeep, Hnew. split.
  - intros postId original Horig. apply Hkeep. simpl. by rewrite Ho.
  - intros filteredPosts post _ [= <-] Hin Hr. by apply Hnew.
Qed.

End LoadTheorems.

Lemma fetchAndRender_cursor_witness :
  let st := with_search "1girl" initial_state in
  currentPage (@fetchAndRender utc_builtins true true (RespList three_posts) st) = 2%Z
  /\ currentPage (@fetchAndRender utc_builtins true true RespNotList st) = 1%Z
  /\ currentPage (@fetchAndRender utc_builtins true false (RespList three_posts) st) = 1%Z
  /\ currentPage (@fetchAndRender utc_builtins true true (RespList []) st) = 1%Z
  /\ currentPage (@fetchAndRender utc_builtins false true (RespList []) st) = 2%Z
  /\ posts (@fetchAndRender utc_builtins false true (RespList []) st) = posts st.
Proof.
  intros st. split_and!.
  - by rewrite (@fetchAndRender_cursor utc_builtins true true (RespList three_posts) st).
  - by rewrite (@fetchAndRender_cursor utc_builtins true true RespNotList st).
  - by rewrite (@fetchAndRender_cursor utc_builtins true false (RespList three_posts) st).
  - by rewrite (@fetchAndRender_cursor utc_builtins true true (RespList []) st).
  - by rewrite (@fetchAndRender_cursor utc_builtins false true (RespList []) st).
  - by vm_compute.
Defined.

Lemma fetchAndRender_appends_filtered_witness :
  let st := with_blacklist ["gore"%string] (with_search "1girl" initial_state) in
  map p_id (posts (@fetchAndRender utc_builtins true true (RespList three_posts) st))
  = [1; 3].
Proof.
  intros st.
  destruct (@fetchAndRender_appends_filtered utc_builtins true three_posts
              [sample_post 1 "https://cdn.example/1.png" "1girl smile";
               sample_post 3 "https://cdn.example/3.webp" "landscape"] st) as [-> _];
    by vm_compute.
Defined.

Lemma fetchAndRender_failure_state_witness :
  let st := set_posts three_posts (with_search "1girl" initial_state) in
  let st' := @fetchAndRender utc_builtins false false RespFailure st in
  imageGrid st' = [ErrorStatus ErrNetwork] /\ posts st' = three_posts.
Proof.
  intros st st'.
  destruct (@fetchAndRender_failure_state utc_builtins false false RespFailure st)
    as (Hg & Hp & _); by vm_compute.
Defined.

Lemma fetchAndRender_requests_witness :
  let st := with_search "1girl, solo" initial_state in
  requests (@fetchAndRender utc_builtins true true (RespList three_posts) st)
  = [ReqCheckNetwork; ReqPosts (lit "1girl solo") [] (lit "100") 1]
  /\ requests (@fetchAndRender utc_builtins true false (RespList three_posts) st)
     = [ReqCheckNetwork].
Proof.
  intros st. split.
  - by rewrite (@fetchAndRender_requests utc_builtins true true (RespList three_posts) st).
  - by rewrite (@fetchAndRender_requests utc_builtins true false (RespList three_posts) st).
Defined.

Lemma fetchAndRender_snapshots_witness :
  let first := sample_post 1 "https://cdn.example/1.png" "1girl" in
  let st := renderPost (with_search "1girl" initial_state) first in
  let st' := @fetchAndRender utc_builtins true true (RespList three_posts) st in
  originalPostCache st' !! 1 = Some first
  /\ is_Some (originalPostCache st' !! 3).
Proof.
  intros first st st'.
  destruct (@fetchAndRender_snapshots utc_builtins true true (RespList three_posts) st)
    as [Hkeep Hnew].
  split.
  - apply Hkeep. by vm_compute.
  - apply (Hnew [sample_post 1 "https://cdn.example/1.png" "1girl smile";
                 sample_post 2 "https://cdn.example/2.jpg" "1boy Gore";
                 sample_post 3 "https://cdn.example/3.webp" "landscape"]
             (sample_post 3 "https://cdn.example/3.webp" "landscape")).
    + reflexivity.
    + by vm_compute.
    + repeat constructor.
    + reflexivity.
Defined.

(** ** The filter dialog *)

Lemma fetchAndRender_begin_filter_frame reset st :
  let st' := state_of (fetchAndRender_begin reset st) in
  filterState st' = filterState st /\ filter_data st' = filter_data st
  /\ storedFilterData st' = storedFilterData st
  /\ filterButtonActive st' = filterButtonActive st
  /\ toasts st' = toasts st.
Proof.
  unfold fetchAndRender_begin. destruct (isLoading st); [done|].
  destruct reset, (existsb is_loading_item _); done.
Qed.

Lemma parseInt10_nil : parseInt10 [] = None.
Proof. reflexivity. Qed.

Section FilterDialogProperties.
Context `{Builtins}.

Lemma applyButton_commits (dlg : FilterDialog) (st : State) (o : Outcome) :
  applyButton_onclick dlg st = Applied o ->
  exists fs0,
    o = commit_filter fs0 st
    /\ (is_Some (startPage fs0) -> startTime fs0 = Null /\ endTime fs0 = Null)
    /\ (forall n, startPage fs0 = Some n -> (1 <= n)%Z).
Proof.
  intros Ha. unfold applyButton_onclick in Ha. destruct (selectedType dlg).
  - case_match; [done|]. injection Ha as <-. eexists. split; [reflexivity|].
    simpl. split; [by intros [? ?]|done].
  - destruct (nonempty (startPageInput dlg)) eqn:Hne.
    + destruct (parseInt10 (startPageInput dlg)) as [n|] eqn:Hn; [|done].
      simpl in Ha. destruct (n <? 1)%Z eqn:Hlt; [done|]. injection Ha as <-.
      eexists. split; [reflexivity|]. simpl. split; [done|].
      intros ? [= <-]. by apply Z.ltb_ge.
    + simpl in Ha. injection Ha as <-. eexists. split; [reflexivity|].
      destruct (startPageInput dlg); [|done]. rewrite parseInt10_nil. simpl.
      split; [by intros [? ?]|done].
Qed.

(** X11: whenever the apply button accepts its inputs, the stored
    filter is a time range or a start page, never both; a stored start
    page is at least 1; and the hidden widget, the local storage entry
    and the state of the filter button all agree with it. The reset
    button leaves the empty filter, mirrored in the same way. *)
Theorem applyButton_filter_invariant (dlg : FilterDialog) (st : State) (o : Outcome) :
  applyButton_onclick dlg st = Applied o ->
  let fs := filterState (state_of o) in
  (is_Some (startPage fs) -> startTime fs = Null /\ endTime fs = Null)
  /\ (forall n, startPage fs = Some n -> (1 <= n)%Z)
  /\ filter_data (state_of o) = fs
  /\ storedFilterData (state_of o) = Some fs
  /\ filterButtonActive (state_of o) = filter_active fs
  /\ filterState (state_of (resetButton_onclick st)) = no_filter
  /\ filter_data (state_of (resetButton_onclick st)) = no_filter
  /\ storedFilterData (state_of (resetButton_onclick st)) = Some no_filter
  /\ filterButtonActive (state_of (resetButton_onclick st)) = false.
Proof.
  intros Ha fs.
  destruct (applyButton_commits dlg st o Ha) as (fs0 & -> & Hex & Hge).
  subst fs. unfold commit_filter, resetButton_onclick.
  match goal with
  | |- context [fetchAndRender_begin true ?s] =>
      destruct (fetchAndRender_begin_filter_frame true s) as (-> & -> & -> & -> & _)
  end.
  match goal with
  | |- context [fetchAndRender_begin true ?s] =>
      destruct (fetchAndRender_begin_filter_frame true s) as (-> & -> & -> & -> & _)
  end.
  done.
Qed.

(** X12: an accepted filter reloads from the filter's start page when
    no load is in flight: the posts are cleared, the cursor is the start
    page (or 1), and the probe is sent. While a load is in flight the
    filter is stored but nothing is reloaded. *)
Theorem applyButton_reload (dlg : FilterDialog) (st : State) (o : Outcome) :
  applyButton_onclick dlg st = Applied o ->
  if isLoading st then
    o = Returned (state_of o)
    /\ posts (state_of o) = posts st /\ currentPage (state_of o) = currentPage st
    /\ requests (state_of o) = requests st
  else
    o = Awaiting (state_of o)
    /\ posts (state_of o) = []
    /\ currentPage (state_of o)
       = match startPage (filterState (state_of o)) with
         | Some n => n
         | None => 1%Z
         end
    /\ requests (state_of o) = requests st ++ [ReqCheckNetwork].
Proof.
  intros Ha.
  destruct (applyButton_commits dlg st o Ha) as (fs0 & -> & _ & Hge).
  unfold commit_filter in *.
  set (st0 := set_filterButtonActive _ _) in *.
  assert (isLoading st0 = isLoading st) as Hl0 by reflexivity.
  assert (filterState st0 = fs0) as Hf0 by reflexivity.
  destruct (isLoading st) eqn:Hl.
  - unfold fetchAndRender_begin. by rewrite Hl0.
  - destruct (fetchAndRender_begin_spec true st0 Hl0)
      as (st1 & Hb & Hp & Hc & Hr & _ & Hf & _).
    rewrite Hb in *. simpl. rewrite Hp, Hc, Hr, Hf.
    split; [done|]. split; [done|]. split; [|done].
    unfold base_page. rewrite Hf0.
    destruct (startPage fs0) as [n|] eqn:Hn; [|done].
    specialize (Hge n eq_refl).
    by rewrite (proj2 (Z.eqb_neq n 0)) by lia.
Qed.

End FilterDialogProperties.

Lemma applyButton_filter_invariant_witness :
  let dlg := {| selectedType := ByPage;
                startTimeInput := lit "2024-03-01T10:00";
                endTimeInput := [];
                startPageInput := lit "5" |} in
  let st := set_filterState
              {| startTime := Str (lit "2024-01-01T00:00"); endTime := Null; startPage := None |}
              initial_state in
  exists o,
    @applyButton_onclick utc_builtins dlg st = Applied o
    /\ filterState (state_of o) = {| startTime := Null; endTime := Null; startPage := Some 5%Z |}
    /\ filter_data (state_of o) = filterState (state_of o)
    /\ filterButtonActive (state_of o) = true.
Proof.
  intros dlg st. eexists. split; [reflexivity|].
  match goal with
  | |- context [state_of ?o] =>
      destruct (@applyButton_filter_invariant utc_builtins dlg st o eq_refl)
        as (_ & _ & Hw & _ & Hb & _)
  end.
  split; [reflexivity|]. split; [exact Hw|]. rewrite Hb. reflexivity.
Defined.

Lemma applyButton_reload_witness :
  let dlg := {| selectedType := ByPage;
                startTimeInput := [];
                endTimeInput := [];
                startPageInput := lit "5" |} in
  let st := set_posts three_posts initial_state in
  exists o,
    @applyButton_onclick utc_builtins dlg st = Applied o
    /\ posts (state_of o) = [] /\ currentPage (state_of o) = 5%Z
    /\ requests (state_of o) = [ReqCheckNetwork].
Proof.
  intros dlg st. eexists. split; [reflexivity|].
  match goal with
  | |- context [state_of ?o] =>
      pose proof (@applyButton_reload utc_builtins dlg st o eq_refl) as Hr
  end.
  change (isLoading st) with false in Hr. cbv iota in Hr.
  destruct Hr as (_ & Hp & Hc & Hr). split; [exact Hp|]. split; [|exact Hr].
  rewrite Hc. reflexivity.
Defined.

(** ** Selection in multi-select mode *)

Section MultiSelect.
Context `{Builtins}.

(** X13: in multi-select mode a click flips the clicked image and no
    other, the payload is rebuilt from the images then selected, and a
    second click on the same image restores the grid. *)
Theorem img_onclick_multi_select (i : nat) (wrapper : Wrapper) (st : State) :
  multi_select_enabled (settings st) = true ->
  imageGrid st !! i = Some (Item wrapper) ->
  let st' := img_onclick i st in
  imageGrid st'
  = <[i := Item (mark_selected (negb (w_selected wrapper)) wrapper)]> (imageGrid st)
  /\ selection_data st'
     = WSelections (flat_map (selection_of st) (selected_wrappers (imageGrid st')))
  /\ imageGrid (img_onclick i st') = imageGrid st.
Proof.
  intros Hm Hi st'.
  assert (forall s w, multi_select_enabled (settings s) = true ->
                      imageGrid s !! i = Some (Item w) ->
                      img_onclick i s
                      = updateSelectionData
                          (set_imageGrid
                             (<[i := Item (mark_selected (negb (w_selected w)) w)]>
                                (imageGrid s)) s)) as Hclick.
  { intros s w Hs Hw. unfold img_onclick. by rewrite Hw, Hs. }
  assert (imageGrid st'
          = <[i := Item (mark_selected (negb (w_selected wrapper)) wrapper)]> (imageGrid st))
    as Hg.
  { subst st'. rewrite (Hclick st wrapper Hm Hi).
    by destruct (updateSelectionData_spec
                   (set_imageGrid
                      (<[i := Item (mark_selected (negb (w_selected wrapper)) wrapper)]>
                         (imageGrid st)) st)) as [_ ->]. }
  split; [done|]. split.
  - subst st'. rewrite (Hclick st wrapper Hm Hi).
    match goal with
    | |- context [updateSelectionData ?s] =>
        destruct (updateSelectionData_spec s) as [-> ->]
    end.
    done.
  - assert (settings st' = settings st) as Hs.
    { subst st'. rewrite (Hclick st wrapper Hm Hi).
      unfold updateSelectionData, updateSelectionCount. by case_match. }
    assert (imageGrid st' !! i
            = Some (Item (mark_selected (negb (w_selected wrapper)) wrapper))) as Hi'.
    { rewrite Hg. apply list_lookup_insert_eq. by eapply lookup_lt_Some. }
    rewrite (Hclick st' _ (eq_trans (f_equal multi_select_enabled Hs) Hm) Hi').
    match goal with
    | |- context [updateSelectionData ?s] =>
        destruct (updateSelectionData_spec s) as [_ ->]
    end.
    cbn [set_imageGrid imageGrid mark_selected w_selected].
    rewrite Hg, list_insert_insert_eq.
    replace (mark_selected (negb (negb (w_selected wrapper)))
               (mark_selected (negb (w_selected wrapper)) wrapper))
      with wrapper by (by destruct wrapper as [? [] ?]).
    by apply list_insert_id.
Qed.

(** X14: the payload lists the selected images in grid order, one
    entry for each whose post data is found: the ids of its entries are
    a sublist of the ids of the selected wrappers, and the count badge
    shows their number only in multi-select mode. *)
Theorem updateSelectionData_entries (st : State) :
  exists selections,
    selection_data (updateSelectionData st) = WSelections selections
    /\ sublist (map sel_post_id selections)
         (map w_postId (selected_wrappers (imageGrid st)))
    /\ selectionCount (updateSelectionData st)
       = (if (0 <? length selections)%nat && multi_select_enabled (settings st)
          then Some (length selections) else None)
    /\ imageGrid (updateSelectionData st) = imageGrid st.
Proof.
  eexists. split; [apply updateSelectionData_spec|]. split; [|split].
  - induction (selected_wrappers (imageGrid st)) as [|w ws IH]; [done|].
    cbn [flat_map map]. rewrite map_app.
    unfold selection_of at 1. case_match; simpl.
    + by apply sublist_skip.
    + by apply sublist_cons.
  - unfold updateSelectionData, updateSelectionCount.
    cbn [set_selection_data settings].
    by destruct ((0 <? _)%nat && multi_select_enabled (settings st)).
  - apply updateSelectionData_spec.
Qed.

(** X15: the clear button deselects every image and writes
    [{selections: []}]; the count badge is hidden, and the images in the
    grid are otherwise the same. *)
Theorem clearAllSelections_clears (st : State) :
  let st' := clearAllSelections st in
  selected_wrappers (imageGrid st') = []
  /\ selection_data st' = WSelections []
  /\ selectionCount st' = None
  /\ imageGrid st' = map (map_wrapper (mark_selected false)) (imageGrid st)
  /\ posts st' = posts st /\ temporaryTagEdits st' = temporaryTagEdits st.
Proof.
  intros st'. subst st'. unfold clearAllSelections.
  assert (forall g, selected_wrappers (map (map_wrapper (mark_selected false)) g) = [])
    as Hnone.
  { intros g. induction g as [|it g IH]; [done|].
    cbn [map]. rewrite selected_wrappers_cons, IH. by destruct it. }
  destruct (updateSelectionData_spec
              (set_imageGrid (map (map_wrapper (mark_selected false)) (imageGrid st)) st))
    as [Hd Hg].
  cbn [set_imageGrid imageGrid] in Hd, Hg. rewrite Hnone in Hd.
  rewrite Hg, Hd, Hnone.
  split; [done|]. split; [done|]. split; [|split; [done|]];
    unfold updateSelectionData, updateSelectionCount;
    cbn [set_imageGrid imageGrid]; rewrite Hnone; done.
Qed.

End MultiSelect.

Lemma img_onclick_multi_select_witness :
  let st := with_multi_select true
              (foldl renderPost (set_posts three_posts initial_state) three_posts) in
  let st' := @img_onclick utc_builtins 2 (@img_onclick utc_builtins 0 st) in
  map w_postId (selected_wrappers (imageGrid st')) = [1; 3]
  /\ imageGrid (@img_onclick utc_builtins 2 st') = imageGrid (@img_onclick utc_builtins 0 st).
Proof.
  intros st st'. split; [by vm_compute|].
  destruct (@img_onclick_multi_select utc_builtins 2
              {| w_postId := 3; w_selected := false; w_edited := false |}
              (@img_onclick utc_builtins 0 st)) as (_ & _ & Hback).
  - reflexivity.
  - reflexivity.
  - exact Hback.
Defined.

(** ** Closing the edit panel *)

Lemma findIndex_from_spec postId k l p :
  List.find (fun p => p_id p =? postId) l = Some p ->
  exists i, findIndex_from postId k l = Some (k + i)%nat /\ l !! i = Some p.
Proof.
  revert k. induction l as [|x l IH]; intros k; [done|]. simpl.
  destruct (p_id x =? postId).
  - intros [= ->]. exists 0%nat. by rewrite Nat.add_0_r.
  - intros Hf. destruct (IH (S k) Hf) as (i & Hi & Hl).
    exists (S i). by rewrite <- Nat.add_succ_comm.
Qed.

Lemma findIndex_spec postId l p :
  find_post postId l = Some p ->
  exists i, findIndex postId l = Some i /\ l !! i = Some p.
Proof. apply (findIndex_from_spec postId 0). Qed.




Lemma createPostElement_frame post st :
  let st' := fst (createPostElement post st) in
  posts st' = posts st /\ temporaryTagEdits st' = temporaryTagEdits st
  /\ imageGrid st' = imageGrid st /\ settings st' = settings st
  /\ selection_data st' = selection_data st
  /\ (is_Some (originalPostCache st !! p_id post) ->
      originalPostCache st' = originalPostCache st)
  /\ (forall postId o, originalPostCache st !! postId = Some o ->
                       originalPostCache st' !! postId = Some o).
Proof.
  unfold createPostElement. destruct (_ || _); [done|].
  destruct (originalPostCache st !! p_id post) as [o|] eqn:Ho; simpl.
  - done.
  - split_and!; try done.
    intros postId o Hl. rewrite lookup_insert_ne; [done|]. congruence.
Qed.

Lemma selected_wrappers_none g :
  Forall (fun it => match it with Item w => w_selected w = false | _ => True end) g ->
  selected_wrappers g = [].
Proof.
  induction 1 as [|it g Hit _ IH]; [done|].
  rewrite selected_wrappers_cons, IH. destruct it; try done. by rewrite Hit.
Qed.


Lemma diff_equal_hasActualEdits st postId original edited :
  originalPostCache st !! postId = Some original ->
  temporaryTagEdits st !! postId = Some edited ->
  diff_equal original edited ->
  hasActualEdits st postId = false.
Proof.
  intros Ho He [Hc Hf]. unfold hasActualEdits. rewrite Ho, He.
  unfold categories. cbn [existsb]. by rewrite !Hc, Hf.
Qed.

Section ClosePanelProperties.
Context `{Builtins}.

(** What [closePanel] does to the cache and the overlay once the entry
    to redraw is known: only the grid and the widget change after that
    point. *)
Lemma closePanel_tail post wasSelectedOnOpen st0 postToUpdate st oldPostElement :
  closePanel_redraw post wasSelectedOnOpen postToUpdate oldPostElement st0 = st ->
  posts st = posts st0 /\ temporaryTagEdits st = temporaryTagEdits st0
  /\ (is_Some (originalPostCache st0 !! p_id postToUpdate) ->
      originalPostCache st = originalPostCache st0)
  /\ (wasSelectedOnOpen = false ->
      selection_data st = WEmpty /\ selected_wrappers (imageGrid st) = []).
Proof.
  unfold closePanel_redraw.
  pose proof (createPostElement_frame postToUpdate st0) as Hf. cbv zeta in Hf.
  destruct (createPostElement postToUpdate st0) as [st1 newPostElement].
  cbn [fst] in Hf. destruct Hf as (Hp & Ht & _ & _ & _ & Ho & _).
  destruct (place_element newPostElement oldPostElement (imageGrid st1))
    as [grid newIndex].
  intros <-.
  assert (forall g : list GridItem,
             Forall (fun it => match it with
                               | Item w => w_selected w = false
                               | _ => True
                               end) (map (map_wrapper (mark_selected false)) g)) as Hdes.
  { intros g. apply Forall_map, Forall_forall. by intros [| | |w] _. }
  destruct wasSelectedOnOpen, newIndex as [i|]; cbn -[alter]; split_and!; try done.
  - intros _. split; [done|]. apply selected_wrappers_none.
    rewrite Forall_forall. intros it Hit.
    apply list_elem_of_lookup in Hit as [j Hj].
    rewrite list_lookup_alter in Hj.
    pose proof (Hdes grid) as Hd. rewrite Forall_forall in Hd.
    case_decide.
    + subst j. destruct (map _ grid !! i) as [it'|] eqn:Hi; simplify_eq/=.
      assert (it' ∈ map (map_wrapper (mark_selected false)) grid) as Hin
          by (apply list_elem_of_lookup; eauto).
      apply Hd in Hin. by destruct it'.
    + apply Hd, list_elem_of_lookup. eauto.
  - intros _. split; [done|]. by apply selected_wrappers_none.
Qed.

Lemma find_post_id postId l p : find_post postId l = Some p -> p_id p = postId.
Proof.
  unfold find_post. intros Hf. apply find_some in Hf as [_ Hp]. by apply N.eqb_eq.
Qed.

Lemma showEditPanel_frame post st :
  posts (showEditPanel post st) = posts st
  /\ originalPostCache (showEditPanel post st) = originalPostCache st
  /\ temporaryTagEdits (showEditPanel post st)
     = match temporaryTagEdits st !! p_id post with
       | Some _ => temporaryTagEdits st
       | None => <[p_id post := deep_copy post]> (temporaryTagEdits st)
       end.
Proof.
  unfold showEditPanel, getOrCreateWorkingCopy.
  destruct (find_wrapper w_selected (imageGrid st));
    destruct (find_wrapper (fun w => w_postId w =? p_id post) _);
    cbn [set_selection_data set_imageGrid temporaryTagEdits];
    destruct (temporaryTagEdits st !! p_id post); done.
Qed.

(** X16: opening the panel for a post whose cache entry is diff-equal
    to its snapshot and closing it without an edit leaves the posts, the
    snapshots and the overlay as they were: the working copy made on
    opening is discarded, and the post is not marked edited. *)
Theorem showEditPanel_closePanel_unedited
    (post cur original : Post) (wasSelectedOnOpen : bool) (st : State) :
  find_post (p_id post) (posts st) = Some cur ->
  temporaryTagEdits st !! p_id post = None ->
  originalPostCache st !! p_id post = Some original ->
  diff_equal original post ->
  exists st',
    closePanel post wasSelectedOnOpen (showEditPanel post st) = Some st'
    /\ posts st' = posts st
    /\ temporaryTagEdits st' = temporaryTagEdits st
    /\ originalPostCache st' = originalPostCache st
    /\ updateEditedStatus st' (p_id post) = false.
Proof.
  intros Hfind Hnone Horig Hdiff.
  destruct (showEditPanel_frame post st) as (Hp & Ho & Ht). rewrite Hnone in Ht.
  set (st1 := showEditPanel post st) in *.
  destruct (findIndex_spec _ _ _ Hfind) as (i & Hi & Hli).
  assert (hasActualEdits st1 (p_id post) = false) as Hno.
  { eapply diff_equal_hasActualEdits.
    - by rewrite Ho.
    - rewrite Ht. apply lookup_insert_eq.
    - by rewrite deep_copy_id. }
  unfold closePanel. rewrite Hp, Hfind, Hno.
  cbn [set_temporaryTagEdits posts imageGrid]. rewrite Hp, Hi. cbn [mbind option_bind].
  rewrite Hli.
  eexists. split; [reflexivity|].
  match goal with
  | |- context [closePanel_redraw ?a ?b ?c ?d ?e] =>
      destruct (closePanel_tail a b e c _ d eq_refl) as (Hp' & Ht'' & Ho' & _)
  end.
  assert (temporaryTagEdits
            (set_temporaryTagEdits (delete (p_id post) (temporaryTagEdits st1)) st1)
          = temporaryTagEdits st) as Hback.
  { cbn [set_temporaryTagEdits temporaryTagEdits]. rewrite Ht.
    by apply delete_insert_id. }
  split_and!.
  - by rewrite Hp'.
  - by rewrite Ht''.
  - rewrite Ho'; [done|].
    cbn [set_temporaryTagEdits originalPostCache].
    rewrite (find_post_id _ _ _ Hfind), Ho. eauto.
  - apply updateEditedStatus_no_copy. by rewrite Ht'', Hback.
Qed.


(** X18: a click on the backdrop closes the panel with no selection
    flag: whatever was selected, no image is selected afterwards and the
    widget holds [{}]. *)
Theorem closePanel_backdrop_clears_selection (post cur : Post) (st st' : State) :
  find_post (p_id post) (posts st) = Some cur ->
  closePanel post false st = Some st' ->
  selection_data st' = WEmpty /\ selected_wrappers (imageGrid st') = [].
Proof.
  intros Hfind Hc. unfold closePanel in Hc. rewrite Hfind in Hc.
  destruct (findIndex _ _ ≫= _) as [postToUpdate|]; [|done].
  injection Hc as Hc.
  apply closePanel_tail in Hc as (_ & _ & _ & Hsel). by apply Hsel.
Qed.

End ClosePanelProperties.

(** ** Editing tags *)

Lemma split_join_sep sep cur x rest :
  Forall (Forall (fun c => c <> sep)) (x :: rest) ->
  split_go sep cur (join [sep] (x :: rest)) = (rev cur ++ x) :: rest.
Proof.
  revert cur x. induction rest as [|y rest IH]; intros cur x Hall.
  - simpl. rewrite <- (app_nil_r x) at 1.
    rewrite split_go_piece by (by inversion Hall). simpl.
    by rewrite rev_app_distr, rev_involutive.
  - change (join [sep] (x :: y :: rest)) with (x ++ sep :: join [sep] (y :: rest)).
    inversion Hall as [|? ? Hx Hrest]; subst.
    rewrite split_go_piece by done. cbn [split_go]. rewrite N.eqb_refl.
    rewrite rev_app_distr, rev_involutive, (IH [] y Hrest). done.
Qed.

Lemma split_join sep l :
  l <> [] -> Forall (Forall (fun c => c <> sep)) l -> split sep (join [sep] l) = l.
Proof.
  intros Hne Hl. destruct l as [|x l]; [done|].
  unfold split. by rewrite split_join_sep.
Qed.

Lemma ws_free_no_space x : ws_free x -> Forall (fun c => c <> 32) x.
Proof.
  unfold ws_free. intros Hx. eapply Forall_impl; [exact Hx|].
  intros c Hc ->. done.
Qed.

Lemma tokens_no_space l : Forall is_token l -> Forall (Forall (fun c => c <> 32)) l.
Proof.
  intros Hl. eapply Forall_impl; [exact Hl|].
  intros x [_ Hx]. by apply ws_free_no_space.
Qed.

Lemma join_tokens_nonempty l :
  l <> [] -> Forall is_token l -> nonempty (join [32] l) = true.
Proof.
  intros Hne Hl. destruct l as [|x l]; [done|].
  inversion Hl as [|? ? [Hx _] _]; subst.
  destruct l; simpl; by destruct x.
Qed.

Lemma remove_first_perm t l l' : remove_first t l = Some l' -> l ≡ₚ t :: l'.
Proof.
  revert l'. induction l as [|x l IH]; intros l'; [done|]. simpl.
  unfold str_eqb. case_bool_decide as Hx.
  - intros [= <-]. by subst.
  - destruct (remove_first t l) as [r|]; [|done]. intros [= <-].
    rewrite (IH r eq_refl). apply perm_swap.
Qed.

Lemma remove_first_in t l : t ∈ l -> is_Some (remove_first t l).
Proof.
  induction 1 as [x l|x y l Hin IH]; simpl; unfold str_eqb.
  - rewrite bool_decide_eq_true_2 by done. eauto.
  - case_bool_decide; [eauto|]. destruct IH as [r ->]. eauto.
Qed.

Lemma includes_false t l : t ∉ l -> includes t l = false.
Proof.
  intros Hn. unfold includes. apply not_true_is_false. intros Hex.
  apply existsb_exists in Hex as (x & Hin & Hx).
  apply bool_decide_eq_true in Hx as <-. by apply Hn, list_elem_of_In.
Qed.

Lemma includes_true t l : t ∈ l -> includes t l = true.
Proof.
  intros Hin. unfold includes. apply existsb_exists. exists t.
  split; [by apply list_elem_of_In | by apply bool_decide_eq_true].
Qed.

Lemma token_trim t : is_token t -> trim t = t.
Proof.
  intros [Hne Hws]. destruct t as [|a m]; [done|].
  destruct (last (a :: m)) as [z|] eqn:Hz; [|by apply last_None in Hz].
  eapply trim_id; [done|exact Hz| |].
  - by inversion Hws.
  - unfold ws_free in Hws. rewrite Forall_forall in Hws. apply Hws.
    apply last_Some in Hz as [m' ->]. apply elem_of_app. right. by left.
Qed.

Lemma ws_each_to_underscore_token t : ws_free t -> ws_each_to_underscore t = t.
Proof.
  induction 1 as [|c t Hc _ IH]; [done|].
  unfold ws_each_to_underscore in *. simpl. by rewrite Hc, IH.
Qed.

Lemma set_tag_string_of_twice c v v' e :
  set_tag_string_of c v' (set_tag_string_of c v e) = set_tag_string_of c v' e.
Proof. by destruct c. Qed.

Lemma tag_string_of_set_same c v e : tag_string_of (set_tag_string_of c v e) c = v.
Proof. by destruct c. Qed.

(** Deleting a token of a tag string and adding it back gives the same
    tokens in another order. *)
Lemma deleteTag_addTag c t l e :
  tag_string_of e c = Str (join [32] l) ->
  Forall is_token l -> NoDup l -> t ∈ l ->
  exists l', l ≡ₚ l' ++ [t]
             /\ addTag c t (deleteTag c t e)
                = set_tag_string_of c (Str (join [32] (l' ++ [t]))) e.
Proof.
  intros Hf Hl Hnd Hin.
  assert (l <> []) as Hne by (intros ->; by apply elem_of_nil in Hin).
  destruct (remove_first_in t l Hin) as [l' Hrem].
  pose proof (remove_first_perm t l l' Hrem) as Hperm.
  exists l'. split; [by rewrite Hperm, Permutation_cons_append|].
  assert (is_token t) as Ht by (rewrite Forall_forall in Hl; by apply Hl).
  assert (Forall is_token l' /\ t ∉ l') as [Hl' Hnin].
  { rewrite Hperm in Hl, Hnd. apply Forall_cons in Hl as [_ ?].
    apply NoDup_cons in Hnd as [? _]. done. }
  unfold deleteTag. rewrite Hf. cbn [truthy str_of].
  rewrite (join_tokens_nonempty l Hne Hl), (split_join 32 l Hne (tokens_no_space l Hl)), Hrem.
  unfold addTag. rewrite (token_trim t Ht), (ws_each_to_underscore_token t (proj2 Ht)).
  assert (nonempty t = true) as -> by (destruct Ht as [? _]; by destruct t).
  rewrite tag_string_of_set_same. cbn [truthy str_of].
  assert ((if nonempty (join [32] l') then split 32 (join [32] l') else []) = l') as ->.
  { destruct l' as [|x l'']; [done|].
    rewrite join_tokens_nonempty by done.
    apply split_join; [done | by apply tokens_no_space]. }
  rewrite (includes_false t l' Hnin). cbn [negb].
  apply set_tag_string_of_twice.
Qed.

Lemma updateEditedStatus_same_tokens st postId e c s s' :
  temporaryTagEdits st !! postId = Some e ->
  tag_string_of e c = Str s ->
  tag_tokens s ≡ₚ tag_tokens s' ->
  nonempty s = nonempty s' ->
  updateEditedStatus
    (set_temporaryTagEdits
       (<[postId := set_tag_string_of c (Str s') e]> (temporaryTagEdits st)) st)
    postId
  = updateEditedStatus st postId.
Proof.
  intros He Hs Hp Hne. unfold updateEditedStatus.
  cbn [set_temporaryTagEdits temporaryTagEdits originalPostCache].
  rewrite lookup_insert_eq, He.
  destruct (originalPostCache st !! postId) as [o|]; [|done].
  assert (forall cat, has_own (tag_string_of (set_tag_string_of c (Str s') e) cat)
                      = has_own (tag_string_of e cat)) as Hown.
  { intros cat. rewrite tag_string_of_set. case_bool_decide; [subst|done].
    by rewrite Hs. }
  assert (forall cat,
             compareTagStrings (tag_string_of o cat)
               (tag_string_of (set_tag_string_of c (Str s') e) cat)
             = compareTagStrings (tag_string_of o cat) (tag_string_of e cat)) as Hcmp.
  { intros cat. rewrite tag_string_of_set. case_bool_decide; [subst|done].
    rewrite Hs. symmetry. by apply compareTagStrings_perm. }
  unfold categories. cbn [existsb]. rewrite !Hown, !Hcmp.
  replace (tag_string (set_tag_string_of c (Str s') e)) with (tag_string e)
    by (by destruct c).
  done.
Qed.

Lemma panel_edit_frame postId f st :
  posts (panel_edit postId f st) = posts st
  /\ originalPostCache (panel_edit postId f st) = originalPostCache st
  /\ temporaryTagEdits (panel_edit postId f st) = alter f postId (temporaryTagEdits st).
Proof.
  unfold panel_edit.
  destruct (refresh_indicator_frame postId postId
              (set_temporaryTagEdits (alter f postId (temporaryTagEdits st)) st))
    as (-> & -> & ->).
  done.
Qed.

(** X19: deleting a tag in the panel and then adding the same tag back
    leaves the edited status as it was, although the tag now comes last
    in its category; in particular an unedited post is unedited
    again. *)
Theorem panel_delete_then_add_restores
    (st : State) (postId : N) (e : Post) (c : category) (l : list jsstring)
    (t : jsstring) :
  temporaryTagEdits st !! postId = Some e ->
  tag_string_of e c = Str (join [32] l) ->
  Forall is_token l -> NoDup l -> t ∈ l ->
  let st' := panel_edit postId (addTag c t) (panel_edit postId (deleteTag c t) st) in
  updateEditedStatus st' postId = updateEditedStatus st postId
  /\ exists e', temporaryTagEdits st' !! postId = Some e'
                /\ exists s', tag_string_of e' c = Str s' /\ tag_tokens s' ≡ₚ l.
Proof.
  intros He Hf Hl Hnd Hin st'.
  destruct (deleteTag_addTag c t l e Hf Hl Hnd Hin) as (l' & Hperm & Heq).
  destruct (panel_edit_frame postId (deleteTag c t) st) as (_ & Ho1 & Ht1).
  destruct (panel_edit_frame postId (addTag c t) (panel_edit postId (deleteTag c t) st))
    as (_ & Ho2 & Ht2).
  fold st' in Ho2, Ht2. rewrite Ho1 in Ho2. rewrite Ht1 in Ht2.
  assert (temporaryTagEdits st'
          = <[postId := set_tag_string_of c (Str (join [32] (l' ++ [t]))) e]>
              (temporaryTagEdits st)) as Htemp.
  { rewrite Ht2. apply map_eq. intros k. destruct (decide (k = postId)) as [->|Hk].
    - by rewrite lookup_alter_eq, lookup_alter_eq, He, lookup_insert_eq, <- Heq.
    - by rewrite !lookup_alter_ne, lookup_insert_ne. }
  assert (Forall ws_free l) as Hws by (eapply Forall_impl; [exact Hl|]; by intros ? [_ ?]).
  destruct (join_reorder l (l' ++ [t]) Hws Hperm) as [Hne Htok].
  split.
  - rewrite <- (updateEditedStatus_same_tokens st postId e c (join [32] l)
                  (join [32] (l' ++ [t])) He Hf Htok Hne).
    unfold updateEditedStatus. by rewrite Htemp, Ho2.
  - eexists. split; [by rewrite Htemp, lookup_insert_eq|].
    eexists. split; [apply tag_string_of_set_same|].
    rewrite <- Htok, tag_tokens_join by done.
    assert (List.filter nonempty l = l) as ->; [|done].
    clear -Hl. induction Hl as [|x l [Hx _] _ IH]; [done|].
    simpl. destruct x; [done|]. simpl. by rewrite IH.
Qed.

Lemma join_snoc_nonempty cur x :
  nonempty x = true -> nonempty (join [32] (cur ++ [x])) = true.
Proof.
  intros Hx. destruct cur as [|y cur]; [done|].
  destruct (cur ++ [x]) as [|z r] eqn:Hr; [by destruct cur|].
  change (join [32] ((y :: cur) ++ [x])) with (join [32] (y :: (cur ++ [x]))).
  rewrite Hr. change (join [32] (y :: z :: r)) with (y ++ 32 :: join [32] (z :: r)).
  by destruct y.
Qed.

Lemma ws_each_to_underscore_no_space s :
  Forall (fun c => c <> 32) (ws_each_to_underscore s).
Proof.
  unfold ws_each_to_underscore. apply Forall_map, Forall_forall. intros c _. simpl.
  destruct (is_ws c) eqn:Hc; [done|]. by intros ->.
Qed.

(** X20: adding a tag that the category already holds changes nothing,
    so adding the same tag twice adds it once; an input of white space
    only adds nothing. *)
Theorem addTag_idempotent (c : category) (input : jsstring) (postData : Post) :
  addTag c input (addTag c input postData) = addTag c input postData
  /\ (blank input -> addTag c input postData = postData).
Proof.
  split.
  - unfold addTag at 2.
    set (newTag := ws_each_to_underscore (trim input)).
    destruct (nonempty newTag) eqn:Hne; [|done].
    set (currentTags := if truthy (tag_string_of postData c)
                        then split 32 (str_of (tag_string_of postData c)) else []).
    destruct (includes newTag currentTags) eqn:Hinc; cbn [negb]; [done|].
    assert (addTag c input postData
            = set_tag_string_of c (Str (join [32] (currentTags ++ [newTag]))) postData)
      as ->.
    { unfold addTag. fold newTag. fold currentTags. by rewrite Hne, Hinc. }
    unfold addTag. fold newTag. rewrite Hne, tag_string_of_set_same.
    cbn [truthy str_of]. rewrite (join_snoc_nonempty currentTags newTag Hne).
    rewrite split_join.
    + rewrite includes_true; [done|]. apply elem_of_app. right. by left.
    + by destruct currentTags.
    + apply Forall_app. split; [|repeat constructor; apply ws_each_to_underscore_no_space].
      subst currentTags. destruct (truthy _); [|constructor].
      apply split_go_no_sep. constructor.
  - intros Hb. unfold addTag. by rewrite (trim_blank input Hb).
Qed.

Lemma addTag_idempotent_witness :
  let post := sample_post 7 "https://cdn.example/7.png" "a b" in
  tag_string_general (addTag general (lit " long hair ") post) = Str (lit "a b long_hair")
  /\ addTag general (lit " long hair ") (addTag general (lit " long hair ") post)
     = addTag general (lit " long hair ") post
  /\ addTag general (lit "   ") post = post.
Proof.
  intros post. split; [reflexivity|].
  destruct (addTag_idempotent general (lit " long hair ") post) as [Hi _].
  destruct (addTag_idempotent general (lit "   ") post) as [_ Hb].
  split; [exact Hi|]. apply Hb. by repeat constructor.
Defined.

Lemma panel_delete_then_add_restores_witness :
  let post := sample_post 7 "https://cdn.example/7.png" "a b c" in
  let st := @showEditPanel utc_builtins post
              (renderPost (set_posts [post] initial_state) post) in
  let st' := panel_edit 7 (addTag general (lit "a"))
               (panel_edit 7 (deleteTag general (lit "a")) st) in
  updateEditedStatus (panel_edit 7 (deleteTag general (lit "a")) st) 7 = true
  /\ (tag_string_general <$> temporaryTagEdits st' !! 7) = Some (Str (lit "b c a"))
  /\ updateEditedStatus st' 7 = false.
Proof.
  intros post st st'. split; [by vm_compute|]. split; [by vm_compute|].
  destruct (panel_delete_then_add_restores st 7 post general [lit "a"; lit "b"; lit "c"]
              (lit "a")) as [Hs _].
  - by vm_compute.
  - reflexivity.
  - repeat constructor; by vm_compute.
  - apply NoDup_ListNoDup. repeat constructor; vm_compute; intuition congruence.
  - by left.
  - fold st' in Hs. rewrite Hs. by vm_compute.
Defined.

Lemma showEditPanel_closePanel_unedited_witness :
  let post := sample_post 7 "https://cdn.example/7.png" "a b c" in
  let st := renderPost (set_posts [post] initial_state) post in
  exists st',
    @closePanel utc_builtins post true (@showEditPanel utc_builtins post st) = Some st'
    /\ temporaryTagEdits (@showEditPanel utc_builtins post st) !! 7 = Some post
    /\ posts st' = posts st
    /\ temporaryTagEdits st' = temporaryTagEdits st
    /\ originalPostCache st' = originalPostCache st
    /\ updateEditedStatus st' 7 = false.
Proof.
  intros post st.
  destruct (@showEditPanel_closePanel_unedited utc_builtins post post post true st)
    as (st' & Hc & Hp & Ht & Ho & Hs).
  - reflexivity.
  - by vm_compute.
  - by vm_compute.
  - split; [intros []|]; by vm_compute.
  - exists st'. split; [exact Hc|]. split; [by vm_compute|]. done.
Defined.


Lemma closePanel_backdrop_clears_selection_witness :
  let post := sample_post 7 "https://cdn.example/7.png" "a b c" in
  let st := @showEditPanel utc_builtins post
              (renderPost (set_posts [post] initial_state) post) in
  selected_wrappers (imageGrid st) <> []
  /\ exists st',
      @closePanel utc_builtins post false st = Some st'
      /\ selection_data st' = WEmpty /\ selected_wrappers (imageGrid st') = [].
Proof.
  intros post st. split; [by vm_compute|].
  eexists. split; [reflexivity|].
  eapply (@closePanel_backdrop_clears_selection utc_builtins post post st);
    reflexivity.
Defined.

(** ** The tooltip over whole traces *)

Lemma tooltip_hidden_invariant es t pending :
  Forall (fun k => k < Tip.currentTooltipId t) pending ->
  Tip.displayed t = false ->
  deliverable pending t es ->
  forallb (fun e => negb (is_mouseenter e)) es = true ->
  Tip.displayed (Tip.run t es) = false.
Proof.
  revert t pending. induction es as [|e es IH]; intros t pending Hp Hd Hdel Hne;
    [done|].
  cbn [Tip.run foldl]. simpl in Hne. apply andb_prop in Hne as [He Hne].
  destruct Hdel as [Hin Hdel].
  destruct e as [post|post|k post tr|en zh]; [done| | |].
  - apply (IH _ pending); [|done|done|done].
    eapply Forall_impl; [exact Hp|]. intros k Hk.
    change (k < Tip.currentTooltipId t + 1). simpl in Hk. lia.
  - pose proof (proj1 (Forall_forall _ _) Hp k Hin) as Hk. simpl in Hk.
    assert (Tip.step t (Tip.FetchDone k post tr) = t) as Hstep
        by (apply tip_resume_stale; lia).
    rewrite Hstep in *. by apply (IH _ pending).
  - by apply (IH _ pending).
Qed.

(** X21: once the pointer has left an image, no response that was in
    flight can show the tooltip again: it stays hidden until the pointer
    enters an image, however many late responses arrive and whatever
    they bring. *)
Theorem tooltip_hidden_after_mouseleave
    (t : Tip.Tooltip) (pending : list N) (post : Post) (es : list Tip.Event) :
  Forall (fun k => k <= Tip.currentTooltipId t) pending ->
  deliverable pending (Tip.mouseleave post t) es ->
  forallb (fun e => negb (is_mouseenter e)) es = true ->
  Tip.displayed (Tip.run (Tip.mouseleave post t) es) = false.
Proof.
  intros Hp Hdel Hne. apply (tooltip_hidden_invariant es _ pending); [|done|done|done].
  eapply Forall_impl; [exact Hp|]. intros k Hk.
  change (k < Tip.currentTooltipId t + 1). simpl in Hk. lia.
Qed.

Lemma tooltip_quiet_invariant es t token :
  quiet token t es -> Tip.currentTooltipId t = token ->
  Tip.currentTooltipId (Tip.run t es) = token
  /\ Tip.tagsContainer (Tip.run t es) = Tip.tagsContainer t.
Proof.
  revert t. induction es as [|e es IH]; intros t Hq Hc; [done|].
  cbn [Tip.run foldl]. destruct Hq as (Hadv & Hk & Hq).
  destruct e as [post|post|k post tr|en zh]; simpl in Hadv; [|done| |].
  - assert (Tip.step t (Tip.MouseEnter post) = t) as Hstep.
    { simpl. unfold Tip.mouseenter. by rewrite Hadv. }
    rewrite Hstep in *. by apply IH.
  - assert (Tip.step t (Tip.FetchDone k post tr) = t) as Hstep
        by (apply tip_resume_stale; congruence).
    rewrite Hstep in *. by apply IH.
  - destruct (IH _ Hq Hc) as [H1 H2]. split; [exact H1 | exact H2].
Qed.

(** X22: the response to the latest hover is rendered: if, after the
    hover of an image suspends on its translation request, nothing
    makes another hover active or ends this one, the completion appends
    the tag sections of that image after its details and shows the
    tooltip. Each tag of a section carries what [translations[tag]]
    reads from the response object: its own non-empty string, or, for a
    tag the response does not hold that is named like a member of
    [Object.prototype] (such as [constructor]), that inherited member. *)
Theorem tooltip_latest_response_renders
    (A : Post) (t t1 : Tip.Tooltip) (thisTooltipId : N) (es : list Tip.Event)
    (translations : list (jsstring * jsstring)) :
  Tip.mouseenter A t = (t1, Some thisTooltipId) ->
  quiet thisTooltipId t1 es ->
  let t2 := Tip.mouseenter_resume thisTooltipId A translations (Tip.run t1 es) in
  Tip.displayed t2 = true
  /\ Tip.tagsContainer t2 = Tip.Details A :: Tip.tag_sections A translations
  /\ p_id A ∈ Tip.clickHandlers t2.
Proof.
  intros Henter Hq t2.
  pose proof (tip_mouseenter_token _ _ _ _ Henter) as Htok.
  destruct (tooltip_quiet_invariant es t1 thisTooltipId Hq (eq_sym Htok)) as [Hc Hg].
  assert (Tip.tagsContainer t1 = [Tip.Details A]) as Hd.
  { unfold Tip.mouseenter in Henter. repeat case_match; by simplify_eq. }
  subst t2. unfold Tip.mouseenter_resume. rewrite Hc, N.eqb_refl. cbn [negb].
  cbn [Tip.displayed Tip.tagsContainer Tip.clickHandlers]. rewrite Hg, Hd.
  split; [done|]. split; [done|]. by left.
Qed.

Lemma tooltip_hidden_after_mouseleave_witness :
  let A := sample_post 1 "https://cdn.example/1.png" "long_hair" in
  let t := {| Tip.currentTooltipId := 0;
              Tip.tooltip_enabled := true;
              Tip.language_zh := true;
              Tip.tagsContainer := [];
              Tip.displayed := false;
              Tip.clickHandlers := [] |} in
  let t1 := fst (Tip.mouseenter A t) in
  Tip.displayed
    (Tip.run (Tip.mouseleave A t1)
       [Tip.FetchDone 1 A [(lit "long_hair", lit "x")]; Tip.SaveSettings true false])
  = false.
Proof.
  intros A t t1.
  apply (tooltip_hidden_after_mouseleave t1 [1] A).
  - repeat constructor. by vm_compute.
  - repeat split. by left.
  - reflexivity.
Defined.

Lemma tooltip_latest_response_renders_witness :
  let A := sample_post 1 "https://cdn.example/1.png" "long_hair constructor smile" in
  let B := sample_post 2 "https://cdn.example/2.png" "short_hair" in
  let t := {| Tip.currentTooltipId := 0;
              Tip.tooltip_enabled := true;
              Tip.language_zh := true;
              Tip.tagsContainer := [];
              Tip.displayed := false;
              Tip.clickHandlers := [] |} in
  let t1 := fst (Tip.mouseenter A t) in
  let t2 := Tip.mouseenter_resume 1 A [(lit "long_hair", lit "x")]
              (Tip.run t1 [Tip.FetchDone 0 B []]) in
  Tip.displayed t2 = true
  /\ Tip.tagsContainer t2
     = [Tip.Details A;
        Tip.Tags general [(lit "long_hair", Some (Tip.Own (lit "x")));
                          (lit "constructor", Some (Tip.Inherited (lit "constructor")));
                          (lit "smile", None)]].
Proof.
  intros A B t t1 t2.
  destruct (tooltip_latest_response_renders A t t1 1 [Tip.FetchDone 0 B []]
              [(lit "long_hair", lit "x")]) as (Hd & Hc & _).
  - reflexivity.
  - repeat split. by vm_compute.
  - split; [exact Hd|]. fold t2 in Hc. rewrite Hc. by vm_compute.
Defined.

(** ** The blacklist *)

Section BlacklistProperties.
Context `{Builtins}.

(** X23: a post is blacklisted by the concatenation of two lists exactly
    when one of them blacklists it: entries are tested one by one, and a
    longer blacklist never lets more posts through. *)
Theorem isPostBlacklisted_app (bl bl' : list jsstring) (post : Post) :
  isPostBlacklisted (bl ++ bl') post
  = isPostBlacklisted bl post || isPostBlacklisted bl' post.
Proof.
  unfold isPostBlacklisted.
  destruct bl as [|b bl]; [done|]. destruct bl' as [|b' bl'].
  - rewrite app_nil_r. by rewrite orb_false_r.
  - change ((b :: bl) ++ b' :: bl') with (b :: (bl ++ b' :: bl')).
    change (b :: (bl ++ b' :: bl')) with ((b :: bl) ++ b' :: bl').
    apply existsb_app.
Qed.

Lemma isPostBlacklisted_match bl post b field tag :
  b ∈ bl -> nonempty (toLowerCase (trim b)) = true ->
  field ∈ [tag_string post; tag_string_artist post; tag_string_copyright post;
           tag_string_character post; tag_string_general post; tag_string_meta post] ->
  truthy field = true ->
  tag ∈ split 32 (str_of field) ->
  toLowerCase tag = toLowerCase (trim b) ->
  isPostBlacklisted bl post = true.
Proof.
  intros Hb Hne Hfield Htr Htag Heq. unfold isPostBlacklisted.
  destruct bl as [|b0 bl0] eqn:Hbl; [by apply elem_of_nil in Hb|]. rewrite <- Hbl in *.
  apply existsb_exists. exists b. split; [by apply list_elem_of_In|].
  rewrite Hne. cbn [andb]. apply existsb_exists. exists tag. split.
  - apply list_elem_of_In. unfold allTags_of.
    assert (tag ∈ push_split field) as Hin
        by (unfold push_split; by rewrite Htr).
    rewrite !elem_of_app. rewrite !elem_of_cons in Hfield.
    destruct Hfield as [->|[->|[->|[->|[->|[->|Hnil]]]]]]; [tauto..|].
    by apply elem_of_nil in Hnil.
  - by apply bool_decide_eq_true.
Qed.

Lemma fetchAndRender_keeps_filtered_out reset isNetworkConnected resp st post :
  isPostFiltered (currentBlacklist (settings st)) post = true ->
  post ∈ posts (fetchAndRender reset isNetworkConnected resp st) -> post ∈ posts st.
Proof.
  intros Hf. destruct (isLoading st) eqn:Hl.
  { unfold fetchAndRender, fetchAndRender_begin. by rewrite Hl. }
  pose proof (fetchAndRender_outcome reset isNetworkConnected resp st Hl) as Ho.
  cbv zeta in Ho.
  assert (forall p, p ∈ base_posts reset st -> p ∈ posts st) as Hbase.
  { intros p. unfold base_posts. destruct reset; [|done]. by intros ?%elem_of_nil. }
  destruct (loaded_posts reset isNetworkConnected resp st) as [filteredPosts|] eqn:Hlo.
  - destruct Ho as [-> _]. intros [Hin|Hin]%elem_of_app; [by apply Hbase|].
    unfold loaded_posts in Hlo. repeat case_match; simplify_eq.
    apply list_elem_of_In, filter_In in Hin as [_ Hin]. by rewrite Hf in Hin.
  - destruct Ho as [-> _]. apply Hbase.
Qed.

(** X24: a post that holds a blacklisted tag in any of its six tag
    strings (the flat [tag_string] or one of the five category strings),
    in any letter case, is filtered and is never appended to [posts] by
    a page load; blank blacklist entries match nothing. *)
Theorem fetchAndRender_never_appends_blacklisted
    (post : Post) (b tag : jsstring) (field : jsval) (st : State) :
  b ∈ currentBlacklist (settings st) ->
  nonempty (toLowerCase (trim b)) = true ->
  field ∈ [tag_string post; tag_string_artist post; tag_string_copyright post;
           tag_string_character post; tag_string_general post; tag_string_meta post] ->
  truthy field = true ->
  tag ∈ split 32 (str_of field) ->
  toLowerCase tag = toLowerCase (trim b) ->
  isPostFiltered (currentBlacklist (settings st)) post = true
  /\ forall reset isNetworkConnected resp,
      post ∈ posts (fetchAndRender reset isNetworkConnected resp st) -> post ∈ posts st.
Proof.
  intros Hb Hne Hfield Htr Htag Heq.
  assert (isPostFiltered (currentBlacklist (settings st)) post = true) as Hf.
  { unfold isPostFiltered. destruct (isValidImageType post); [|done]. cbn [negb].
    by eapply isPostBlacklisted_match. }
  split; [done|]. intros reset co resp. by apply fetchAndRender_keeps_filtered_out.
Qed.

End BlacklistProperties.

Lemma fetchAndRender_never_appends_blacklisted_witness :
  let post :=
    {| p_id := 2;
       preview_file_url := Str (lit "https://cdn.example/preview.jpg");
       file_url := Str (lit "https://cdn.example/2.jpg");
       large_file_url := Absent;
       file_ext := Absent;
       tag_string := Str (lit "1boy Gore");
       tag_string_artist := Absent;
       tag_string_copyright := Absent;
       tag_string_character := Absent;
       tag_string_general := Absent;
       tag_string_meta := Absent |} in
  let st := with_blacklist [" gore "%string] (with_search "1boy" initial_state) in
  @isPostFiltered utc_builtins (currentBlacklist (settings st)) post = true
  /\ posts (@fetchAndRender utc_builtins true true (RespList [post]) st) = [].
Proof.
  intros post st.
  destruct (@fetchAndRender_never_appends_blacklisted utc_builtins post
              (lit " gore ") (lit "Gore") (tag_string post) st) as [Hf _].
  - by left.
  - reflexivity.
  - by left.
  - reflexivity.
  - vm_compute. right. by left.
  - reflexivity.
  - split; [exact Hf | by vm_compute].
Defined.

(** ** Saving the settings *)

Lemma renderPost_ids st post :
  grid_post_ids (imageGrid (renderPost st post))
  = grid_post_ids (imageGrid st) ++ (if renderable post then [p_id post] else [])
  /\ selected_wrappers (imageGrid (renderPost st post)) = selected_wrappers (imageGrid st).
Proof.
  unfold renderPost, createPostElement, renderable.
  destruct (p_id post =? 0); [by rewrite app_nil_r|].
  destruct (truthy (preview_file_url post)); [|by rewrite app_nil_r]. cbn [orb negb andb].
  unfold grid_post_ids, selected_wrappers.
  destruct (originalPostCache st !! p_id post);
    cbn [set_imageGrid imageGrid set_originalPostCache];
    rewrite !flat_map_app; simpl; by rewrite ?app_nil_r.
Qed.

Lemma foldl_renderPost_ids l st :
  grid_post_ids (imageGrid (foldl renderPost st l))
  = grid_post_ids (imageGrid st) ++ map p_id (List.filter renderable l)
  /\ selected_wrappers (imageGrid (foldl renderPost st l))
     = selected_wrappers (imageGrid st).
Proof.
  revert st. induction l as [|p l IH]; intros st; cbn [foldl].
  - by rewrite app_nil_r.
  - destruct (IH (renderPost st p)) as [-> ->].
    destruct (renderPost_ids st p) as [-> ->]. split; [|done].
    rewrite <- app_assoc. f_equal. simpl. by destruct (renderable p).
Qed.

Section SettingsProperties.
Context `{Builtins}.

(** X25: when every save request succeeded, the grid afterwards shows,
    in order, exactly the loaded posts that pass the new blacklist (and
    can be drawn), all of them deselected, while [posts] still holds
    every loaded post and the exported selection is not rewritten; when
    one of them failed, nothing of the gallery changes. *)
Theorem saveButton_redraws
    (newBlacklist newFilterTags : list jsstring)
    (newFilterEnabled newMultiSelectEnabled : bool)
    (blacklistSuccess filterSuccess authSuccess uiSettingsSuccess : bool) (st : State) :
  let r := saveButton_resume newBlacklist newFilterTags newFilterEnabled
             newMultiSelectEnabled blacklistSuccess filterSuccess authSuccess
             uiSettingsSuccess st in
  let st' := state_of (snd r) in
  if blacklistSuccess && filterSuccess && authSuccess && uiSettingsSuccess then
    fst r = ToastSaveSuccess
    /\ grid_post_ids (imageGrid st')
       = map p_id (List.filter renderable
                     (List.filter (fun post => negb (isPostFiltered newBlacklist post))
                        (posts st)))
    /\ selected_wrappers (imageGrid st') = []
    /\ posts st' = posts st
    /\ selection_data st' = selection_data st
    /\ currentBlacklist (settings st') = newBlacklist
  else
    fst r = ToastSaveFailed /\ snd r = Returned st.
Proof.
  intros r st'. subst st' r. unfold saveButton_resume.
  destruct (blacklistSuccess && filterSuccess && authSuccess && uiSettingsSuccess);
    [|done].
  cbn [fst snd set_settings settings currentBlacklist posts]. split; [done|].
  set (filteredPosts := List.filter _ (posts st)).
  set (st0 := set_imageGrid [] (set_settings _ st)).
  destruct (foldl_renderPost_ids filteredPosts st0) as [Hids Hsel].
  destruct (foldl_renderPost_frame filteredPosts st0)
    as (Hp & _ & _ & Hl & _ & _ & Hs & _ & Hd & _).
  cbv zeta in Hp, Hl, Hs, Hd.
  set (st1 := foldl renderPost st0 filteredPosts) in *.
  assert (forall o, (o = Returned st1 \/ o = fetchAndRender_begin false st1) ->
                    grid_post_ids (imageGrid (state_of o)) = grid_post_ids (imageGrid st1)
                    /\ selected_wrappers (imageGrid (state_of o))
                       = selected_wrappers (imageGrid st1)
                    /\ posts (state_of o) = posts st1
                    /\ selection_data (state_of o) = selection_data st1
                    /\ settings (state_of o) = settings st1) as Hbegin.
  { intros o [->| ->]; [done|]. unfold fetchAndRender_begin.
    destruct (isLoading st1); [done|].
    destruct (existsb is_loading_item (imageGrid _)) eqn:He; simpl; rewrite ?He; [done|].
    unfold grid_post_ids, selected_wrappers. rewrite !flat_map_app. simpl.
    by rewrite !app_nil_r. }
  destruct (Hbegin (if (length filteredPosts <? 20)%nat
                    then fetchAndRender_begin false st1 else Returned st1))
    as (-> & -> & -> & -> & ->); [by destruct (_ <? _)%nat; auto|].
  rewrite Hids, Hsel, Hp, Hd, Hs. done.
Qed.

End SettingsProperties.

Lemma drop_ws_tight s :
  drop_ws s = [] \/ exists a m, drop_ws s = a :: m /\ is_ws a = false.
Proof.
  induction s as [|c s IH]; simpl; [by left|].
  destruct (is_ws c) eqn:Hc; [done|]. right. by exists c, s.
Qed.

Lemma trim_idem s : trim (trim s) = trim s.
Proof.
  unfold trim at 2 3.
  destruct (drop_ws_tight (rev (drop_ws s))) as [->|(z & m & Hb & Hz)]; [done|].
  destruct (drop_ws_split (rev (drop_ws s))) as (w & _ & Hw).
  rewrite Hb in *. apply (f_equal (@rev N)) in Hw.
  rewrite rev_involutive, rev_app_distr in Hw.
  destruct (drop_ws_tight s) as [He|(a & m' & Ha & Hwa)].
  { rewrite He in Hw. simpl in Hw. by destruct (rev m). }
  rewrite Ha in Hw. apply (trim_id _ a z); [| |done|done].
  - destruct (rev (z :: m)) as [|x l] eqn:Hr.
    + simpl in Hr. by destruct (rev m).
    + simpl in Hw. by injection Hw as -> _.
  - simpl. by rewrite last_snoc.
Qed.

(** X26: the lines read from a settings text area are normalised: every
    entry kept is non-empty, carries no white space at either end and
    holds no line break; a text area of white space only gives the empty
    list. *)
Theorem parse_lines_normalised (value : jsstring) :
  Forall (fun line => line <> [] /\ trim line = line /\ has_char 10 line = false)
    (parse_lines value)
  /\ (blank value -> parse_lines value = []).
Proof.
  split.
  - unfold parse_lines. destruct (nonempty (trim value)); [|constructor].
    apply Forall_forall. intros line Hin.
    apply list_elem_of_In, filter_In in Hin as [Hin Hne].
    apply in_map_iff in Hin as (piece & <- & Hin).
    split; [by destruct (trim piece)|]. split; [apply trim_idem|].
    apply has_char_false, trim_Forall.
    pose proof (split_go_no_sep 10 [] (trim value) ltac:(constructor)) as Hall.
    rewrite Forall_forall in Hall. apply Hall. by apply list_elem_of_In.
  - intros Hb. unfold parse_lines. by rewrite (trim_blank value Hb).
Qed.

Lemma parse_lines_normalised_witness :
  parse_lines (lit " ") = [].
Proof.
  apply (parse_lines_normalised (lit " ")). repeat constructor.
Defined.
